(** * Frame sampling, scoring and selection engine: a shallow embedding

    The Python sources embedded here are
    - [src/core/video_analyzer.py]  (sampling planner, selection engine,
      parallel coordinator, timestamp formatting),
    - [src/core/frame_scorer.py]    (weight normalisation, fast-mode scoring),
    - [src/core/face_detector.py]   (merging of frontal and profile boxes).

    Python [int] is [Z]; Python [float] is IEEE-754 binary64, which is what
    Rocq's primitive [float] is, so float arithmetic is computed bit for bit.
    Exceptions are explicit outcomes, and the one unbounded [while] loop of
    the planner runs on fuel. *)

From Stdlib Require Import ZArith List Bool Lia String Ascii DecimalString.
From Stdlib Require Import Floats QArith Sorted Permutation.
Import ListNotations.

Set Warnings "-inexact-float".
Close Scope Q_scope.
Open Scope Z_scope.

(** ** Python runtime: outcomes, exceptions, numeric conversions *)

Module Py.

Inductive exn : Set :=
| ZeroDivisionError
| ValueError
| OverflowError
| TypeError.

(** What running a piece of Python yields: a value, a raised exception, or
    no answer within the fuel given to a [while] loop. *)
Inductive outcome (A : Type) : Type :=
| Return (a : A)
| Raise (e : exn)
| OutOfFuel.

Arguments Return {A} a.
Arguments Raise {A} e.
Arguments OutOfFuel {A}.

Definition bind {A B : Type} (c : outcome A) (k : A -> outcome B) : outcome B :=
  match c with
  | Return a => k a
  | Raise e => Raise e
  | OutOfFuel => OutOfFuel
  end.

(** Did the run return, and with what. *)
Definition returns {A : Type} (c : outcome A) : bool :=
  match c with
  | Return _ => true
  | _ => false
  end.

Definition value_or {A : Type} (default : A) (c : outcome A) : A :=
  match c with
  | Return a => a
  | _ => default
  end.

Fixpoint mapM {A B : Type} (f : A -> outcome B) (l : list A) : outcome (list B) :=
  match l with
  | [] => Return []
  | x :: t =>
      bind (f x) (fun y => bind (mapM f t) (fun ys => Return (y :: ys)))
  end.

(** [int(f)]: truncation toward zero; [ValueError] on NaN, [OverflowError]
    on an infinity. *)
Definition int (f : float) : outcome Z :=
  match Prim2SF f with
  | S754_zero _ => Return 0
  | S754_finite s m e =>
      let mag := Z.shiftl (Z.pos m) e in
      Return (if s then - mag else mag)
  | S754_infinity _ => Raise OverflowError
  | S754_nan => Raise ValueError
  end.

(** The nearest binary64 value of an integer (ties to even). *)
Definition Z2F (z : Z) : float :=
  SF2Prim (binary_normalize prec emax z 0 false).

(** The rational a finite binary64 value denotes; [None] for an infinity
    or a NaN. *)
Definition exact (f : float) : option Q :=
  match Prim2SF f with
  | S754_zero _ => Some 0%Q
  | S754_finite s m e =>
      let mag := (inject_Z (Z.pos m) * Qpower 2 e)%Q in
      Some (if s then Qopp mag else mag)
  | _ => None
  end.

(** [float(z)], as applied implicitly when an [int] meets a [float]. *)
Definition float_of_int (z : Z) : outcome float :=
  let f := Z2F z in
  if is_infinity f then Raise OverflowError else Return f.

(** [x / y] on floats: Python raises where IEEE would give an infinity. *)
Definition truediv (x y : float) : outcome float :=
  if (y =? 0)%float then Raise ZeroDivisionError else Return (x / y)%float.

(** [a / b] on ints: the correctly rounded quotient. *)
Definition Z2SF (z : Z) : spec_float :=
  match z with
  | Z0 => S754_zero false
  | Z.pos p => S754_finite false p 0
  | Z.neg p => S754_finite true p 0
  end.

Definition int_truediv (a b : Z) : outcome float :=
  if b =? 0 then Raise ZeroDivisionError
  else
    let q := SF2Prim (SFdiv prec emax (Z2SF a) (Z2SF b)) in
    if is_infinity q then Raise OverflowError else Return q.

(** C's [fmod]: the exact remainder, carrying the sign of [x]. *)
Definition fmod (x y : float) : float :=
  match Prim2SF x, Prim2SF y with
  | S754_nan, _ | _, S754_nan => nan
  | S754_infinity _, _ => nan
  | _, S754_zero _ => nan
  | S754_zero _, _ => x
  | S754_finite _ _ _, S754_infinity _ => x
  | S754_finite sx mx ex, S754_finite _ my ey =>
      let e := Z.min ex ey in
      let r := (Z.pos mx * 2 ^ (ex - e)) mod (Z.pos my * 2 ^ (ey - e)) in
      SF2Prim (binary_normalize prec emax (if sx then - r else r) e sx)
  end.

(** C's [floor]. *)
Definition floor (x : float) : float :=
  match Prim2SF x with
  | S754_finite s m e =>
      if 0 <=? e then x
      else
        let n := Z.shiftr (if s then Z.neg m else Z.pos m) (- e) in
        SF2Prim (binary_normalize prec emax n 0 s)
  | _ => x
  end.

Definition copysign_zero (w : float) : float :=
  if get_sign w then (-0)%float else 0%float.

(** CPython's [_float_div_mod], shared by [//] and [divmod]. *)
Definition float_div_mod (vx wx : float) : float * float :=
  let mod0 := fmod vx wx in
  let div0 := ((vx - mod0) / wx)%float in
  let '(md, dv) :=
    if negb (mod0 =? 0)%float then
      if negb (Bool.eqb (wx <? 0)%float (mod0 <? 0)%float)
      then ((mod0 + wx)%float, (div0 - 1)%float)
      else (mod0, div0)
    else (copysign_zero wx, div0) in
  let floordiv :=
    if negb (dv =? 0)%float then
      let fl := floor dv in
      if (0.5 <? dv - fl)%float then (fl + 1)%float else fl
    else copysign_zero (vx / wx)%float in
  (floordiv, md).

(** [v // w] on floats. *)
Definition floordiv (v w : float) : outcome float :=
  if (w =? 0)%float then Raise ZeroDivisionError
  else Return (fst (float_div_mod v w)).

(** [v % w] on floats (CPython's [float_rem]). *)
Definition mod_ (v w : float) : outcome float :=
  if (w =? 0)%float then Raise ZeroDivisionError
  else
    let m := fmod v w in
    Return
      (if negb (m =? 0)%float then
         if negb (Bool.eqb (w <? 0)%float (m <? 0)%float) then (m + w)%float else m
       else copysign_zero w).

(** [a // b] on ints: floor division, which is [Z.div]. *)
Definition int_floordiv (a b : Z) : outcome Z :=
  if b =? 0 then Raise ZeroDivisionError else Return (a / b).

(** The format specification [02d]: decimal digits, zero-padded to width
    two, a minus sign counting toward the width. *)
Definition format_02d (n : Z) : string :=
  let digits := NilZero.string_of_uint (N.to_uint (Z.to_N (Z.abs n))) in
  if n <? 0 then String "-" digits
  else if (String.length digits <? 2)%nat then String "0" digits
  else digits.

End Py.

Import Py.

Declare Scope py_scope.
Delimit Scope py_scope with py.
Notation "x <- c ;; k" := (bind c (fun x => k))
  (at level 61, c at next level, right associativity) : py_scope.
Notation "' pat <- c ;; k" := (bind c (fun x => match x with pat => k end))
  (at level 61, pat pattern, c at next level, right associativity) : py_scope.
Open Scope py_scope.

(** ** The OpenCV collaborators

    Decoding and the image measurements are OpenCV's.  A capture is what
    [cap.set(CAP_PROP_POS_FRAMES, n); cap.read()] yields at each index;
    opening the same file twice gives two handles that decode alike. *)

Definition Capture (Frame : Type) : Type := Z -> option Frame.

Class Cv2 : Type := {
  (** [np.ndarray], a decoded BGR image *)
  Frame : Type;
  (** [cv2.VideoCapture(path)] followed by seek-and-read *)
  VideoCapture : string -> Capture Frame;
  (** [MotionAnalyzer.calculate_sharpness_fast]: Laplacian variance at
      160 pixels wide, capped into [0,1] *)
  calculate_sharpness_fast : Frame -> float;
  (** [MotionAnalyzer.calculate_sharpness] at the fast analysis width *)
  calculate_sharpness : Frame -> float;
  (** [FaceDetector.calculate_face_score(frame, skip_eyes=True)] *)
  calculate_face_score : Frame -> float
}.

(** ** [frame_scorer.py] *)

Module FrameScorer.

(** The three stored weights.  [VideoAnalyzer] builds its scorer, and each
    parallel worker its own, with [fast_mode=True]; that mode is the one
    embedded. *)
Record t : Set := {
  face_weight : float;
  sharpness_weight : float;
  stability_weight : float
}.

(** [FrameScorer.__init__]: the weights divided by their sum. *)
Definition __init__ (face_weight sharpness_weight stability_weight : float)
  : outcome t :=
  let total := (face_weight + sharpness_weight + stability_weight)%float in
  fw <- truediv face_weight total ;;
  sw <- truediv sharpness_weight total ;;
  stw <- truediv stability_weight total ;;
  Return {| face_weight := fw; sharpness_weight := sw; stability_weight := stw |}.

(** [FrameScorer.set_weights]: the same three divisions, overwriting. *)
Definition set_weights (self : t)
  (face_weight sharpness_weight stability_weight : float) : outcome t :=
  let total := (face_weight + sharpness_weight + stability_weight)%float in
  fw <- truediv face_weight total ;;
  sw <- truediv sharpness_weight total ;;
  stw <- truediv stability_weight total ;;
  Return {| face_weight := fw; sharpness_weight := sw; stability_weight := stw |}.

(** [FrameScorer(fast_mode=True)]: the defaults 0.5 / 0.3 / 0.2. *)
Definition default : outcome t := __init__ 0.5 0.3 0.2.


(** The dict [score_frame] returns. *)
Record ScoreDetails : Set := {
  face_score : float;
  sharpness : float;
  stability : float;
  total_score : float
}.

(** [FrameScorer.score_frame] in fast mode: sharpness doubles as the
    stability score. *)
Definition score_frame `{Cv2} (self : t) (frame : Frame) : ScoreDetails :=
  let face_score := calculate_face_score frame in
  let sharpness := calculate_sharpness frame in
  let stability := sharpness in
  let total_score :=
    (face_score * face_weight self +
     sharpness * sharpness_weight self +
     stability * stability_weight self)%float in
  {| face_score := face_score; sharpness := sharpness;
     stability := stability; total_score := total_score |}.

End FrameScorer.

(** ** [project_types.py] *)

Module ProjectTypes.

Record ProjectTypeSettings : Set := {
  name : string;
  face_weight : float;
  sharpness_weight : float;
  stability_weight : float;
  require_faces : bool;
  motion_blur_penalty : float;
  min_sharpness_threshold : float
}.

(** [ProjectTypes.TYPES], the descriptions left out. *)
Definition TYPES : list ProjectTypeSettings :=
  [ {| name := "Podcast"; face_weight := 0.5; sharpness_weight := 0.3;
       stability_weight := 0.2; require_faces := true;
       motion_blur_penalty := 0.8; min_sharpness_threshold := 0.15 |};
    {| name := "Dokumentation"; face_weight := 0.2; sharpness_weight := 0.5;
       stability_weight := 0.3; require_faces := false;
       motion_blur_penalty := 0.3; min_sharpness_threshold := 0.1 |};
    {| name := "Commercial"; face_weight := 0.3; sharpness_weight := 0.4;
       stability_weight := 0.3; require_faces := false;
       motion_blur_penalty := 0.1; min_sharpness_threshold := 0.08 |};
    {| name := "Interview"; face_weight := 0.6; sharpness_weight := 0.25;
       stability_weight := 0.15; require_faces := true;
       motion_blur_penalty := 0.7; min_sharpness_threshold := 0.12 |};
    {| name := "B-Roll"; face_weight := 0.1; sharpness_weight := 0.5;
       stability_weight := 0.4; require_faces := false;
       motion_blur_penalty := 0.2; min_sharpness_threshold := 0.05 |} ].

End ProjectTypes.

(** ** [face_detector.py] *)

Module FaceDetector.

(** A rectangle [(x, y, w, h)]. *)
Definition rect : Set := (Z * Z * Z * Z)%type.

Record t : Set := {
  fast_mode : bool;
  scale_factor : float;
  min_neighbors : Z;
  detection_width : Z
}.

(** [FaceDetector.__init__] *)
Definition __init__ (fast_mode : bool) : t :=
  if fast_mode
  then {| fast_mode := true; scale_factor := 1.2; min_neighbors := 3;
          detection_width := 320 |}
  else {| fast_mode := false; scale_factor := 1.1; min_neighbors := 5;
          detection_width := 640 |}.

(** The scale [_prepare_frame] returns for a frame [w] pixels wide. *)
Definition _prepare_frame_scale (self : t) (w : Z) : outcome float :=
  scale <- (if detection_width self <? w
            then int_truediv (detection_width self) w
            else Return 1%float) ;;
  Return (if (scale <? 1)%float then scale else 1%float).

(** One pass of the loop body of [_is_overlapping]: does [rect] overlap
    the rectangle [r2] by more than [threshold]? *)
Definition overlaps (threshold : float) (rect r2 : rect) : outcome bool :=
  let '(x1, y1, w1, h1) := rect in
  let '(x2, y2, w2, h2) := r2 in
  let ix := Z.max 0 (Z.min (x1 + w1) (x2 + w2) - Z.max x1 x2) in
  let iy := Z.max 0 (Z.min (y1 + h1) (y2 + h2) - Z.max y1 y2) in
  let intersection := ix * iy in
  let area1 := w1 * h1 in
  let area2 := w2 * h2 in
  let union := area1 + area2 - intersection in
  if 0 <? union then
    ratio <- int_truediv intersection union ;;
    Return (threshold <? ratio)%float
  else Return false.

(** [FaceDetector._is_overlapping] *)
Fixpoint _is_overlapping (rect : rect) (rects : list FaceDetector.rect)
  (threshold : float) : outcome bool :=
  match rects with
  | [] => Return false
  | r2 :: rest =>
      hit <- overlaps threshold rect r2 ;;
      if hit then Return true else _is_overlapping rect rest threshold
  end.

(** Coordinates scaled back to the original size: [int(x / scale)] on
    each component. *)
Definition scale_back (scale : float) (r : rect) : outcome rect :=
  let '(x, y, w, h) := r in
  x' <- int (Z2F x / scale)%float ;;
  y' <- int (Z2F y / scale)%float ;;
  w' <- int (Z2F w / scale)%float ;;
  h' <- int (Z2F h / scale)%float ;;
  Return (x', y', w', h').

(** The profile loop of [detect_faces]: a scaled profile box joins
    [all_faces] unless it overlaps a box already there. *)
Fixpoint add_profiles (scale : float) (profiles : list rect)
  (all_faces : list rect) : outcome (list rect) :=
  match profiles with
  | [] => Return all_faces
  | p :: rest =>
      scaled_profile <- scale_back scale p ;;
      hit <- _is_overlapping scaled_profile all_faces 0.5 ;;
      if hit then add_profiles scale rest all_faces
      else add_profiles scale rest (all_faces ++ [scaled_profile])
  end.

(** [FaceDetector.detect_faces] on a frame [frame_width] pixels wide, for
    which the frontal cascade returned [faces] and the profile cascade
    would return [profiles]. *)
Definition detect_faces (self : t) (frame_width : Z)
  (faces profiles : list rect) : outcome (list rect) :=
  scale <- _prepare_frame_scale self frame_width ;;
  all_faces <- mapM (scale_back scale) faces ;;
  if fast_mode self then Return all_faces
  else add_profiles scale profiles all_faces.

End FaceDetector.

(** ** Python's stable sort

    [list.sort(key=...)] is stable, also with [reverse=True]: elements whose
    keys compare equal keep their relative order.  [before y x] says that
    [y]'s key lies strictly ahead of [x]'s in the requested direction; an
    element is placed behind exactly the elements that are strictly ahead
    of it, hence in front of every later element it ties with.

    The keys sorted in these sources are frame numbers and total scores.
    Keys that [<] orders totally, as integers and as floats other than
    NaN, leave a stable sort no choice, so the list computed here is the
    list [list.sort] returns.  A NaN among the keys compares false with
    everything, and where it ends up depends on the run detection and the
    merges of [list.sort], which are not embedded: what is stated below
    about the order of a list sorted by score is stated for scores that
    are numbers, and what is stated for all scores does not depend on the
    order. *)

Fixpoint insert_by {A : Type} (before : A -> A -> bool) (x : A) (l : list A)
  : list A :=
  match l with
  | [] => [x]
  | y :: t => if before y x then y :: insert_by before x t else x :: l
  end.

Definition stable_sort {A : Type} (before : A -> A -> bool) (l : list A)
  : list A :=
  fold_right (insert_by before) [] l.

(** The comparisons of [x] against [y] agree with an order [R]: [y] goes
    before [x] only if [R y x], and otherwise [R x y]. *)
Definition ordered_against {A : Type} (before : A -> A -> bool)
  (R : A -> A -> Prop) (x y : A) : Prop :=
  (before y x = true -> R y x) /\ (before y x = false -> R x y).

(** [a] stands in the list [l] with [b] somewhere behind it. *)
Fixpoint precedes {A : Type} (l : list A) (a b : A) : Prop :=
  match l with
  | [] => False
  | h :: t => (h = a /\ In b t) \/ precedes t a b
  end.

(** The slice [l[i::step]] for [step >= 1]: [skip] counts the elements still
    to pass over before the next one is taken. *)
Fixpoint stride {A : Type} (step : nat) (skip : nat) (l : list A) : list A :=
  match l with
  | [] => []
  | x :: t =>
      match skip with
      | O => x :: stride step (Nat.pred step) t
      | S k => stride step k t
      end
  end.

(** ** [video_analyzer.py] *)

Module VideoAnalyzer.

Record VideoInfo : Set := {
  path : string;
  width : Z;
  height : Z;
  fps : float;
  frame_count : Z;
  duration : float;
  codec : string
}.

Record SelectedFrame `{Cv2} : Type := {
  frame_number : Z;
  timestamp : float;
  image : Frame;
  score : float;
  score_details : FrameScorer.ScoreDetails;
  is_manual : bool
}.

(** The analyzer object: the fields [__init__] creates. *)
Record t `{Cv2} : Type := {
  video_path : option string;
  video_capture : option (Capture Frame);
  video_info : option VideoInfo;
  frame_scorer : FrameScorer.t
}.

(** [SAMPLING_CONFIG], in the dict's insertion order.  The integer bounds
    are exact as floats, so [duration <= bound] reads the same. *)
Definition SAMPLING_CONFIG : list (float * (Z * Z)) :=
  [ (300%float, (500, 2));
    (1800%float, (400, 5));
    (7200%float, (300, 15));
    (14400%float, (250, 30));
    (infinity, (200, 60)) ].

(** The [for] loop of [_get_sampling_config]: return at the first bound
    the duration does not exceed. *)
Fixpoint first_config (duration : float) (items : list (float * (Z * Z)))
  : option (Z * Z) :=
  match items with
  | [] => None
  | (max_duration, (target_samples, min_interval)) :: rest =>
      if (duration <=? max_duration)%float
      then Some (target_samples, min_interval)
      else first_config duration rest
  end.

(** [VideoAnalyzer._get_sampling_config] *)
Definition _get_sampling_config (video_info : option VideoInfo) : Z * Z :=
  match video_info with
  | None => (300, 10)
  | Some info =>
      match first_config (duration info) SAMPLING_CONFIG with
      | Some config => config
      | None => (200, 60)
      end
  end.

(** The [while] loop of [_calculate_sample_positions]; the guard evaluates
    [int(fps * 5)] anew on every round. *)
Fixpoint sample_loop (fuel : nat) (fps : float) (total_frames interval : Z)
  (pos : Z) (positions : list Z) : outcome (list Z) :=
  match fuel with
  | O => OutOfFuel
  | S fuel' =>
      skip <- int (fps * 5)%float ;;
      if pos <? total_frames - skip
      then sample_loop fuel' fps total_frames interval (pos + interval)
                       (positions ++ [pos])
      else Return positions
  end.

(** [VideoAnalyzer._calculate_sample_positions] *)
Definition _calculate_sample_positions (fuel : nat)
  (video_info : option VideoInfo) (num_samples : Z) (min_interval_sec : float)
  : outcome (list Z) :=
  match video_info with
  | None => Return []
  | Some info =>
      let fps := fps info in
      let total_frames := frame_count info in
      min_interval_frames <- int (min_interval_sec * fps)%float ;;
      per_sample <- int_floordiv total_frames num_samples ;;
      let interval := Z.max min_interval_frames per_sample in
      pos <- int (fps * 5)%float ;;
      sample_loop fuel fps total_frames interval pos []
  end.

(** [VideoAnalyzer.format_timestamp] *)
Definition format_timestamp (seconds : float) : outcome string :=
  hours <- (q <- floordiv seconds 3600 ;; int q) ;;
  minutes <- (r <- mod_ seconds 3600 ;; q <- floordiv r 60 ;; int q) ;;
  secs <- (r <- mod_ seconds 60 ;; int r) ;;
  ms <- (r <- mod_ seconds 1 ;; int (r * 100)%float) ;;
  if 0 <? hours
  then Return (format_02d hours ++ ":" ++ format_02d minutes ++ ":" ++
               format_02d secs ++ "." ++ format_02d ms)%string
  else Return (format_02d minutes ++ ":" ++ format_02d secs ++ "." ++
               format_02d ms)%string.

Section Analysis.

Context `{Cv2}.

(** [VideoAnalyzer.get_frame_at_position] *)
Definition get_frame_at_position (self : t) (frame_number : Z) : option Frame :=
  match video_capture self, video_info self with
  | Some cap, Some info =>
      if (frame_number <? 0) || (frame_count info <=? frame_number)
      then None
      else cap frame_number
  | _, _ => None
  end.

(** A candidate of phase 1: [(frame_num, frame, sharpness)]. *)
Definition candidate : Type := (Z * Frame * float)%type.

(** A scored frame of phase 2: [(frame_num, total_score, scores, frame)]. *)
Definition scored : Type := (Z * float * FrameScorer.ScoreDetails * Frame)%type.

Definition scored_frame_num (c : scored) : Z := let '(n, _, _, _) := c in n.
Definition scored_total (c : scored) : float := let '(_, s, _, _) := c in s.
Definition scored_image (c : scored) : Frame := let '(_, _, _, f) := c in f.

(** Phase 1 of [analyze_video]: the sharpness pre-filter over the sampled
    positions.  A frame that does not decode is passed over. *)
Fixpoint prefilter (self : t) (sample_positions : list Z) : list candidate :=
  match sample_positions with
  | [] => []
  | frame_num :: rest =>
      match get_frame_at_position self frame_num with
      | None => prefilter self rest
      | Some frame =>
          let sharpness := calculate_sharpness_fast frame in
          if (0.15 <? sharpness)%float
          then (frame_num, frame, sharpness) :: prefilter self rest
          else prefilter self rest
      end
  end.

(** Phase 2: full scoring of the candidates. *)
Definition score_candidates (self : t) (candidates : list candidate)
  : list scored :=
  map (fun c : candidate =>
         let '(frame_num, frame, _) := c in
         let scores := FrameScorer.score_frame (frame_scorer self) frame in
         (frame_num, FrameScorer.total_score scores, scores, frame))
      candidates.

(** [sort(key=lambda x: x[1], reverse=True)] *)
Definition sort_by_score_desc (l : list scored) : list scored :=
  stable_sort (fun y x => (scored_total x <? scored_total y)%float) l.

(** [sort(key=lambda x: x[0])] *)
Definition sort_by_frame_num (l : list scored) : list scored :=
  stable_sort (fun y x => scored_frame_num y <? scored_frame_num x) l.

(** The spacing enforced between selected frames, in frames. *)
Definition min_frame_interval (info : VideoInfo) (num_frames : Z) : outcome Z :=
  apart <- int (fps info * 30)%float ;;
  share <- int_floordiv (frame_count info) (num_frames * 2) ;;
  Return (Z.max apart share).

(** The interval check of the serial path: the loop over [selected] that
    sets [too_close] and breaks at the first frame within the interval. *)
Fixpoint too_close (min_frame_interval : Z) (frame_num : Z)
  (selected : list scored) : bool :=
  match selected with
  | [] => false
  | sel :: rest =>
      if Z.abs (frame_num - scored_frame_num sel) <? min_frame_interval
      then true
      else too_close min_frame_interval frame_num rest
  end.

(** The interval check of the parallel path:
    [any(abs(frame_num - sel[0]) < min_frame_interval for sel in selected)]. *)
Definition too_close_any (min_frame_interval : Z) (frame_num : Z)
  (selected : list scored) : bool :=
  existsb (fun sel => Z.abs (frame_num - scored_frame_num sel) <? min_frame_interval)
          selected.

(** The greedy pick, written alike in both paths but for the interval
    check: walk the sorted frames, stop once [num_frames] are selected, skip
    a frame too close to a selected one. *)
Fixpoint select (too_close : Z -> Z -> list scored -> bool)
  (num_frames min_frame_interval : Z) (scored_frames : list scored)
  (selected : list scored) : list scored :=
  match scored_frames with
  | [] => selected
  | c :: rest =>
      if num_frames <=? Z.of_nat (List.length selected) then selected
      else if too_close min_frame_interval (scored_frame_num c) selected
      then select too_close num_frames min_frame_interval rest selected
      else select too_close num_frames min_frame_interval rest (selected ++ [c])
  end.

(** The conversion to [SelectedFrame]: [timestamp = frame_num / fps]. *)
Definition to_selected_frame (info : VideoInfo) (c : scored)
  : outcome SelectedFrame :=
  let '(frame_num, score, details, frame) := c in
  timestamp <- (n <- float_of_int frame_num ;; truediv n (fps info)) ;;
  Return {| frame_number := frame_num; timestamp := timestamp; image := frame;
            score := score; score_details := details; is_manual := false |}.

(** Sorting, selection and conversion: the tail of both paths, over their
    scored frames, each with its own interval check. *)
Definition select_best (too_close : Z -> Z -> list scored -> bool)
  (info : VideoInfo) (num_frames : Z) (scored_frames : list scored)
  : outcome (list SelectedFrame) :=
  let sorted := sort_by_score_desc scored_frames in
  min_frame_interval <- min_frame_interval info num_frames ;;
  let selected := select too_close num_frames min_frame_interval sorted [] in
  let selected := sort_by_frame_num selected in
  mapM (to_selected_frame info) selected.

(** [VideoAnalyzer.analyze_video], without a progress callback. *)
Definition analyze_video (fuel : nat) (self : t) (num_frames : Z)
  : outcome (list SelectedFrame) :=
  match video_capture self, video_info self with
  | Some _, Some info =>
      let '(target_samples, min_interval_sec) :=
        _get_sampling_config (video_info self) in
      sample_positions <-
        _calculate_sample_positions fuel (video_info self) target_samples
                                    (Z2F min_interval_sec) ;;
      let candidates := prefilter self sample_positions in
      let scored_frames := score_candidates self candidates in
      select_best too_close info num_frames scored_frames
  | _, _ => Return []
  end.

(** [analyze_chunk]: one worker's pass over its positions, with a capture
    and a scorer of its own. *)
Fixpoint analyze_chunk (cap : Capture Frame) (frame_scorer : FrameScorer.t)
  (positions : list Z) : list scored :=
  match positions with
  | [] => []
  | frame_num :: rest =>
      match cap frame_num with
      | None => analyze_chunk cap frame_scorer rest
      | Some frame =>
          let sharpness := calculate_sharpness_fast frame in
          if (0.15 <? sharpness)%float
          then
            let scores := FrameScorer.score_frame frame_scorer frame in
            (frame_num, FrameScorer.total_score scores, scores, frame)
              :: analyze_chunk cap frame_scorer rest
          else analyze_chunk cap frame_scorer rest
      end
  end.

(** [[sample_positions[i::num_workers] for i in range(num_workers)]] *)
Definition chunks (num_workers : nat) (sample_positions : list Z)
  : list (list Z) :=
  map (fun i => stride num_workers i sample_positions) (seq 0 num_workers).

(** [VideoAnalyzer.analyze_video_parallel], without a progress callback.
    [completion] is the order in which [as_completed] hands back the
    submitted futures, by index. *)
Definition analyze_video_parallel (fuel : nat) (self : t) (num_frames : Z)
  (num_workers : Z) (completion : list nat) : outcome (list SelectedFrame) :=
  match video_info self with
  | None => Return []
  | Some info =>
      let '(target_samples, min_interval_sec) :=
        _get_sampling_config (video_info self) in
      sample_positions <-
        _calculate_sample_positions fuel (video_info self) target_samples
                                    (Z2F min_interval_sec) ;;
      let chunks := chunks (Z.to_nat num_workers) sample_positions in
      if num_workers <=? 0 then Raise ValueError
      else
        match video_path self with
        | None => Raise TypeError
        | Some video_path =>
            worker_scorer <- FrameScorer.default ;;
            let futures :=
              map (analyze_chunk (VideoCapture video_path) worker_scorer)
                  (filter (fun chunk => negb (Nat.eqb (List.length chunk) 0)) chunks) in
            let results := flat_map (fun i => nth i futures []) completion in
            select_best too_close_any info num_frames results
        end
  end.

End Analysis.

End VideoAnalyzer.

(** ** A synthetic video

    A stand-in for OpenCV on which the functions above can be run: a frame
    is represented by its index; the file holds 400 frames, of which every
    fiftieth does not decode; the measurements are arithmetic in the
    index. *)

Module Fixture.

Definition cv2 : Cv2 := {|
  Frame := Z;
  VideoCapture := fun _ n =>
    if (0 <=? n) && (n <? 400) && negb (n mod 50 =? 0) then Some n else None;
  calculate_sharpness_fast := fun f => (Z2F (f mod 7) / 10)%float;
  calculate_sharpness := fun f => (Z2F ((f * 37) mod 401) / 401)%float;
  calculate_face_score := fun f => (Z2F (f mod 3) / 2)%float
|}.

Definition info : VideoAnalyzer.VideoInfo :=
  {| VideoAnalyzer.path := "talk.mp4"; VideoAnalyzer.width := 1280;
     VideoAnalyzer.height := 720; VideoAnalyzer.fps := 1;
     VideoAnalyzer.frame_count := 400; VideoAnalyzer.duration := 400;
     VideoAnalyzer.codec := "avc1" |}.

Definition default_scorer : FrameScorer.t :=
  {| FrameScorer.face_weight := 0.5; FrameScorer.sharpness_weight := 0.3;
     FrameScorer.stability_weight := 0.2 |}.

(** The analyzer after [load_video("talk.mp4")]. *)
Definition loaded : @VideoAnalyzer.t cv2 :=
  {| VideoAnalyzer.video_path := Some "talk.mp4"%string;
     VideoAnalyzer.video_capture := Some (@VideoCapture cv2 "talk.mp4"%string);
     VideoAnalyzer.video_info := Some info;
     VideoAnalyzer.frame_scorer := default_scorer |}.

(** The same metadata over a capture whose every frame is flat: fast
    sharpness 0. *)
Definition blurred : @VideoAnalyzer.t cv2 :=
  {| VideoAnalyzer.video_path := Some "flat.mp4"%string;
     VideoAnalyzer.video_capture :=
       Some (fun _ : Z => (Some 0 : option (@Frame cv2)));
     VideoAnalyzer.video_info := Some info;
     VideoAnalyzer.frame_scorer := default_scorer |}.

(** The analyzer after [load_video("talk.mp4")] and
    [frame_scorer.set_weights(0.1, 0.5, 0.4)], the weights of the B-Roll
    preset. *)
Definition b_roll : @VideoAnalyzer.t cv2 :=
  {| VideoAnalyzer.video_path := Some "talk.mp4"%string;
     VideoAnalyzer.video_capture := Some (@VideoCapture cv2 "talk.mp4"%string);
     VideoAnalyzer.video_info := Some info;
     VideoAnalyzer.frame_scorer :=
       value_or default_scorer (FrameScorer.set_weights default_scorer 0.1 0.5 0.4) |}.

(** What the serial analysis selects from it when three frames are asked
    for. *)
Definition selection : list (@VideoAnalyzer.SelectedFrame cv2) :=
  value_or [] (VideoAnalyzer.analyze_video 400 loaded 3).

End Fixture.

(** * The remaining functions of the sources

    The methods around the analysis: opening and closing a video, frame
    access, the progress callback, the list-based selection of
    [FrameScorer], the face and sharpness scores, the project presets, the
    analysis worker of the GUI, and the naming and saving of exported
    files. *)

From Stdlib Require DecimalN.

(** ** Built-in functions *)

Module Builtins.

(** [min(a, b)] on floats: [b] replaces [a] when [b < a]. *)
Definition min (a b : float) : float := if (b <? a)%float then b else a.

(** [max(a, b)] on floats: [b] replaces [a] when [b > a]. *)
Definition max (a b : float) : float := if (a <? b)%float then b else a.

(** [list(range(start, stop, step))]; the length is CPython's
    [get_len_of_range]. *)
Definition range (start stop step : Z) : outcome (list Z) :=
  if step =? 0 then Raise ValueError
  else
    let '(lo, hi, width) :=
      if 0 <? step then (start, stop, step) else (stop, start, - step) in
    let n := if lo <? hi then (hi - lo - 1) / width + 1 else 0 in
    Return (map (fun i => start + Z.of_nat i * step) (seq 0 (Z.to_nat n))).

(** [chr(i)] for a code below 256. *)
Definition chr (i : Z) : ascii := ascii_of_N (Z.to_N i).

End Builtins.

(** ** The file system and the container metadata

    [pathlib] answers for the path, OpenCV for what the container
    reports. *)

Inductive CapProp : Set :=
| CAP_PROP_FRAME_WIDTH
| CAP_PROP_FRAME_HEIGHT
| CAP_PROP_FPS
| CAP_PROP_FRAME_COUNT
| CAP_PROP_FOURCC.

Class VideoFiles : Type := {
  (** [Path(filepath).exists()] *)
  path_exists : string -> bool;
  (** [Path(filepath).suffix.lower()] *)
  suffix_lower : string -> string;
  (** [cv2.VideoCapture(filepath).isOpened()] *)
  isOpened : string -> bool;
  (** [cv2.VideoCapture(filepath).get(prop)] *)
  cap_get : string -> CapProp -> float
}.

(** ** [video_analyzer.py]: loading, frame access, progress *)

Module VideoAnalyzerMethods.

Import VideoAnalyzer.


(** The codec tag of [load_video]:
    ["".join([chr((fourcc >> 8 * i) & 0xFF) for i in range(4)])]. *)
Definition codec_of_fourcc (fourcc : Z) : string :=
  string_of_list_ascii
    (map (fun i => Builtins.chr (Z.land (Z.shiftr fourcc (8 * i)) 255))
         [0; 1; 2; 3]).

(** The calls a progress callback receives, [(current, total)] each. *)
Definition calls : Type := list (Z * Z).

(** How a run under a progress callback ends: with what the analysis
    yields, or with the exception the callback raised. *)
Inductive progress_outcome (A : Type) : Type :=
| Completed (result : outcome A)
| Interrupted.

Arguments Completed {A} result.
Arguments Interrupted {A}.

Section Methods.

Context `{Cv2} `{VideoFiles}.





(** [VideoAnalyzer.create_manual_frame].  A frame is decoded only with the
    metadata present, so the inner [None] branch is not taken. *)
Definition create_manual_frame (self : t) (frame_number : Z)
  : outcome (option SelectedFrame) :=
  match get_frame_at_position self frame_number with
  | None => Return None
  | Some frame =>
      let scores := FrameScorer.score_frame (frame_scorer self) frame in
      match video_info self with
      | None => Return None
      | Some info =>
          timestamp <- (n <- float_of_int frame_number ;; truediv n (fps info)) ;;
          Return (Some {| frame_number := frame_number; timestamp := timestamp;
                          image := frame;
                          score := FrameScorer.total_score scores;
                          score_details := scores; is_manual := true |})
      end
  end.

(** [list(VideoAnalyzer.frame_iterator(start, end, step))].  A capture
    without metadata, the one state in which the source would fail on
    [self.video_info.frame_count], is not [reachable]. *)
Definition frame_iterator (self : t) (start : Z) (end_ : option Z) (step : Z)
  : outcome (list (Z * Frame)) :=
  match video_capture self, video_info self with
  | Some _, Some info =>
      let end_ := match end_ with
                  | None => frame_count info
                  | Some e => e
                  end in
      frame_nums <- Builtins.range start end_ step ;;
      Return (flat_map (fun frame_num =>
                          match get_frame_at_position self frame_num with
                          | Some frame => [(frame_num, frame)]
                          | None => []
                          end)
                       frame_nums)
  | _, _ => Return []
  end.

(** Phase 1 of [analyze_video] under a progress callback.  [cancel k c t]
    tells whether the callback raises on its [k]-th call, made with
    [(c, t)]; [i] is the index [enumerate] has reached and [made] the calls
    so far.  A frame that does not decode is passed over before the
    callback is reached. *)
Fixpoint prefilter_progress (cancel : nat -> Z -> Z -> bool) (self : t)
  (total_samples : Z) (i : Z) (sample_positions : list Z) (made : calls)
  : calls * option (list candidate) :=
  match sample_positions with
  | [] => (made, Some [])
  | frame_num :: rest =>
      match get_frame_at_position self frame_num with
      | None => prefilter_progress cancel self total_samples (i + 1) rest made
      | Some frame =>
          let sharpness := calculate_sharpness_fast frame in
          let made' := made ++ [(i + 1, total_samples)] in
          if cancel (List.length made) (i + 1) total_samples
          then (made', None)
          else
            let '(made'', found) :=
              prefilter_progress cancel self total_samples (i + 1) rest made' in
            (made'',
             if (0.15 <? sharpness)%float
             then option_map (cons (frame_num, frame, sharpness)) found
             else found)
      end
  end.

(** [VideoAnalyzer.analyze_video] with a progress callback: the calls the
    callback receives, and how the run ends. *)
Definition analyze_video_progress (fuel : nat) (self : t) (num_frames : Z)
  (cancel : nat -> Z -> Z -> bool)
  : calls * progress_outcome (list SelectedFrame) :=
  match video_capture self, video_info self with
  | Some _, Some info =>
      let '(target_samples, min_interval_sec) :=
        _get_sampling_config (video_info self) in
      match _calculate_sample_positions fuel (video_info self) target_samples
                                        (Z2F min_interval_sec) with
      | Return sample_positions =>
          let total_samples := Z.of_nat (List.length sample_positions) in
          if cancel 0%nat 0 total_samples
          then ([(0, total_samples)], Interrupted)
          else
            match prefilter_progress cancel self total_samples 0
                                     sample_positions [(0, total_samples)] with
            | (made, None) => (made, Interrupted)
            | (made, Some candidates) =>
                let scored_frames := score_candidates self candidates in
                (made,
                 Completed (select_best too_close info num_frames scored_frames))
            end
      | Raise e => ([], Completed (Raise e))
      | OutOfFuel => ([], Completed OutOfFuel)
      end
  | _, _ => ([], Completed (Return []))
  end.

(** [VideoAnalyzer.__init__]: nothing loaded, a scorer with the default
    weights. *)
Definition __init__ : outcome t :=
  scorer <- FrameScorer.default ;;
  Return {| video_path := None; video_capture := None; video_info := None;
            frame_scorer := scorer |}.

(** [self.frame_scorer.set_weights(...)], as the analysis workers call it
    on the analyzer's scorer. *)
Definition set_weights (self : t)
  (face_weight sharpness_weight stability_weight : float) : outcome t :=
  scorer <- FrameScorer.set_weights (frame_scorer self) face_weight
              sharpness_weight stability_weight ;;
  Return {| video_path := video_path self; video_capture := video_capture self;
            video_info := video_info self; frame_scorer := scorer |}.


End Methods.

End VideoAnalyzerMethods.

(** ** [frame_scorer.py]: selection from a list of frames *)

Module FrameScorerMethods.

Import FrameScorer.

(** An entry of the scored list: [(frame_num, total_score, scores)]. *)
Definition scored : Set := (Z * float * ScoreDetails)%type.

Definition scored_frame_num (c : scored) : Z := let '(n, _, _) := c in n.
Definition scored_total (c : scored) : float := let '(_, s, _) := c in s.

(** The inner loop of [find_best_frames], with its [break]. *)
Fixpoint too_close (min_interval : Z) (frame_num : Z) (selected : list scored)
  : bool :=
  match selected with
  | [] => false
  | sel :: rest =>
      if Z.abs (frame_num - scored_frame_num sel) <? min_interval
      then true
      else too_close min_interval frame_num rest
  end.

(** The outer loop of [find_best_frames]. *)
Fixpoint select (num_frames min_interval : Z) (scored_frames : list scored)
  (selected : list scored) : list scored :=
  match scored_frames with
  | [] => selected
  | c :: rest =>
      if num_frames <=? Z.of_nat (List.length selected) then selected
      else if too_close min_interval (scored_frame_num c) selected
      then select num_frames min_interval rest selected
      else select num_frames min_interval rest (selected ++ [c])
  end.

(** The frames of [find_best_frames] once scored and sorted by score,
    best first. *)
Definition ranked `{Cv2} (self : t) (frames : list (Z * Frame)) : list scored :=
  stable_sort (fun y x => (scored_total x <? scored_total y)%float)
    (map (fun '(frame_num, frame) =>
            let scores := score_frame self frame in
            (frame_num, total_score scores, scores))
         frames).


End FrameScorerMethods.

(** ** [face_detector.py]: the face score *)

Module FaceDetectorMethods.

Import FaceDetector.

(** The body of the [for] loop of [calculate_face_score]: the score of one
    face.  [eyes] is the number of eyes [_detect_eyes_in_face] finds. *)
Definition face_score (width height : Z) (skip_eyes : bool) (eyes : rect -> Z)
  (face : rect) : outcome float :=
  let '(x, y, w, h) := face in
  let frame_area := width * height in
  frame_center_x <- int_truediv width 2 ;;
  frame_center_y <- int_truediv height 2 ;;
  let face_area := w * h in
  size_ratio <- int_truediv face_area frame_area ;;
  let size_score := Builtins.min 1 (size_ratio * 10)%float in
  face_center_x <- (a <- float_of_int x ;; b <- int_truediv w 2 ;;
                    Return (a + b)%float) ;;
  face_center_y <- (a <- float_of_int y ;; b <- int_truediv h 2 ;;
                    Return (a + b)%float) ;;
  dist_x <- (half <- int_truediv width 2 ;;
             truediv (abs (face_center_x - frame_center_x))%float half) ;;
  dist_y <- (half <- int_truediv height 2 ;;
             truediv (abs (face_center_y - frame_center_y))%float half) ;;
  let position_score := (1 - (dist_x * 0.5 + dist_y * 0.5))%float in
  eye_score <- (if skip_eyes then Return 0.5%float
                else e <- int_truediv (eyes face) 2 ;;
                     Return (Builtins.min 1 e)) ;;
  Return (size_score * 0.35 + position_score * 0.35 + eye_score * 0.3)%float.

(** The [for] loop: the running maximum over the faces. *)
Fixpoint max_face_score (width height : Z) (skip_eyes : bool)
  (eyes : rect -> Z) (faces : list rect) (max_score : float) : outcome float :=
  match faces with
  | [] => Return max_score
  | face :: rest =>
      s <- face_score width height skip_eyes eyes face ;;
      max_face_score width height skip_eyes eyes rest (Builtins.max max_score s)
  end.

(** [FaceDetector.calculate_face_score] on a frame of the given size;
    [frontal] and [profiles] are what the two cascades report for it. *)
Definition calculate_face_score (self : t) (width height : Z)
  (frontal profiles : list rect) (skip_eyes : bool) (eyes : rect -> Z)
  : outcome float :=
  faces <- detect_faces self width frontal profiles ;;
  if (List.length faces =? 0)%nat then Return 0%float
  else
    max_score <- max_face_score width height skip_eyes eyes faces 0 ;;
    extra <- float_of_int (Z.of_nat (List.length faces) - 1) ;;
    let multi_face_bonus := Builtins.min 0.15 (extra * 0.075)%float in
    Return (Builtins.min 1 (max_score + multi_face_bonus)%float).

End FaceDetectorMethods.

(** ** [motion_analyzer.py]: the sharpness scale *)

Module MotionAnalyzer.

(** The last step of [calculate_sharpness] and [calculate_sharpness_fast]:
    [min(1.0, variance / 500.0)], [variance] being the variance of the
    Laplacian, a NumPy float64. *)
Definition normalized (variance : float) : float :=
  Builtins.min 1 (variance / 500)%float.

End MotionAnalyzer.

(** ** [project_types.py]: looking a preset up *)

Module ProjectTypesMethods.

Import ProjectTypes.

(** [TYPES.get(type_name)]; every key of the dict is the name of its
    entry. *)
Definition get (type_name : string) : option ProjectTypeSettings :=
  find (fun s => String.eqb (name s) type_name) TYPES.

(** [ProjectTypes.get_settings]: [TYPES.get(type_name, TYPES["Podcast"])].
    The default is looked up first; [None] stands for its [KeyError]. *)
Definition get_settings (type_name : string) : option ProjectTypeSettings :=
  match get "Podcast" with
  | None => None
  | Some default =>
      Some (match get type_name with
            | Some settings => settings
            | None => default
            end)
  end.

(** [ProjectTypes.get_type_names] *)
Definition get_type_names : list string := map name TYPES.

End ProjectTypesMethods.

(** ** [screenshot_exporter.py]: the names of the exported files *)

Module ScreenshotExporter.

Import VideoAnalyzer.

(** [ScreenshotExporter._format_timestamp_filename] *)
Definition _format_timestamp_filename (seconds : float) : outcome string :=
  minutes <- (q <- floordiv seconds 60 ;; int q) ;;
  secs <- (r <- mod_ seconds 60 ;; int r) ;;
  ms <- (r <- mod_ seconds 1 ;; int (r * 100)%float) ;;
  Return (format_02d minutes ++ "m" ++ format_02d secs ++ "s" ++
          format_02d ms)%string.

(** The file name of the [i]-th frame:
    [f"{prefix}_{i+1:02d}_{timestamp_str}{extension}"]. *)
Definition filename (prefix : string) (i : Z) (timestamp : float)
  (extension : string) : outcome string :=
  timestamp_str <- _format_timestamp_filename timestamp ;;
  Return (prefix ++ "_" ++ format_02d (i + 1) ++ "_" ++ timestamp_str ++
          extension)%string.

Section ExportLoop.

Context `{Cv2}.

(** [output_path / filename], as a string. *)
Variable joinpath : string -> string.

(** The conversion to a PIL image and the optional LUT, taken to
    succeed, followed by [ImageFormats.save_image], which answers whether
    the file was written. *)
Variable save_image : Frame -> string -> bool.

(** The [for] loop of [export_frames] from index [i] on. *)
Fixpoint export_loop (prefix extension : string) (i : Z)
  (frames : list SelectedFrame) : outcome (list string) :=
  match frames with
  | [] => Return []
  | frame :: rest =>
      name <- filename prefix i (timestamp frame) extension ;;
      let filepath := joinpath name in
      let success := save_image (image frame) filepath in
      exported <- export_loop prefix extension (i + 1) rest ;;
      Return (if success then filepath :: exported else exported)
  end.

(** [ScreenshotExporter.export_frames], without a progress callback. *)
Definition export_frames (frames : list SelectedFrame)
  (prefix extension : string) : outcome (list string) :=
  export_loop prefix extension 0 frames.

End ExportLoop.

End ScreenshotExporter.

(** ** [gui/main_window.py]: the analysis worker *)

Module AnalyzeWorker.

Import VideoAnalyzer.

(** What the [try] block of [run] can raise: the [KeyError] of a dict
    lookup, or an exception of the analysis. *)
Inductive raised : Set :=
| KeyError
| Exn (e : exn).

(** The signal [run] ends with: [finished.emit(frames)] or
    [error.emit(str(e))]. *)
Inductive signal `{Cv2} : Type :=
| finished (frames : list SelectedFrame)
| error (e : raised).

(** [AnalyzeWorker.run]: the analyzer it leaves behind, the
    [progress.emit] signals in order, and the closing signal, [None] if
    the analysis does not come back.  [cancelled k] is the value of
    [_cancelled] when the progress callback is called for the [k]-th
    time: the callback then raises [InterruptedError] instead of
    emitting. *)
Definition run `{Cv2} (fuel : nat) (video_analyzer : t) (num_frames : Z)
  (project_type : string) (cancelled : nat -> bool)
  : t * VideoAnalyzerMethods.calls * option signal :=
  match ProjectTypesMethods.get_settings project_type with
  | None => (video_analyzer, [], Some (error KeyError))
  | Some settings =>
      match VideoAnalyzerMethods.set_weights video_analyzer
              (ProjectTypes.face_weight settings)
              (ProjectTypes.sharpness_weight settings)
              (ProjectTypes.stability_weight settings) with
      | Raise e => (video_analyzer, [], Some (error (Exn e)))
      | OutOfFuel => (video_analyzer, [], None)
      | Return video_analyzer =>
          let '(made, out) :=
            VideoAnalyzerMethods.analyze_video_progress fuel video_analyzer
              num_frames (fun k _ _ => cancelled k) in
          match out with
          | VideoAnalyzerMethods.Interrupted =>
              (video_analyzer, removelast made, Some (finished []))
          | VideoAnalyzerMethods.Completed (Return frames) =>
              (video_analyzer, made, Some (finished frames))
          | VideoAnalyzerMethods.Completed (Raise e) =>
              (video_analyzer, made, Some (error (Exn e)))
          | VideoAnalyzerMethods.Completed OutOfFuel =>
              (video_analyzer, made, None)
          end
      end
  end.

End AnalyzeWorker.

(** ** [image_formats.py]: what is handed to Pillow *)

Module ImageFormats.

(** An entry of [FORMATS]; of the options only [quality] is ever
    changed. *)
Record format_info : Set := {
  extension : string;
  pillow_format : string;
  quality : option Z
}.

Definition FORMATS : list (string * format_info) :=
  [ ("JPG", {| extension := ".jpg"; pillow_format := "JPEG"; quality := Some 95 |});
    ("PNG", {| extension := ".png"; pillow_format := "PNG"; quality := None |});
    ("TIFF", {| extension := ".tiff"; pillow_format := "TIFF"; quality := None |});
    ("WebP", {| extension := ".webp"; pillow_format := "WEBP"; quality := Some 95 |});
    ("BMP", {| extension := ".bmp"; pillow_format := "BMP"; quality := None |}) ]%string.

(** [FORMATS.get(format_name)] *)
Definition get (format_name : string) : option format_info :=
  option_map snd (find (fun entry => String.eqb (fst entry) format_name) FORMATS).

(** [ImageFormats.get_extension] *)
Definition get_extension (format_name : string) : string :=
  match get format_name with
  | Some info => extension info
  | None => ".png"%string
  end.

Section Save.

(** A PIL image. *)
Variable Image : Type.

(** The path with the extension of the format put in place where it
    differs: [pathlib]'s [suffix] and [with_suffix]. *)
Variable with_extension : string -> string -> string.

(** [image.convert('RGB')] where the mode is RGBA. *)
Variable drop_alpha : Image -> Image.

(** [image.save(filepath, pillow_format, **options)]: did it return
    without an exception?  Of the options the quality is passed along. *)
Variable save : Image -> string -> string -> option Z -> bool.

(** [ImageFormats.save_image] *)
Definition save_image (image : Image) (filepath : string) (format_name : string)
  (requested : option Z) : bool :=
  match get format_name with
  | None => false
  | Some info =>
      let filepath := with_extension filepath (extension info) in
      let lossy := existsb (String.eqb format_name) ["JPG"; "WebP"]%string in
      let options :=
        match requested with
        | Some q => if lossy then Some (Z.max 1 (Z.min 100 q)) else quality info
        | None => quality info
        end in
      let image :=
        if existsb (String.eqb format_name) ["JPG"; "BMP"]%string
        then drop_alpha image else image in
      save image filepath (pillow_format info) options
  end.

End Save.

End ImageFormats.

(** ** Sample inputs

    Concrete arguments on which the functions above are run. *)

Module Samples.

(** One frontal box in a 320 x 240 frame, fast mode. *)
Definition face_score : float :=
  value_or nan
    (FaceDetectorMethods.calculate_face_score (FaceDetector.__init__ true)
       320 240 [(100, 60, 80, 80)] [] true (fun _ => 2)).

(** The files of a folder: a video OpenCV opens, with the metadata of
    [Fixture.info] and the tag [avc1]; a video it does not open; a text
    file. *)
Definition files : VideoFiles := {|
  path_exists := fun p =>
    existsb (String.eqb p) ["talk.mp4"; "broken.mp4"; "notes.txt"]%string;
  suffix_lower := fun p =>
    if existsb (String.eqb p) ["talk.mp4"; "broken.mp4"]%string
    then ".mp4"%string else ".txt"%string;
  isOpened := fun p => String.eqb p "talk.mp4";
  cap_get := fun _ prop =>
    match prop with
    | CAP_PROP_FRAME_WIDTH => 1280%float
    | CAP_PROP_FRAME_HEIGHT => 720%float
    | CAP_PROP_FPS => 1%float
    | CAP_PROP_FRAME_COUNT => 400%float
    | CAP_PROP_FOURCC => 828601953%float
    end
|}.

(** Four frames handed to [find_best_frames]; on the synthetic video a
    frame is its index. *)
Definition frames : list (Z * @Frame Fixture.cv2) :=
  [(10, 10); (20, 20); (40, 40); (45, 45)].

(** Their ranking under the default weights, and the second of it. *)
Definition ranked : list FrameScorerMethods.scored :=
  FrameScorerMethods.ranked Fixture.default_scorer frames.

Definition no_scores : FrameScorer.ScoreDetails :=
  {| FrameScorer.face_score := 0; FrameScorer.sharpness := 0;
     FrameScorer.stability := 0; FrameScorer.total_score := 0 |}.


(** The sampled positions of the synthetic video, and its candidates
    ranked by score. *)
Definition positions : list Z :=
  value_or []
    (VideoAnalyzer._calculate_sample_positions 400 (Some Fixture.info) 400
       (Z2F 5)).

Definition ranked_candidates : list (@VideoAnalyzer.scored Fixture.cv2) :=
  VideoAnalyzer.sort_by_score_desc
    (VideoAnalyzer.score_candidates Fixture.loaded
       (VideoAnalyzer.prefilter Fixture.loaded positions)).

(** The candidate ranked third: frame 20. *)
Definition third : @VideoAnalyzer.scored Fixture.cv2 :=
  nth 2 ranked_candidates (0, 0%float, no_scores, 0).

(** What the parallel analysis selects with four workers finishing in
    the order 2, 0, 3, 1. *)
Definition parallel_selection : list (@VideoAnalyzer.SelectedFrame Fixture.cv2) :=
  value_or [] (VideoAnalyzer.analyze_video_parallel 400 Fixture.loaded 3 4
                 [2; 0; 3; 1]%nat).

(** A callback that raises on its fourth call. *)
Definition cancel_fourth (k : nat) (current total : Z) : bool := Nat.eqb k 3.

(** The export folder, and a disk that takes every file. *)
Definition joinpath (name : string) : string := ("out/" ++ name)%string.

Definition save_image (image : @Frame Fixture.cv2) (filepath : string) : bool :=
  true.

Definition exported : list string :=
  value_or []
    (@ScreenshotExporter.export_frames Fixture.cv2 joinpath save_image
       Fixture.selection "screenshot" ".png").

(** A new analyzer. *)
Definition fresh : @VideoAnalyzer.t Fixture.cv2 :=
  {| VideoAnalyzer.video_path := None; VideoAnalyzer.video_capture := None;
     VideoAnalyzer.video_info := None;
     VideoAnalyzer.frame_scorer := Fixture.default_scorer |}.

End Samples.

(** * Properties *)

(** ** Outcomes *)

Lemma bind_Return_inv {A B : Type} (c : outcome A) (k : A -> outcome B) (b : B) :
  bind c k = Return b -> exists a, c = Return a /\ k a = Return b.
Proof.
  destruct c as [a | e | ]; simpl; intros Hk; try discriminate.
  exists a; split; [reflexivity | exact Hk].
Qed.

Lemma returns_value {A : Type} (default : A) (c : outcome A) :
  returns c = true -> c = Return (value_or default c).
Proof. destruct c; simpl; intros E; [reflexivity | discriminate | discriminate]. Qed.

Ltac bind_inv H :=
  let a := fresh "v" in
  let Ha := fresh "E" in
  apply bind_Return_inv in H; destruct H as (a & Ha & H).

Lemma mapM_Return_inv {A B : Type} (f : A -> outcome B) (l : list A) (r : list B) :
  mapM f l = Return r -> Forall2 (fun x y => f x = Return y) l r.
Proof.
  revert r; induction l as [ | x t IH]; simpl; intros r Hr.
  - injection Hr as <-. constructor.
  - bind_inv Hr. bind_inv Hr. injection Hr as <-.
    constructor; [assumption | apply IH; assumption].
Qed.

Lemma Forall2_in_r_exists {A B : Type} (Q : A -> B -> Prop) (l : list A)
  (r : list B) :
  Forall2 Q l r -> forall y, In y r -> exists x, In x l /\ Q x y.
Proof.
  induction 1 as [ | a b l r Hab _ IH]; intros y Hy; [destruct Hy | ].
  destruct Hy as [<- | Hy].
  - exists a. split; [left; reflexivity | exact Hab].
  - destruct (IH y Hy) as (x & Hx & Hxy). exists x. split; [right | ]; assumption.
Qed.

(** ** The order of binary64 values

    The primitive comparisons are specified by [SFcompare]; on that
    specification [<] is a strict order, and excludes [>=]. *)

Ltac cmp_cases :=
  change (PosDef.Pos.compare_cont Eq) with Pos.compare in *;
  repeat match goal with
  | |- context [Z.compare ?a ?b] => destruct (Z.compare_spec a b)
  | H : context [Z.compare ?a ?b] |- _ => destruct (Z.compare_spec a b)
  | |- context [Pos.compare ?a ?b] => destruct (Pos.compare_spec a b)
  | H : context [Pos.compare ?a ?b] |- _ => destruct (Pos.compare_spec a b)
  end;
  simpl in *; try discriminate; try reflexivity; try lia.

Ltac sf_cases :=
  repeat match goal with s : bool |- _ => destruct s end;
  simpl; try discriminate; try reflexivity; intros; cmp_cases.

Lemma SFltb_trans (x y z : spec_float) :
  SFltb x y = true -> SFltb y z = true -> SFltb x z = true.
Proof.
  unfold SFltb, SFcompare.
  destruct x as [sx|sx| |sx mx ex], y as [sy|sy| |sy my ey],
           z as [sz|sz| |sz mz ez]; sf_cases.
Qed.

Lemma SFltb_asym (x y : spec_float) : SFltb x y = true -> SFltb y x = false.
Proof.
  unfold SFltb, SFcompare.
  destruct x as [sx|sx| |sx mx ex], y as [sy|sy| |sy my ey]; sf_cases.
Qed.

Lemma SFltb_not_leb (x y : spec_float) : SFltb x y = true -> SFleb y x = false.
Proof.
  unfold SFltb, SFleb, SFcompare.
  destruct x as [sx|sx| |sx mx ex], y as [sy|sy| |sy my ey]; sf_cases.
Qed.

Lemma float_ltb_trans (x y z : float) :
  (x <? y)%float = true -> (y <? z)%float = true -> (x <? z)%float = true.
Proof. rewrite !ltb_spec. apply SFltb_trans. Qed.

Lemma float_ltb_asym (x y : float) :
  (x <? y)%float = true -> (y <? x)%float = false.
Proof. rewrite !ltb_spec. apply SFltb_asym. Qed.

Lemma float_ltb_not_leb (x y : float) :
  (x <? y)%float = true -> (y <=? x)%float = false.
Proof. rewrite ltb_spec, leb_spec. apply SFltb_not_leb. Qed.

(** ** Timestamp formatting *)

Lemma format_02d_two_digits (n : Z) :
  0 <= n < 100 -> String.length (format_02d n) = 2%nat.
Proof.
  intros Hn.
  assert (Hall : forallb (fun k => Nat.eqb (String.length (format_02d (Z.of_nat k))) 2)
                         (seq 0 100) = true) by (vm_compute; reflexivity).
  rewrite forallb_forall in Hall.
  specialize (Hall (Z.to_nat n)).
  rewrite Z2Nat.id in Hall by lia.
  apply Nat.eqb_eq, Hall, in_seq. lia.
Qed.

Lemma string_length_append (s1 s2 : string) :
  String.length (s1 ++ s2) = (String.length s1 + String.length s2)%nat.
Proof. induction s1 as [ | c s1 IH]; simpl; [ | rewrite IH]; reflexivity. Qed.

(** C8.  [format_timestamp] renders 125.34 as 02:05.34, 3725.0 as
    01:02:05.00 and 5.0 as 00:05.00; whenever it returns, the string is
    HH:MM:SS.cc if the hour count is positive and MM:SS.cc otherwise, each
    field being the [02d] rendering of the integer the source computes for
    it: two digits for a field below 100, hence 8 characters, or 11 with
    the hours. *)
Theorem format_timestamp_renders :
  VideoAnalyzer.format_timestamp 125.34 = Return "02:05.34"%string /\
  VideoAnalyzer.format_timestamp 3725 = Return "01:02:05.00"%string /\
  VideoAnalyzer.format_timestamp 5 = Return "00:05.00"%string /\
  forall (seconds : float) (s : string),
    VideoAnalyzer.format_timestamp seconds = Return s ->
    exists hours minutes secs ms : Z,
      (q <- floordiv seconds 3600 ;; int q) = Return hours /\
      (r <- mod_ seconds 3600 ;; q <- floordiv r 60 ;; int q) = Return minutes /\
      (r <- mod_ seconds 60 ;; int r) = Return secs /\
      (r <- mod_ seconds 1 ;; int (r * 100)%float) = Return ms /\
      s = (if 0 <? hours
           then (format_02d hours ++ ":" ++ format_02d minutes ++ ":" ++
                 format_02d secs ++ "." ++ format_02d ms)%string
           else (format_02d minutes ++ ":" ++ format_02d secs ++ "." ++
                 format_02d ms)%string) /\
      (0 <= minutes < 100 -> 0 <= secs < 100 -> 0 <= ms < 100 ->
       (hours <= 0 -> String.length s = 8%nat) /\
       (0 < hours < 100 -> String.length s = 11%nat)).
Proof.
  split; [vm_compute; reflexivity | ].
  split; [vm_compute; reflexivity | ].
  split; [vm_compute; reflexivity | ].
  intros seconds s Hs. unfold VideoAnalyzer.format_timestamp in Hs.
  apply bind_Return_inv in Hs; destruct Hs as (hours & Hh & Hs).
  apply bind_Return_inv in Hs; destruct Hs as (minutes & Hm & Hs).
  apply bind_Return_inv in Hs; destruct Hs as (secs & Hsec & Hs).
  apply bind_Return_inv in Hs; destruct Hs as (ms & Hms & Hs).
  exists hours, minutes, secs, ms.
  repeat (split; [assumption | ]).
  destruct (0 <? hours) eqn:Hpos; injection Hs as <-;
    (split; [reflexivity | ]); intros Rmin Rsec Rcs;
    repeat first [rewrite string_length_append
                 | progress cbn [append String.length]];
    rewrite (format_02d_two_digits minutes Rmin),
      (format_02d_two_digits secs Rsec), (format_02d_two_digits ms Rcs);
    (split; intros Rh).
  - apply Z.ltb_lt in Hpos. lia.
  - rewrite (format_02d_two_digits hours) by lia. reflexivity.
  - reflexivity.
  - apply Z.ltb_ge in Hpos. lia.
Qed.

(** ** Duration tiers *)

Lemma first_config_first_match (d : float) (items : list (float * (Z * Z)))
  (i : nat) (bound : float) (config : Z * Z) :
  nth_error items i = Some (bound, config) ->
  (d <=? bound)%float = true ->
  (forall j b c, (j < i)%nat -> nth_error items j = Some (b, c) ->
                 (d <=? b)%float = false) ->
  VideoAnalyzer.first_config d items = Some config.
Proof.
  revert i; induction items as [ | [b0 [t0 m0]] rest IH]; intros i Hi Hle Hlt.
  - destruct i; discriminate.
  - destruct i as [ | i]; simpl in *.
    + injection Hi as -> <-. rewrite Hle. reflexivity.
    + rewrite (Hlt 0%nat b0 (t0, m0)) by (try lia; reflexivity).
      apply (IH i Hi Hle). intros j b c Hj Hnth.
      apply (Hlt (S j) b c); [lia | exact Hnth].
Qed.

(** C5.  The lookup returns the configuration of the first table entry
    whose bound the duration does not exceed; durations of 200 s, 10000 s
    and 20000 s get (500, 2), (250, 30) and (200, 60). *)
Theorem sampling_config_first_bound :
  (forall (info : VideoAnalyzer.VideoInfo) (i : nat) (bound : float)
          (config : Z * Z),
      nth_error VideoAnalyzer.SAMPLING_CONFIG i = Some (bound, config) ->
      (VideoAnalyzer.duration info <=? bound)%float = true ->
      (forall j b c, (j < i)%nat ->
                     nth_error VideoAnalyzer.SAMPLING_CONFIG j = Some (b, c) ->
                     (VideoAnalyzer.duration info <=? b)%float = false) ->
      VideoAnalyzer._get_sampling_config (Some info) = config) /\
  (forall info, VideoAnalyzer.duration info = 200%float ->
                VideoAnalyzer._get_sampling_config (Some info) = (500, 2)) /\
  (forall info, VideoAnalyzer.duration info = 10000%float ->
                VideoAnalyzer._get_sampling_config (Some info) = (250, 30)) /\
  (forall info, VideoAnalyzer.duration info = 20000%float ->
                VideoAnalyzer._get_sampling_config (Some info) = (200, 60)).
Proof.
  split; [ | repeat split; intros info Hd;
             unfold VideoAnalyzer._get_sampling_config; rewrite Hd;
             vm_compute; reflexivity].
  intros info i bound config Hi Hle Hlt.
  unfold VideoAnalyzer._get_sampling_config.
  rewrite (first_config_first_match _ _ i bound config Hi Hle Hlt).
  reflexivity.
Qed.

(** The first clause of [sampling_config_first_bound] at a 45-minute
    video: the third tier applies. *)
Lemma sampling_config_first_bound_witness :
  VideoAnalyzer._get_sampling_config
    (Some {| VideoAnalyzer.path := "talk.mp4"; VideoAnalyzer.width := 1920;
             VideoAnalyzer.height := 1080; VideoAnalyzer.fps := 25;
             VideoAnalyzer.frame_count := 67500;
             VideoAnalyzer.duration := 2700; VideoAnalyzer.codec := "avc1" |})
  = (300, 15).
Proof.
  apply (proj1 sampling_config_first_bound _ 2%nat 7200%float (300, 15)).
  - reflexivity.
  - vm_compute; reflexivity.
  - intros j b c Hj Hnth.
    destruct j as [ | [ | j]]; try lia;
      simpl in Hnth; injection Hnth as <- <-; vm_compute; reflexivity.
Defined.

(** ** Weight normalisation *)






(** ** Merging of detection boxes *)

Lemma is_overlapping_true (p : FaceDetector.rect) (l : list FaceDetector.rect)
  (t : float) :
  FaceDetector._is_overlapping p l t = Return true ->
  exists r, In r l /\ FaceDetector.overlaps t p r = Return true.
Proof.
  induction l as [ | r rest IH]; simpl; intros Hl; [discriminate | ].
  apply bind_Return_inv in Hl. destruct Hl as ([ | ] & Hhit & Hl).
  - exists r. split; [left; reflexivity | exact Hhit].
  - destruct (IH Hl) as (r' & Hin & Hr'). exists r'. split; [right | ]; assumption.
Qed.

Lemma is_overlapping_false (p : FaceDetector.rect) (l : list FaceDetector.rect)
  (t : float) :
  FaceDetector._is_overlapping p l t = Return false ->
  forall r, In r l -> FaceDetector.overlaps t p r = Return false.
Proof.
  induction l as [ | r rest IH]; simpl; intros Hl r' Hin; [contradiction | ].
  apply bind_Return_inv in Hl. destruct Hl as ([ | ] & Hhit & Hl); [discriminate | ].
  destruct Hin as [<- | Hin]; [exact Hhit | apply IH; assumption].
Qed.

Lemma add_profiles_spec (scale : float) (profiles acc out : list FaceDetector.rect) :
  FaceDetector.add_profiles scale profiles acc = Return out ->
  exists kept,
    out = acc ++ kept /\
    (forall pre p post, kept = pre ++ p :: post ->
       forall r, In r (acc ++ pre) -> FaceDetector.overlaps 0.5 p r = Return false) /\
    (forall p, In p profiles ->
       exists sp, FaceDetector.scale_back scale p = Return sp /\
         (In sp kept \/
          exists r, In r out /\ FaceDetector.overlaps 0.5 sp r = Return true)).
Proof.
  revert acc; induction profiles as [ | p rest IH]; simpl; intros acc Hout.
  - injection Hout as <-. exists []. rewrite app_nil_r.
    split; [reflexivity | ]. split.
    + intros [ | ? ?] ? ? E; discriminate.
    + intros ? [].
  - apply bind_Return_inv in Hout. destruct Hout as (sp & Hsp & Hout).
    apply bind_Return_inv in Hout. destruct Hout as ([ | ] & Hhit & Hout).
    + destruct (IH _ Hout) as (kept & -> & Hkept & Hall).
      exists kept. split; [reflexivity | ]. split; [exact Hkept | ].
      intros q [<- | Hq]; [ | apply Hall; exact Hq].
      exists sp. split; [exact Hsp | right].
      destruct (is_overlapping_true _ _ _ Hhit) as (r & Hr & Hov).
      exists r. split; [apply in_or_app; left; exact Hr | exact Hov].
    + destruct (IH _ Hout) as (kept & -> & Hkept & Hall).
      exists (sp :: kept). split; [rewrite <- app_assoc; reflexivity | ]. split.
      * intros [ | x pre] q post E r Hr; simpl in E; injection E as -> E.
        -- rewrite app_nil_r in Hr. exact (is_overlapping_false _ _ _ Hhit r Hr).
        -- apply (Hkept pre q post E r).
           rewrite <- app_assoc. exact Hr.
      * intros q [<- | Hq].
        -- exists sp. split; [exact Hsp | left; left; reflexivity].
        -- destruct (Hall q Hq) as (sq & Hsq & [Hin | (r & Hr & Hov)]).
           ++ exists sq. split; [exact Hsq | left; right; exact Hin].
           ++ exists sq. split; [exact Hsq | right]. exists r.
              split; [ | exact Hov]. exact Hr.
Qed.

(** C6, as stated, fails: two frontal boxes overlapping by more than 0.5
    (here 0.78) are both retained, in full mode and in fast mode. *)
Lemma overlapping_frontal_boxes_both_retained :
  FaceDetector.overlaps 0.5 (105, 105, 80, 80) (100, 100, 80, 80) = Return true /\
  FaceDetector.detect_faces (FaceDetector.__init__ false) 640
    [(100, 100, 80, 80); (105, 105, 80, 80)] []
  = Return [(100, 100, 80, 80); (105, 105, 80, 80)] /\
  FaceDetector.detect_faces (FaceDetector.__init__ true) 320
    [(100, 100, 80, 80); (105, 105, 80, 80)] []
  = Return [(100, 100, 80, 80); (105, 105, 80, 80)].
Proof. repeat split; vm_compute; reflexivity. Qed.

Lemma add_profiles_app (scale : float)
  (before rest acc : list FaceDetector.rect) :
  FaceDetector.add_profiles scale (before ++ rest) acc
  = (retained <- FaceDetector.add_profiles scale before acc ;;
     FaceDetector.add_profiles scale rest retained)%py.
Proof.
  revert acc; induction before as [ | p before IH]; intros acc; [reflexivity | ].
  cbn [app FaceDetector.add_profiles].
  destruct (FaceDetector.scale_back scale p) as [sp | e | ];
    [cbn [bind] | reflexivity | reflexivity].
  destruct (FaceDetector._is_overlapping sp acc 0.5) as [[ | ] | e | ];
    [cbn [bind]; apply IH | cbn [bind]; apply IH | reflexivity | reflexivity].
Qed.

(** What the profile loop appends are scaled profile boxes. *)
Lemma add_profiles_from (scale : float)
  (profiles acc out : list FaceDetector.rect) :
  FaceDetector.add_profiles scale profiles acc = Return out ->
  exists later,
    out = acc ++ later /\
    forall k, In k later ->
      exists q, In q profiles /\ FaceDetector.scale_back scale q = Return k.
Proof.
  revert acc; induction profiles as [ | p rest IH]; simpl; intros acc Hout.
  - injection Hout as <-. exists []. rewrite app_nil_r.
    split; [reflexivity | intros k []].
  - apply bind_Return_inv in Hout. destruct Hout as (sp & Hsp & Hout).
    apply bind_Return_inv in Hout. destruct Hout as ([ | ] & Hhit & Hout).
    + destruct (IH _ Hout) as (later & -> & Hlater).
      exists later. split; [reflexivity | ].
      intros k Hk. destruct (Hlater k Hk) as (q & Hq & Hqk).
      exists q. split; [right; exact Hq | exact Hqk].
    + destruct (IH _ Hout) as (later & -> & Hlater).
      exists (sp :: later). split; [rewrite <- app_assoc; reflexivity | ].
      intros k [<- | Hk].
      * exists p. split; [left; reflexivity | exact Hsp].
      * destruct (Hlater k Hk) as (q & Hq & Hqk).
        exists q. split; [right; exact Hq | exact Hqk].
Qed.

(** C6, amended.  [detect_faces] returns every frontal box, scaled back,
    followed by the retained profile boxes, which are scaled profile
    boxes.  In fast mode no profile box is considered.  In full mode the
    profile boxes are taken in order.  When the turn of a profile box
    comes, the boxes retained so far are what [detect_faces] returns for
    the frontal boxes and the profile boxes before it.  If the box
    overlaps one of them by more than 0.5 it is dropped, and that earlier
    box stays: the result is the boxes retained so far followed by boxes
    that come from the later profiles.  Otherwise, its overlap with every
    box retained so far being at most 0.5, it is retained right behind
    them.  Hence a retained profile box overlaps no box retained before
    it by more than 0.5. *)
Theorem detect_faces_merges_profiles
  (self : FaceDetector.t) (frame_width : Z)
  (faces profiles out : list FaceDetector.rect) :
  FaceDetector.detect_faces self frame_width faces profiles = Return out ->
  exists (scale : float) (all_faces kept : list FaceDetector.rect),
    FaceDetector._prepare_frame_scale self frame_width = Return scale /\
    mapM (FaceDetector.scale_back scale) faces = Return all_faces /\
    out = all_faces ++ kept /\
    (FaceDetector.fast_mode self = true -> kept = []) /\
    (forall k, In k kept ->
       exists p, In p profiles /\ FaceDetector.scale_back scale p = Return k) /\
    (forall pre p post, kept = pre ++ p :: post ->
       forall r, In r (all_faces ++ pre) ->
                 FaceDetector.overlaps 0.5 p r = Return false) /\
    (FaceDetector.fast_mode self = false ->
     forall before p after, profiles = before ++ p :: after ->
       exists (retained : list FaceDetector.rect) (sp : FaceDetector.rect)
              (later : list FaceDetector.rect),
         FaceDetector.detect_faces self frame_width faces before = Return retained /\
         FaceDetector.scale_back scale p = Return sp /\
         (forall k, In k later ->
            exists q, In q after /\ FaceDetector.scale_back scale q = Return k) /\
         ((exists r, In r retained /\
                     FaceDetector.overlaps 0.5 sp r = Return true) /\
          out = retained ++ later
          \/
          (forall r, In r retained ->
                     FaceDetector.overlaps 0.5 sp r = Return false) /\
          out = retained ++ sp :: later)).
Proof.
  intros Hout. unfold FaceDetector.detect_faces in Hout.
  apply bind_Return_inv in Hout. destruct Hout as (scale & Hscale & Hout).
  apply bind_Return_inv in Hout. destruct Hout as (all_faces & Hfaces & Hout).
  destruct (FaceDetector.fast_mode self) eqn:Hmode.
  - injection Hout as <-. exists scale, all_faces, [].
    rewrite app_nil_r.
    split; [exact Hscale | ]. split; [exact Hfaces | ].
    split; [reflexivity | ]. split; [reflexivity | ].
    split; [intros k [] | ].
    split; [ | discriminate].
    intros [ | ? ?] ? ? E; discriminate.
  - destruct (add_profiles_spec _ _ _ _ Hout) as (kept & Ekept & Hkept & _).
    destruct (add_profiles_from _ _ _ _ Hout) as (kept' & Ekept' & Hfrom).
    assert (kept' = kept) by (apply (app_inv_head all_faces); congruence).
    subst kept' out.
    exists scale, all_faces, kept.
    split; [exact Hscale | ]. split; [exact Hfaces | ].
    split; [reflexivity | ]. split; [discriminate | ].
    split; [exact Hfrom | ]. split; [exact Hkept | ].
    intros _ before p after ->.
    rewrite add_profiles_app in Hout.
    apply bind_Return_inv in Hout. destruct Hout as (retained & Hbefore & Hout).
    cbn [FaceDetector.add_profiles] in Hout.
    apply bind_Return_inv in Hout. destruct Hout as (sp & Hsp & Hout).
    apply bind_Return_inv in Hout. destruct Hout as (hit & Hhit & Hout).
    assert (Hprefix : FaceDetector.detect_faces self frame_width faces before
                      = Return retained).
    { unfold FaceDetector.detect_faces.
      rewrite Hscale. cbn [bind]. rewrite Hfaces. cbn [bind].
      rewrite Hmode. exact Hbefore. }
    destruct hit.
    + destruct (add_profiles_from _ _ _ _ Hout) as (later & Elater & Hlater).
      exists retained, sp, later.
      split; [exact Hprefix | ]. split; [exact Hsp | ].
      split; [exact Hlater | ]. left.
      split; [exact (is_overlapping_true _ _ _ Hhit) | exact Elater].
    + destruct (add_profiles_from _ _ _ _ Hout) as (later & Elater & Hlater).
      exists retained, sp, later.
      split; [exact Hprefix | ]. split; [exact Hsp | ].
      split; [exact Hlater | ]. right.
      split; [exact (is_overlapping_false _ _ _ Hhit) | ].
      rewrite Elater, <- app_assoc. reflexivity.
Qed.

(** [detect_faces_merges_profiles] on a 640-pixel frame in full mode: one
    frontal box, one profile box on top of it, which is dropped, and one
    profile box apart, which is retained. *)
Lemma detect_faces_merges_profiles_witness :
  exists (scale : float) (all_faces kept : list FaceDetector.rect),
    FaceDetector._prepare_frame_scale (FaceDetector.__init__ false) 640 = Return scale /\
    mapM (FaceDetector.scale_back scale) [(100, 100, 80, 80)] = Return all_faces /\
    [(100, 100, 80, 80); (300, 100, 80, 80)] = all_faces ++ kept /\
    (FaceDetector.fast_mode (FaceDetector.__init__ false) = true -> kept = []) /\
    (forall k, In k kept ->
       exists p, In p [(102, 102, 80, 80); (300, 100, 80, 80)] /\ FaceDetector.scale_back scale p = Return k) /\
    (forall pre p post, kept = pre ++ p :: post ->
       forall r, In r (all_faces ++ pre) ->
                 FaceDetector.overlaps 0.5 p r = Return false) /\
    (FaceDetector.fast_mode (FaceDetector.__init__ false) = false ->
     forall before p after, [(102, 102, 80, 80); (300, 100, 80, 80)] = before ++ p :: after ->
       exists (retained : list FaceDetector.rect) (sp : FaceDetector.rect)
              (later : list FaceDetector.rect),
         FaceDetector.detect_faces (FaceDetector.__init__ false) 640 [(100, 100, 80, 80)] before = Return retained /\
         FaceDetector.scale_back scale p = Return sp /\
         (forall k, In k later ->
            exists q, In q after /\ FaceDetector.scale_back scale q = Return k) /\
         ((exists r, In r retained /\
                     FaceDetector.overlaps 0.5 sp r = Return true) /\
          [(100, 100, 80, 80); (300, 100, 80, 80)] = retained ++ later
          \/
          (forall r, In r retained ->
                     FaceDetector.overlaps 0.5 sp r = Return false) /\
          [(100, 100, 80, 80); (300, 100, 80, 80)] = retained ++ sp :: later)).
Proof.
  apply (detect_faces_merges_profiles (FaceDetector.__init__ false) 640
           [(100, 100, 80, 80)] [(102, 102, 80, 80); (300, 100, 80, 80)]).
  vm_compute. reflexivity.
Defined.

(** ** The sampling planner *)

Section Planner.

Variables (fps : float) (total_frames interval skip : Z).
Hypothesis Hskip : int (fps * 5)%float = Return skip.

Local Abbreviation loop fuel := (VideoAnalyzer.sample_loop fuel fps total_frames interval).

Lemma sample_loop_unfold (fuel : nat) (pos : Z) (acc : list Z) :
  loop (S fuel) pos acc =
  if pos <? total_frames - skip
  then loop fuel (pos + interval) (acc ++ [pos])
  else Return acc.
Proof. simpl. rewrite Hskip. reflexivity. Qed.

(** What the loop returns: an arithmetic progression appended to the
    accumulator, every term before the bound, and the next term at or
    beyond it. *)
Lemma sample_loop_returns (fuel : nat) :
  forall (pos : Z) (acc l : list Z),
    loop fuel pos acc = Return l ->
    exists n : nat,
      l = acc ++ map (fun k => pos + Z.of_nat k * interval) (seq 0 n) /\
      (forall k, (k < n)%nat -> pos + Z.of_nat k * interval < total_frames - skip) /\
      total_frames - skip <= pos + Z.of_nat n * interval.
Proof.
  induction fuel as [ | fuel IH]; intros pos acc l Hl; [discriminate | ].
  rewrite sample_loop_unfold in Hl.
  destruct (pos <? total_frames - skip) eqn:Hlt.
  - apply Z.ltb_lt in Hlt.
    destruct (IH _ _ _ Hl) as (n & -> & Hbelow & Hbeyond).
    exists (S n). split; [ | split].
    + rewrite <- app_assoc. f_equal. cbn [seq map app].
      f_equal; [lia | ].
      rewrite <- seq_shift, map_map. apply map_ext. intros k. lia.
    + intros [ | k] Hk; [lia | ].
      specialize (Hbelow k ltac:(lia)). lia.
    + lia.
  - apply Z.ltb_ge in Hlt. injection Hl as <-.
    exists 0%nat. rewrite app_nil_r.
    split; [reflexivity | ]. split; [intros k Hk; lia | lia].
Qed.

(** A step of at least one frame lets the loop finish: any fuel beyond the
    distance to the bound is enough. *)
Lemma sample_loop_terminates (fuel : nat) :
  1 <= interval ->
  forall (pos : Z) (acc : list Z),
    (Z.to_nat (total_frames - skip - pos) < fuel)%nat ->
    exists l, loop fuel pos acc = Return l.
Proof.
  intros Hstep. induction fuel as [ | fuel IH]; intros pos acc Hfuel; [lia | ].
  rewrite sample_loop_unfold.
  destruct (pos <? total_frames - skip) eqn:Hlt.
  - apply Z.ltb_lt in Hlt. apply IH. lia.
  - eexists; reflexivity.
Qed.

(** A step of zero frames, or a negative one, never leaves a range it has
    entered. *)
Lemma sample_loop_stuck (fuel : nat) :
  interval <= 0 ->
  forall (pos : Z) (acc : list Z),
    pos < total_frames - skip ->
    loop fuel pos acc = OutOfFuel.
Proof.
  intros Hstep. induction fuel as [ | fuel IH]; intros pos acc Hpos; [reflexivity | ].
  rewrite sample_loop_unfold.
  destruct (pos <? total_frames - skip) eqn:Hlt.
  - apply IH. lia.
  - apply Z.ltb_ge in Hlt. lia.
Qed.

(** The number of rounds is determined by the bound, whatever the fuel. *)
Lemma sample_loop_deterministic (fuel1 fuel2 : nat) (pos : Z) (acc l1 l2 : list Z) :
  loop fuel1 pos acc = Return l1 ->
  loop fuel2 pos acc = Return l2 ->
  l1 = l2.
Proof.
  intros H1 H2.
  destruct (sample_loop_returns _ _ _ _ H1) as (n1 & -> & Hb1 & He1).
  destruct (sample_loop_returns _ _ _ _ H2) as (n2 & -> & Hb2 & He2).
  assert (n1 = n2) as ->; [ | reflexivity].
  destruct (Nat.lt_trichotomy n1 n2) as [Hlt | [Heq | Hgt]]; [ | exact Heq | ].
  - specialize (Hb2 n1 Hlt). lia.
  - specialize (Hb1 n2 Hgt). lia.
Qed.

End Planner.

Lemma progression_nth (start step : Z) (n k : nat) :
  (k < n)%nat ->
  nth_error (map (fun k => start + Z.of_nat k * step) (seq 0 n)) k
  = Some (start + Z.of_nat k * step).
Proof.
  intros Hk. rewrite nth_error_map, nth_error_seq.
  destruct (Nat.ltb_spec k n) as [_ | Hge]; [reflexivity | lia].
Qed.

Lemma progression_sorted (start step : Z) (n a : nat) :
  0 < step ->
  StronglySorted Z.lt (map (fun k => start + Z.of_nat k * step) (seq a n)).
Proof.
  intros Hstep. revert a; induction n as [ | n IH]; intros a; simpl.
  - constructor.
  - constructor; [apply IH | ].
    apply Forall_forall. intros x Hx.
    apply in_map_iff in Hx. destruct Hx as (k & <- & Hk).
    apply in_seq in Hk. nia.
Qed.

(** What [_calculate_sample_positions] returns, when it returns. *)
Lemma sample_positions_returns (fuel : nat) (info : VideoAnalyzer.VideoInfo)
  (num_samples : Z) (min_interval_sec : float) (positions : list Z) :
  VideoAnalyzer._calculate_sample_positions fuel (Some info) num_samples
    min_interval_sec = Return positions ->
  exists (start min_interval_frames : Z) (n : nat),
    int (VideoAnalyzer.fps info * 5)%float = Return start /\
    int (min_interval_sec * VideoAnalyzer.fps info)%float
      = Return min_interval_frames /\
    num_samples <> 0 /\
    let step := Z.max min_interval_frames
                      (VideoAnalyzer.frame_count info / num_samples) in
    positions = map (fun k => start + Z.of_nat k * step) (seq 0 n) /\
    (forall k, (k < n)%nat ->
               start + Z.of_nat k * step < VideoAnalyzer.frame_count info - start) /\
    VideoAnalyzer.frame_count info - start <= start + Z.of_nat n * step.
Proof.
  unfold VideoAnalyzer._calculate_sample_positions. intros Hret.
  apply bind_Return_inv in Hret. destruct Hret as (mif & Hmif & Hret).
  apply bind_Return_inv in Hret. destruct Hret as (per & Hper & Hret).
  apply bind_Return_inv in Hret. destruct Hret as (start & Hstart & Hret).
  unfold int_floordiv in Hper.
  destruct (num_samples =? 0) eqn:Hns; [discriminate | ].
  injection Hper as <-. apply Z.eqb_neq in Hns.
  destruct (sample_loop_returns _ _ _ _ Hstart _ _ _ _ Hret)
    as (n & Hl & Hbelow & Hbeyond).
  exists start, mif, n.
  split; [exact Hstart | ]. split; [exact Hmif | ]. split; [exact Hns | ].
  cbv zeta. split; [exact Hl | ]. split; assumption.
Qed.

(** C3, the failing input.  A container that reports no frame rate
    ([fps = 0], hence [duration = 0] and the tier (500, 2)) and 100 frames
    gets the step [max(int(2 * 0.0), 100 // 500) = 0]: the loop stays at
    position 0 and returns with no amount of fuel. *)
Lemma planner_stalls_on_zero_step :
  let info :=
    {| VideoAnalyzer.path := "clip.mp4"; VideoAnalyzer.width := 640;
       VideoAnalyzer.height := 360; VideoAnalyzer.fps := 0;
       VideoAnalyzer.frame_count := 100; VideoAnalyzer.duration := 0;
       VideoAnalyzer.codec := "avc1" |} in
  VideoAnalyzer._get_sampling_config (Some info) = (500, 2) /\
  forall fuel : nat,
    VideoAnalyzer._calculate_sample_positions fuel (Some info) 500 (Z2F 2)
    = OutOfFuel.
Proof.
  intros info. split; [vm_compute; reflexivity | ].
  intros fuel. unfold VideoAnalyzer._calculate_sample_positions.
  assert (E0 : int (Z2F 2 * VideoAnalyzer.fps info)%float = Return 0)
    by (vm_compute; reflexivity).
  assert (E1 : int_floordiv (VideoAnalyzer.frame_count info) 500 = Return 0)
    by (vm_compute; reflexivity).
  assert (E2 : int (VideoAnalyzer.fps info * 5)%float = Return 0)
    by (vm_compute; reflexivity).
  rewrite E0, E1, E2. cbn [bind].
  apply (sample_loop_stuck (VideoAnalyzer.fps info) _ _ 0 E2);
    [vm_compute; discriminate | reflexivity].
Qed.

(** C10.  When the step [max(int(min_interval_sec * fps),
    frame_count // num_samples)] is at least 1, the planner returns: with
    any fuel beyond the length of the range it yields one and the same
    list, whose k-th entry is [start + k * step], every entry before
    [frame_count - int(fps * 5)], the counter ending at or beyond it. *)
Theorem sample_positions_terminate
  (info : VideoAnalyzer.VideoInfo) (num_samples : Z) (min_interval_sec : float)
  (min_interval_frames start : Z) :
  int (min_interval_sec * VideoAnalyzer.fps info)%float
    = Return min_interval_frames ->
  num_samples <> 0 ->
  int (VideoAnalyzer.fps info * 5)%float = Return start ->
  1 <= Z.max min_interval_frames (VideoAnalyzer.frame_count info / num_samples) ->
  let step := Z.max min_interval_frames
                    (VideoAnalyzer.frame_count info / num_samples) in
  exists positions : list Z,
    (forall fuel : nat,
        (Z.to_nat (VideoAnalyzer.frame_count info - start - start) < fuel)%nat ->
        VideoAnalyzer._calculate_sample_positions fuel (Some info) num_samples
          min_interval_sec = Return positions) /\
    (forall k, (k < List.length positions)%nat ->
               nth_error positions k = Some (start + Z.of_nat k * step)) /\
    Forall (fun p => p < VideoAnalyzer.frame_count info - start) positions /\
    StronglySorted Z.lt positions /\
    VideoAnalyzer.frame_count info - start
      <= start + Z.of_nat (List.length positions) * step.
Proof.
  intros Hmif Hns Hstart Hstep step.
  set (fuel0 := S (Z.to_nat (VideoAnalyzer.frame_count info - start - start))).
  assert (Hrun : forall fuel, (fuel0 <= fuel)%nat ->
            VideoAnalyzer._calculate_sample_positions fuel (Some info)
              num_samples min_interval_sec
            = VideoAnalyzer.sample_loop fuel (VideoAnalyzer.fps info)
                (VideoAnalyzer.frame_count info) step start []).
  { intros fuel _. unfold VideoAnalyzer._calculate_sample_positions, int_floordiv.
    rewrite Hmif. apply Z.eqb_neq in Hns. rewrite Hns, Hstart. reflexivity. }
  destruct (sample_loop_terminates (VideoAnalyzer.fps info)
              (VideoAnalyzer.frame_count info) step start Hstart fuel0 Hstep
              start [])
    as (positions & Hpos); [unfold fuel0; lia | ].
  destruct (sample_loop_returns _ _ _ _ Hstart _ _ _ _ Hpos)
    as (n & Hl & Hbelow & Hbeyond).
  simpl in Hl. fold step in Hl.
  assert (Hlen : List.length positions = n)
    by (rewrite Hl, length_map, length_seq; reflexivity).
  exists positions. split; [ | split; [ | split; [ | split]]].
  - intros fuel Hfuel. rewrite Hrun by (unfold fuel0; lia).
    destruct (sample_loop_terminates (VideoAnalyzer.fps info)
                (VideoAnalyzer.frame_count info) step start Hstart fuel Hstep
                start [])
      as (l & Hl'); [lia | ].
    rewrite Hl'. f_equal.
    exact (sample_loop_deterministic _ _ _ _ Hstart _ _ _ _ _ _ Hl' Hpos).
  - intros k Hk. rewrite Hl. apply progression_nth. lia.
  - rewrite Hl. apply Forall_forall. intros p Hp.
    apply in_map_iff in Hp. destruct Hp as (k & <- & Hk).
    apply in_seq in Hk. apply Hbelow. lia.
  - rewrite Hl. apply progression_sorted. fold step in Hstep. lia.
  - rewrite Hlen. exact Hbeyond.
Qed.

(** [sample_positions_terminate] on a ten-minute video at 25 frames per
    second, in the second tier (400 samples, at least 5 s apart). *)
Lemma sample_positions_terminate_witness :
  let info :=
    {| VideoAnalyzer.path := "talk.mp4"; VideoAnalyzer.width := 1920;
       VideoAnalyzer.height := 1080; VideoAnalyzer.fps := 25;
       VideoAnalyzer.frame_count := 15000; VideoAnalyzer.duration := 600;
       VideoAnalyzer.codec := "avc1" |} in
  exists positions : list Z,
    (forall fuel : nat,
        (Z.to_nat (15000 - 125 - 125) < fuel)%nat ->
        VideoAnalyzer._calculate_sample_positions fuel (Some info) 400 (Z2F 5)
        = Return positions) /\
    (forall k, (k < List.length positions)%nat ->
               nth_error positions k = Some (125 + Z.of_nat k * Z.max 125 (15000 / 400))) /\
    Forall (fun p => p < 15000 - 125) positions /\
    StronglySorted Z.lt positions /\
    15000 - 125 <= 125 + Z.of_nat (List.length positions) * Z.max 125 (15000 / 400).
Proof.
  intros info.
  apply (sample_positions_terminate info 400 (Z2F 5) 125 125).
  - vm_compute; reflexivity.
  - discriminate.
  - vm_compute; reflexivity.
  - vm_compute; discriminate.
Defined.

(** ** Sorting and ordered pairs *)

Section StableSort.

Context {A : Type} (before : A -> A -> bool).

Lemma insert_by_perm (x : A) (l : list A) :
  Permutation (insert_by before x l) (x :: l).
Proof.
  induction l as [ | y t IH]; simpl; [reflexivity | ].
  destruct (before y x); [ | reflexivity].
  rewrite IH. apply perm_swap.
Qed.

Lemma stable_sort_perm (l : list A) : Permutation (stable_sort before l) l.
Proof.
  induction l as [ | x t IH]; simpl; [reflexivity | ].
  rewrite insert_by_perm. apply perm_skip, IH.
Qed.

Variable R : A -> A -> Prop.
Hypothesis R_trans : forall x y z, R x y -> R y z -> R x z.

Lemma insert_by_sorted (x : A) (l : list A) :
  StronglySorted R l ->
  Forall (ordered_against before R x) l ->
  StronglySorted R (insert_by before x l).
Proof.
  induction l as [ | y t IH]; simpl; intros Hs Hx.
  - repeat constructor.
  - apply StronglySorted_inv in Hs. destruct Hs as (Hst & Hy).
    apply Forall_cons_iff in Hx. destruct Hx as ((Hlt & Hge) & Hxt).
    destruct (before y x) eqn:E.
    + constructor; [apply IH; assumption | ].
      apply Forall_forall. intros z Hz.
      apply (Permutation_in _ (insert_by_perm x t)) in Hz.
      destruct Hz as [<- | Hz]; [apply Hlt; reflexivity | ].
      rewrite Forall_forall in Hy. apply Hy, Hz.
    + constructor; [constructor; assumption | ].
      constructor; [apply Hge; reflexivity | ].
      apply Forall_forall. intros z Hz.
      rewrite Forall_forall in Hy.
      apply R_trans with y; [apply Hge; reflexivity | apply Hy, Hz].
Qed.

Lemma stable_sort_sorted (l : list A) :
  ForallOrdPairs (ordered_against before R) l ->
  StronglySorted R (stable_sort before l).
Proof.
  induction l as [ | x t IH]; simpl; intros Hp; [constructor | ].
  inversion Hp as [ | ? ? Hx Ht]; subst.
  apply insert_by_sorted; [apply IH, Ht | ].
  apply Forall_forall. intros y Hy.
  apply (Permutation_in _ (stable_sort_perm t)) in Hy.
  rewrite Forall_forall in Hx. apply Hx, Hy.
Qed.

End StableSort.

(** A list sorted by an asymmetric relation is the only arrangement of its
    elements that is. *)
Lemma sorted_perm_unique {A : Type} (R : A -> A -> Prop) :
  (forall a b, R a b -> R b a -> False) ->
  forall l1 l2 : list A,
    StronglySorted R l1 -> StronglySorted R l2 -> Permutation l1 l2 -> l1 = l2.
Proof.
  intros Hasym. induction l1 as [ | a t1 IH]; intros l2 H1 H2 Hp.
  - apply Permutation_nil in Hp. symmetry; exact Hp.
  - destruct l2 as [ | b t2];
      [apply Permutation_sym, Permutation_nil in Hp; discriminate | ].
    apply StronglySorted_inv in H1. destruct H1 as (Hs1 & Ha).
    apply StronglySorted_inv in H2. destruct H2 as (Hs2 & Hb).
    rewrite Forall_forall in Ha, Hb.
    assert (Hab : a = b).
    { assert (Hina : In a (b :: t2))
        by (apply (Permutation_in _ Hp); left; reflexivity).
      assert (Hinb : In b (a :: t1))
        by (apply (Permutation_in _ (Permutation_sym Hp)); left; reflexivity).
      destruct Hina as [E | Hina]; [symmetry; exact E | ].
      destruct Hinb as [E | Hinb]; [exact E | ].
      exfalso. apply (Hasym a b); [apply Ha, Hinb | apply Hb, Hina]. }
    subst b. f_equal.
    apply IH; [assumption | assumption | ].
    apply Permutation_cons_inv with a. exact Hp.
Qed.

Lemma ForallOrdPairs_perm {A : Type} (R : A -> A -> Prop) :
  (forall a b, R a b -> R b a) ->
  forall l l' : list A,
    Permutation l l' -> ForallOrdPairs R l -> ForallOrdPairs R l'.
Proof.
  intros Hsym l l' Hp.
  induction Hp as [ | x l l' Hp IH | x y l | l l' l'' _ IH1 _ IH2];
    intros Hl.
  - constructor.
  - inversion Hl as [ | ? ? Hx Ht]; subst.
    constructor; [ | apply IH, Ht].
    apply Forall_forall. intros z Hz. rewrite Forall_forall in Hx.
    apply Hx. apply (Permutation_in _ (Permutation_sym Hp)), Hz.
  - inversion Hl as [ | ? ? Hy Ht]; subst.
    inversion Ht as [ | ? ? Hx Hl']; subst.
    apply Forall_cons_iff in Hy. destruct Hy as (Hyx & Hy).
    constructor; [constructor; [apply Hsym, Hyx | exact Hx] | ].
    constructor; assumption.
  - apply IH2, IH1, Hl.
Qed.

Lemma ForallOrdPairs_snoc {A : Type} (R : A -> A -> Prop) (l : list A) (c : A) :
  ForallOrdPairs R l -> Forall (fun s => R s c) l -> ForallOrdPairs R (l ++ [c]).
Proof.
  induction l as [ | x t IH]; simpl; intros Hl Hc.
  - repeat constructor.
  - inversion Hl as [ | ? ? Hx Ht]; subst.
    apply Forall_cons_iff in Hc. destruct Hc as (Hxc & Hc).
    constructor; [ | apply IH; assumption].
    apply Forall_app. split; [exact Hx | repeat constructor; exact Hxc].
Qed.

Lemma ForallOrdPairs_all {A : Type} (R : A -> A -> Prop) (l : list A) :
  (forall a b, R a b) -> ForallOrdPairs R l.
Proof.
  intros HR. induction l as [ | x t IH]; constructor; [ | exact IH].
  apply Forall_forall. intros; apply HR.
Qed.

Lemma ForallOrdPairs_impl_pairs {A : Type} (R R' : A -> A -> Prop) :
  (forall a b, R a b -> R' a b) ->
  forall l : list A, ForallOrdPairs R l -> ForallOrdPairs R' l.
Proof.
  intros Himp l Hl. induction Hl as [ | x t Hx _ IH]; constructor; [ | exact IH].
  revert Hx. apply Forall_impl. exact (Himp x).
Qed.

Lemma ForallOrdPairs_Forall2 {A B : Type} (Q : A -> B -> Prop)
  (R : A -> A -> Prop) (R' : B -> B -> Prop) :
  (forall a b a' b', Q a a' -> Q b b' -> R a b -> R' a' b') ->
  forall (l : list A) (r : list B),
    Forall2 Q l r -> ForallOrdPairs R l -> ForallOrdPairs R' r.
Proof.
  intros Himp l r HQ.
  induction HQ as [ | a a' l r Ha HQ IH]; intros Hl; [constructor | ].
  inversion Hl as [ | ? ? Hx Ht]; subst.
  constructor; [ | apply IH, Ht].
  clear IH Hl Ht. induction HQ as [ | b b' l r Hb HQ IH]; [constructor | ].
  apply Forall_cons_iff in Hx. destruct Hx as (Hab & Hx).
  constructor; [exact (Himp _ _ _ _ Ha Hb Hab) | apply IH, Hx].
Qed.

(** ** The selection engine *)

Section Selection.

Context `{Cv2}.

Lemma prefilter_In (self : VideoAnalyzer.t) (positions : list Z)
  (c : VideoAnalyzer.candidate) :
  In c (VideoAnalyzer.prefilter self positions) ->
  exists (n : Z) (frame : Frame),
    c = (n, frame, calculate_sharpness_fast frame) /\
    In n positions /\
    VideoAnalyzer.get_frame_at_position self n = Some frame /\
    (0.15 <? calculate_sharpness_fast frame)%float = true.
Proof.
  induction positions as [ | p rest IH]; simpl; [intros [] | ].
  destruct (VideoAnalyzer.get_frame_at_position self p) as [frame | ] eqn:Hf.
  - destruct (0.15 <? calculate_sharpness_fast frame)%float eqn:Hs.
    + intros [<- | Hc].
      * exists p, frame. repeat split; [left; reflexivity | assumption | assumption].
      * destruct (IH Hc) as (n & fr & -> & Hn & Hrest).
        exists n, fr. split; [reflexivity | ]. split; [right; exact Hn | exact Hrest].
    + intros Hc. destruct (IH Hc) as (n & fr & -> & Hn & Hrest).
      exists n, fr. split; [reflexivity | ]. split; [right; exact Hn | exact Hrest].
  - intros Hc. destruct (IH Hc) as (n & fr & -> & Hn & Hrest).
    exists n, fr. split; [reflexivity | ]. split; [right; exact Hn | exact Hrest].
Qed.

Lemma prefilter_all_rejected (self : VideoAnalyzer.t) (positions : list Z) :
  (forall p, In p positions ->
     match VideoAnalyzer.get_frame_at_position self p with
     | None => True
     | Some frame => (0.15 <? calculate_sharpness_fast frame)%float = false
     end) ->
  VideoAnalyzer.prefilter self positions = [].
Proof.
  induction positions as [ | p rest IH]; simpl; intros Hall; [reflexivity | ].
  pose proof (Hall p (or_introl eq_refl)) as Hp.
  destruct (VideoAnalyzer.get_frame_at_position self p) as [frame | ].
  - rewrite Hp. apply IH. intros q Hq. apply Hall. right; exact Hq.
  - apply IH. intros q Hq. apply Hall. right; exact Hq.
Qed.

Lemma score_candidates_In (self : VideoAnalyzer.t)
  (candidates : list VideoAnalyzer.candidate) (s : VideoAnalyzer.scored) :
  In s (VideoAnalyzer.score_candidates self candidates) ->
  exists (n : Z) (frame : Frame) (sharpness : float),
    In (n, frame, sharpness) candidates /\
    VideoAnalyzer.scored_frame_num s = n /\
    VideoAnalyzer.scored_image s = frame.
Proof.
  unfold VideoAnalyzer.score_candidates. intros Hs.
  apply in_map_iff in Hs. destruct Hs as ([[n frame] sh] & <- & Hc).
  exists n, frame, sh. repeat split. exact Hc.
Qed.

(** The spacing between two frames. *)
Local Abbreviation apart_by gap :=
  (fun a b : VideoAnalyzer.scored =>
     gap <= Z.abs (VideoAnalyzer.scored_frame_num a - VideoAnalyzer.scored_frame_num b)).

Lemma too_close_false (gap n : Z) (selected : list VideoAnalyzer.scored) :
  VideoAnalyzer.too_close gap n selected = false ->
  Forall (fun s => gap <= Z.abs (VideoAnalyzer.scored_frame_num s - n)) selected.
Proof.
  induction selected as [ | s rest IH]; simpl; intros Hc; [constructor | ].
  destruct (Z.abs (n - VideoAnalyzer.scored_frame_num s) <? gap) eqn:E;
    [discriminate | ].
  apply Z.ltb_ge in E. constructor; [lia | apply IH, Hc].
Qed.

(** The two interval checks decide alike. *)
Lemma too_close_any_loop (gap n : Z) (selected : list VideoAnalyzer.scored) :
  VideoAnalyzer.too_close_any gap n selected
  = VideoAnalyzer.too_close gap n selected.
Proof.
  unfold VideoAnalyzer.too_close_any.
  induction selected as [ | s rest IH]; simpl; [reflexivity | ].
  rewrite IH. destruct (Z.abs (n - VideoAnalyzer.scored_frame_num s) <? gap);
    reflexivity.
Qed.

Lemma select_ext (check check' : Z -> Z -> list VideoAnalyzer.scored -> bool)
  (num_frames gap : Z) (l selected : list VideoAnalyzer.scored) :
  (forall g n sel, check g n sel = check' g n sel) ->
  VideoAnalyzer.select check num_frames gap l selected
  = VideoAnalyzer.select check' num_frames gap l selected.
Proof.
  intros Hext. revert selected; induction l as [ | c rest IH]; simpl;
    intros selected; [reflexivity | ].
  rewrite Hext, !IH. reflexivity.
Qed.

Lemma select_length (check : Z -> Z -> list VideoAnalyzer.scored -> bool)
  (num_frames gap : Z) (l selected : list VideoAnalyzer.scored) :
  Z.of_nat (List.length selected) <= Z.max 0 num_frames ->
  Z.of_nat (List.length (VideoAnalyzer.select check num_frames gap l selected))
    <= Z.max 0 num_frames.
Proof.
  revert selected; induction l as [ | c rest IH]; simpl; intros selected Hlen;
    [exact Hlen | ].
  destruct (num_frames <=? Z.of_nat (List.length selected)) eqn:E; [exact Hlen | ].
  apply Z.leb_gt in E.
  destruct (check gap (VideoAnalyzer.scored_frame_num c) selected);
    apply IH; [exact Hlen | ].
  rewrite length_app. simpl. lia.
Qed.

Lemma select_spaced (num_frames gap : Z) (l selected : list VideoAnalyzer.scored) :
  ForallOrdPairs (apart_by gap) selected ->
  ForallOrdPairs (apart_by gap)
    (VideoAnalyzer.select VideoAnalyzer.too_close num_frames gap l selected).
Proof.
  revert selected; induction l as [ | c rest IH]; simpl; intros selected Hsel;
    [exact Hsel | ].
  destruct (num_frames <=? Z.of_nat (List.length selected)); [exact Hsel | ].
  destruct (VideoAnalyzer.too_close gap (VideoAnalyzer.scored_frame_num c) selected)
    eqn:E; apply IH; [exact Hsel | ].
  apply ForallOrdPairs_snoc; [exact Hsel | ].
  exact (too_close_false _ _ _ E).
Qed.

Lemma select_incl (check : Z -> Z -> list VideoAnalyzer.scored -> bool)
  (num_frames gap : Z) (l selected : list VideoAnalyzer.scored)
  (c : VideoAnalyzer.scored) :
  In c (VideoAnalyzer.select check num_frames gap l selected) ->
  In c selected \/ In c l.
Proof.
  revert selected; induction l as [ | x rest IH]; simpl; intros selected Hc;
    [left; exact Hc | ].
  destruct (num_frames <=? Z.of_nat (List.length selected)); [left; exact Hc | ].
  destruct (check gap (VideoAnalyzer.scored_frame_num x) selected).
  - destruct (IH _ Hc) as [Hs | Hr]; [left | right; right]; assumption.
  - destruct (IH _ Hc) as [Hs | Hr]; [ | right; right; exact Hr].
    apply in_app_or in Hs. destruct Hs as [Hs | [<- | []]];
      [left; exact Hs | right; left; reflexivity].
Qed.

Lemma sort_by_frame_num_sorted (l : list VideoAnalyzer.scored) :
  StronglySorted Z.le
    (map VideoAnalyzer.scored_frame_num (VideoAnalyzer.sort_by_frame_num l)).
Proof.
  assert (Hs : StronglySorted
                 (fun a b => VideoAnalyzer.scored_frame_num a
                             <= VideoAnalyzer.scored_frame_num b)
                 (VideoAnalyzer.sort_by_frame_num l)).
  { apply stable_sort_sorted; [intros x y z; lia | ].
    apply ForallOrdPairs_all. intros a b. split; intros E.
    - apply Z.ltb_lt in E. lia.
    - apply Z.ltb_ge in E. lia. }
  induction Hs as [ | a t _ IH Ha]; simpl; constructor; [exact IH | ].
  apply Forall_map. exact Ha.
Qed.

Lemma to_selected_frame_inv (info : VideoAnalyzer.VideoInfo)
  (c : VideoAnalyzer.scored) (sf : VideoAnalyzer.SelectedFrame) :
  VideoAnalyzer.to_selected_frame info c = Return sf ->
  VideoAnalyzer.frame_number sf = VideoAnalyzer.scored_frame_num c /\
  VideoAnalyzer.image sf = VideoAnalyzer.scored_image c /\
  VideoAnalyzer.score sf = VideoAnalyzer.scored_total c /\
  VideoAnalyzer.is_manual sf = false.
Proof.
  destruct c as [[[n sc] det] fr]. unfold VideoAnalyzer.to_selected_frame.
  intros Hsf. apply bind_Return_inv in Hsf. destruct Hsf as (ts & _ & Hsf).
  injection Hsf as <-. repeat split.
Qed.

(** What [select_best] returns: the greedy pick over the frames sorted by
    score, re-sorted by frame number and converted one by one. *)
Lemma select_best_inv (check : Z -> Z -> list VideoAnalyzer.scored -> bool)
  (info : VideoAnalyzer.VideoInfo) (num_frames : Z)
  (scored_frames : list VideoAnalyzer.scored)
  (result : list VideoAnalyzer.SelectedFrame) :
  VideoAnalyzer.select_best check info num_frames scored_frames = Return result ->
  exists (apart : Z),
    int (VideoAnalyzer.fps info * 30)%float = Return apart /\
    num_frames <> 0 /\
    let gap := Z.max apart (VideoAnalyzer.frame_count info / (num_frames * 2)) in
    Forall2 (fun c sf => VideoAnalyzer.to_selected_frame info c = Return sf)
      (VideoAnalyzer.sort_by_frame_num
         (VideoAnalyzer.select check num_frames gap
            (VideoAnalyzer.sort_by_score_desc scored_frames) []))
      result.
Proof.
  unfold VideoAnalyzer.select_best, VideoAnalyzer.min_frame_interval.
  intros Hr.
  apply bind_Return_inv in Hr. destruct Hr as (gap & Hgap & Hr).
  apply bind_Return_inv in Hgap. destruct Hgap as (apart & Hapart & Hgap).
  apply bind_Return_inv in Hgap. destruct Hgap as (share & Hshare & Hgap).
  injection Hgap as <-. unfold int_floordiv in Hshare.
  destruct (num_frames * 2 =? 0) eqn:E; [discriminate | ].
  injection Hshare as <-. apply Z.eqb_neq in E.
  exists apart. split; [exact Hapart | ]. split; [lia | ].
  cbv zeta. apply mapM_Return_inv. exact Hr.
Qed.

End Selection.

(** ** The serial analysis *)

Section SerialAnalysis.

Context `{Cv2}.

(** What a returning [analyze_video] went through on a loaded video. *)
Lemma analyze_video_inv (fuel : nat) (self : VideoAnalyzer.t) (num_frames : Z)
  (cap : Capture Frame) (info : VideoAnalyzer.VideoInfo)
  (result : list VideoAnalyzer.SelectedFrame) :
  VideoAnalyzer.video_capture self = Some cap ->
  VideoAnalyzer.video_info self = Some info ->
  VideoAnalyzer.analyze_video fuel self num_frames = Return result ->
  exists (target_samples min_interval_sec : Z) (positions : list Z),
    VideoAnalyzer._get_sampling_config (Some info)
      = (target_samples, min_interval_sec) /\
    VideoAnalyzer._calculate_sample_positions fuel (Some info) target_samples
      (Z2F min_interval_sec) = Return positions /\
    VideoAnalyzer.select_best VideoAnalyzer.too_close info num_frames
      (VideoAnalyzer.score_candidates self
         (VideoAnalyzer.prefilter self positions)) = Return result.
Proof.
  intros Hcap Hinfo. unfold VideoAnalyzer.analyze_video.
  rewrite Hcap, Hinfo.
  destruct (VideoAnalyzer._get_sampling_config (Some info)) as [target mi].
  intros Hr. apply bind_Return_inv in Hr. destruct Hr as (positions & Hpos & Hr).
  exists target, mi, positions. repeat split; assumption.
Qed.

Lemma analyze_video_not_loaded (fuel : nat) (self : VideoAnalyzer.t)
  (num_frames : Z) :
  VideoAnalyzer.video_capture self = None \/ VideoAnalyzer.video_info self = None ->
  VideoAnalyzer.analyze_video fuel self num_frames = Return [].
Proof.
  unfold VideoAnalyzer.analyze_video. intros [-> | ->].
  - reflexivity.
  - destruct (VideoAnalyzer.video_capture self); reflexivity.
Qed.

(** C1.  The list [analyze_video] returns holds at most the requested
    number of frames (none for a negative request), is sorted ascending by
    [frame_number], and any two of its frames lie at least
    [max(int(fps * 30), frame_count // (num_frames * 2))] frames apart. *)
Theorem analyze_video_selection_invariants
  (fuel : nat) (self : VideoAnalyzer.t) (num_frames : Z)
  (result : list VideoAnalyzer.SelectedFrame) :
  VideoAnalyzer.analyze_video fuel self num_frames = Return result ->
  Z.of_nat (List.length result) <= Z.max 0 num_frames /\
  StronglySorted Z.le (map VideoAnalyzer.frame_number result) /\
  forall (info : VideoAnalyzer.VideoInfo) (apart : Z),
    VideoAnalyzer.video_info self = Some info ->
    int (VideoAnalyzer.fps info * 30)%float = Return apart ->
    ForallOrdPairs
      (fun a b =>
         Z.max apart (VideoAnalyzer.frame_count info / (num_frames * 2))
         <= Z.abs (VideoAnalyzer.frame_number a - VideoAnalyzer.frame_number b))
      result.
Proof.
  intros Hr.
  destruct (VideoAnalyzer.video_capture self) as [cap | ] eqn:Hcap;
    [ | rewrite analyze_video_not_loaded in Hr by (left; exact Hcap);
        injection Hr as <-;
        split; [simpl; lia | split; [constructor | intros; constructor]]].
  destruct (VideoAnalyzer.video_info self) as [info | ] eqn:Hinfo;
    [ | rewrite analyze_video_not_loaded in Hr by (right; exact Hinfo);
        injection Hr as <-;
        split; [simpl; lia | split; [constructor | intros; constructor]]].
  destruct (analyze_video_inv _ _ _ _ _ _ Hcap Hinfo Hr)
    as (target & mi & positions & _ & _ & Hbest).
  destruct (select_best_inv _ _ _ _ _ Hbest) as (apart & Hapart & Hn & Hconv).
  cbv zeta in Hconv.
  set (gap := Z.max apart (VideoAnalyzer.frame_count info / (num_frames * 2))) in *.
  set (picked := VideoAnalyzer.select _ num_frames gap _ []) in Hconv.
  assert (Hnum : map VideoAnalyzer.frame_number result
                 = map VideoAnalyzer.scored_frame_num
                       (VideoAnalyzer.sort_by_frame_num picked)).
  { clear -Hconv. induction Hconv as [ | c sf l r Hc _ IH]; [reflexivity | ].
    simpl. rewrite IH. f_equal. apply (to_selected_frame_inv _ _ _ Hc). }
  split; [ | split].
  - rewrite <- (length_map VideoAnalyzer.frame_number), Hnum, length_map.
    unfold VideoAnalyzer.sort_by_frame_num.
    rewrite (Permutation_length (stable_sort_perm _ picked)).
    apply select_length. simpl. lia.
  - rewrite Hnum. apply sort_by_frame_num_sorted.
  - intros info' apart' Hinfo' Hapart'.
    injection Hinfo' as <-. rewrite Hapart in Hapart'. injection Hapart' as <-.
    fold gap.
    apply (ForallOrdPairs_Forall2
             (fun c sf => VideoAnalyzer.to_selected_frame info c = Return sf)
             (fun a b => gap <= Z.abs (VideoAnalyzer.scored_frame_num a
                                       - VideoAnalyzer.scored_frame_num b)))
      with (l := VideoAnalyzer.sort_by_frame_num picked); [ | exact Hconv | ].
    + intros a b a' b' Ha Hb Hab.
      rewrite (proj1 (to_selected_frame_inv _ _ _ Ha)),
              (proj1 (to_selected_frame_inv _ _ _ Hb)).
      exact Hab.
    + apply (ForallOrdPairs_perm
               (fun a b => gap <= Z.abs (VideoAnalyzer.scored_frame_num a
                                         - VideoAnalyzer.scored_frame_num b)))
        with (l := picked).
      * intros a b Hab. lia.
      * symmetry. apply stable_sort_perm.
      * apply select_spaced. constructor.
Qed.

End SerialAnalysis.

(** [analyze_video_selection_invariants] on the synthetic video, three
    frames requested: the frames 65, 215 and 335 come back, 66 frames
    being the required spacing. *)
Lemma analyze_video_selection_invariants_witness :
  map VideoAnalyzer.frame_number Fixture.selection = [65; 215; 335] /\
  Z.of_nat (List.length Fixture.selection) <= Z.max 0 3 /\
  StronglySorted Z.le (map VideoAnalyzer.frame_number Fixture.selection) /\
  forall (info : VideoAnalyzer.VideoInfo) (apart : Z),
    VideoAnalyzer.video_info Fixture.loaded = Some info ->
    int (VideoAnalyzer.fps info * 30)%float = Return apart ->
    ForallOrdPairs
      (fun a b =>
         Z.max apart (VideoAnalyzer.frame_count info / (3 * 2))
         <= Z.abs (VideoAnalyzer.frame_number a - VideoAnalyzer.frame_number b))
      Fixture.selection.
Proof.
  split; [vm_compute; reflexivity | ].
  apply (@analyze_video_selection_invariants Fixture.cv2 400 Fixture.loaded 3).
  apply returns_value. vm_compute. reflexivity.
Defined.

Section PreFilter.

Context `{Cv2}.

(** C4.  Every frame [analyze_video] returns sits at a sampled position,
    is the frame decoded there, and has fast sharpness above 0.15: a
    position whose frame does not decode, or whose fast sharpness is at
    most 0.15, is dropped in phase 1 and never scored or selected. *)
Theorem selection_passes_sharpness_prefilter
  (fuel : nat) (self : VideoAnalyzer.t) (num_frames : Z)
  (result : list VideoAnalyzer.SelectedFrame) :
  VideoAnalyzer.analyze_video fuel self num_frames = Return result ->
  forall sf : VideoAnalyzer.SelectedFrame,
    In sf result ->
    (exists (target_samples min_interval_sec : Z) (positions : list Z),
        VideoAnalyzer._get_sampling_config (VideoAnalyzer.video_info self)
          = (target_samples, min_interval_sec) /\
        VideoAnalyzer._calculate_sample_positions fuel
          (VideoAnalyzer.video_info self) target_samples (Z2F min_interval_sec)
          = Return positions /\
        In (VideoAnalyzer.frame_number sf) positions) /\
    VideoAnalyzer.get_frame_at_position self (VideoAnalyzer.frame_number sf)
      = Some (VideoAnalyzer.image sf) /\
    (0.15 <? calculate_sharpness_fast (VideoAnalyzer.image sf))%float = true /\
    (calculate_sharpness_fast (VideoAnalyzer.image sf) <=? 0.15)%float = false /\
    VideoAnalyzer.is_manual sf = false.
Proof.
  intros Hr sf Hsf.
  destruct (VideoAnalyzer.video_capture self) as [cap | ] eqn:Hcap;
    [ | rewrite analyze_video_not_loaded in Hr by (left; exact Hcap);
        injection Hr as <-; destruct Hsf].
  destruct (VideoAnalyzer.video_info self) as [info | ] eqn:Hinfo;
    [ | rewrite analyze_video_not_loaded in Hr by (right; exact Hinfo);
        injection Hr as <-; destruct Hsf].
  destruct (analyze_video_inv _ _ _ _ _ _ Hcap Hinfo Hr)
    as (target & mi & positions & Hcfg & Hpos & Hbest).
  destruct (select_best_inv _ _ _ _ _ Hbest) as (apart & _ & _ & Hconv).
  cbv zeta in Hconv.
  destruct (Forall2_in_r_exists _ _ _ Hconv _ Hsf) as (c & Hc & Hcsf).
  apply (Permutation_in _ (stable_sort_perm _ _)) in Hc.
  apply select_incl in Hc. destruct Hc as [[] | Hc].
  apply (Permutation_in _ (stable_sort_perm _ _)) in Hc.
  destruct (score_candidates_In _ _ _ Hc) as (n & frame & sh & Hcand & Hn & Hfr).
  destruct (prefilter_In _ _ _ Hcand) as (n' & frame' & E & Hin & Hget & Hsharp).
  injection E as <- <- ->.
  destruct (to_selected_frame_inv _ _ _ Hcsf) as (Hnum & Himg & _ & Hman).
  rewrite Hnum, Himg, Hn, Hfr.
  split; [exists target, mi, positions; repeat split; assumption | ].
  split; [exact Hget | ]. split; [exact Hsharp | ].
  split; [apply float_ltb_not_leb; exact Hsharp | exact Hman].
Qed.

(** On a loaded video whose every sampled position fails the pre-filter,
    the frame there not decoding or having fast sharpness at most 0.15,
    [analyze_video] returns the empty list, for any nonzero request, the
    30-second spacing [int(fps * 30)] being defined. *)
Lemma analyze_video_all_rejected_returns_empty
  (fuel : nat) (self : VideoAnalyzer.t) (num_frames : Z)
  (cap : Capture Frame) (info : VideoAnalyzer.VideoInfo)
  (target_samples min_interval_sec apart : Z) (positions : list Z) :
  VideoAnalyzer.video_capture self = Some cap ->
  VideoAnalyzer.video_info self = Some info ->
  VideoAnalyzer._get_sampling_config (Some info)
    = (target_samples, min_interval_sec) ->
  VideoAnalyzer._calculate_sample_positions fuel (Some info) target_samples
    (Z2F min_interval_sec) = Return positions ->
  (forall p, In p positions ->
     match VideoAnalyzer.get_frame_at_position self p with
     | None => True
     | Some frame => (calculate_sharpness_fast frame <=? 0.15)%float = true
     end) ->
  int (VideoAnalyzer.fps info * 30)%float = Return apart ->
  num_frames <> 0 ->
  VideoAnalyzer.analyze_video fuel self num_frames = Return [].
Proof.
  intros Hcap Hinfo Hcfg Hpos Hall Hapart Hn.
  unfold VideoAnalyzer.analyze_video. rewrite Hcap, Hinfo, Hcfg, Hpos.
  cbn [bind]. rewrite prefilter_all_rejected.
  - unfold VideoAnalyzer.select_best, VideoAnalyzer.min_frame_interval,
      int_floordiv.
    rewrite Hapart. cbn [bind].
    destruct (num_frames * 2 =? 0) eqn:E; [apply Z.eqb_eq in E; lia | ].
    reflexivity.
  - intros p Hp. specialize (Hall p Hp).
    destruct (VideoAnalyzer.get_frame_at_position self p) as [frame | ];
      [ | exact I].
    destruct (0.15 <? calculate_sharpness_fast frame)%float eqn:E;
      [ | reflexivity].
    apply float_ltb_not_leb in E. congruence.
Qed.

(** A request for zero frames: the spacing [frame_count // (num_frames * 2)]
    is computed once the candidates are scored and sorted, whatever their
    number, so the division by zero is reached on every loaded video whose
    plan is made. *)
Lemma analyze_video_zero_request
  (fuel : nat) (self : VideoAnalyzer.t)
  (cap : Capture Frame) (info : VideoAnalyzer.VideoInfo)
  (target_samples min_interval_sec apart : Z) (positions : list Z) :
  VideoAnalyzer.video_capture self = Some cap ->
  VideoAnalyzer.video_info self = Some info ->
  VideoAnalyzer._get_sampling_config (Some info)
    = (target_samples, min_interval_sec) ->
  VideoAnalyzer._calculate_sample_positions fuel (Some info) target_samples
    (Z2F min_interval_sec) = Return positions ->
  int (VideoAnalyzer.fps info * 30)%float = Return apart ->
  VideoAnalyzer.analyze_video fuel self 0 = Raise ZeroDivisionError.
Proof.
  intros Hcap Hinfo Hcfg Hpos Hapart.
  unfold VideoAnalyzer.analyze_video. rewrite Hcap, Hinfo, Hcfg, Hpos.
  cbn [bind].
  unfold VideoAnalyzer.select_best, VideoAnalyzer.min_frame_interval,
    int_floordiv.
  rewrite Hapart. reflexivity.
Qed.

End PreFilter.

(** [selection_passes_sharpness_prefilter] at each of the three frames
    selected from the synthetic video. *)
Lemma selection_passes_sharpness_prefilter_witness :
  Forall
    (fun sf : @VideoAnalyzer.SelectedFrame Fixture.cv2 =>
       (exists (target_samples min_interval_sec : Z) (positions : list Z),
           VideoAnalyzer._get_sampling_config
             (VideoAnalyzer.video_info Fixture.loaded)
             = (target_samples, min_interval_sec) /\
           VideoAnalyzer._calculate_sample_positions 400
             (VideoAnalyzer.video_info Fixture.loaded) target_samples
             (Z2F min_interval_sec) = Return positions /\
           In (VideoAnalyzer.frame_number sf) positions) /\
       VideoAnalyzer.get_frame_at_position Fixture.loaded
         (VideoAnalyzer.frame_number sf) = Some (VideoAnalyzer.image sf) /\
       (0.15 <? calculate_sharpness_fast (VideoAnalyzer.image sf))%float = true /\
       (calculate_sharpness_fast (VideoAnalyzer.image sf) <=? 0.15)%float = false /\
       VideoAnalyzer.is_manual sf = false)
    Fixture.selection.
Proof.
  apply Forall_forall.
  apply (@selection_passes_sharpness_prefilter Fixture.cv2 400 Fixture.loaded 3).
  apply returns_value. vm_compute. reflexivity.
Defined.

(** [analyze_video_all_rejected_returns_empty] on the synthetic video
    read through a capture whose frames are all flat. *)
Lemma analyze_video_all_rejected_returns_empty_witness :
  @VideoAnalyzer.analyze_video Fixture.cv2 400 Fixture.blurred 3 = Return [].
Proof.
  apply (@analyze_video_all_rejected_returns_empty Fixture.cv2 400
           Fixture.blurred 3 (fun _ => Some 0) Fixture.info 400 5 30
           (map (fun k => 5 + Z.of_nat k * 5) (seq 0 78))).
  - reflexivity.
  - reflexivity.
  - vm_compute; reflexivity.
  - vm_compute; reflexivity.
  - intros p _. unfold VideoAnalyzer.get_frame_at_position. simpl.
    destruct ((p <? 0) || (400 <=? p)); [exact I | vm_compute; reflexivity].
  - vm_compute; reflexivity.
  - discriminate.
Defined.

(** C7, the failing input.  The synthetic video read through a capture
    whose frames are all flat: each of the 78 sampled positions decodes to
    a frame of fast sharpness 0, so none passes the pre-filter.  Asked for
    three frames the analysis returns the empty list; asked for zero
    frames it ends in [ZeroDivisionError], the spacing
    [frame_count // (num_frames * 2)] being computed although there is no
    candidate to space. *)
Theorem analyze_video_zero_request_raises :
  VideoAnalyzer._calculate_sample_positions 400
    (VideoAnalyzer.video_info Fixture.blurred) 400 (Z2F 5)
  = Return (map (fun k => 5 + Z.of_nat k * 5) (seq 0 78)) /\
  (forall p, In p (map (fun k => 5 + Z.of_nat k * 5) (seq 0 78)) ->
     exists frame,
       VideoAnalyzer.get_frame_at_position Fixture.blurred p = Some frame /\
       (calculate_sharpness_fast frame <=? 0.15)%float = true) /\
  VideoAnalyzer.prefilter Fixture.blurred
    (map (fun k => 5 + Z.of_nat k * 5) (seq 0 78)) = [] /\
  @VideoAnalyzer.analyze_video Fixture.cv2 400 Fixture.blurred 3 = Return [] /\
  @VideoAnalyzer.analyze_video Fixture.cv2 400 Fixture.blurred 0
  = Raise ZeroDivisionError.
Proof.
  assert (Hpos : VideoAnalyzer._calculate_sample_positions 400
                   (VideoAnalyzer.video_info Fixture.blurred) 400 (Z2F 5)
                 = Return (map (fun k => 5 + Z.of_nat k * 5) (seq 0 78)))
    by (vm_compute; reflexivity).
  assert (Hflat : forall p,
             In p (map (fun k => 5 + Z.of_nat k * 5) (seq 0 78)) ->
             exists frame,
               VideoAnalyzer.get_frame_at_position Fixture.blurred p
                 = Some frame /\
               (calculate_sharpness_fast frame <=? 0.15)%float = true).
  { intros p Hp. apply in_map_iff in Hp. destruct Hp as (k & <- & Hk).
    apply in_seq in Hk. exists 0. split; [ | vm_compute; reflexivity].
    unfold VideoAnalyzer.get_frame_at_position, Fixture.blurred, Fixture.info.
    cbn [VideoAnalyzer.video_capture VideoAnalyzer.video_info
         VideoAnalyzer.frame_count].
    destruct ((5 + Z.of_nat k * 5 <? 0) || (400 <=? 5 + Z.of_nat k * 5)) eqn:E;
      [ | reflexivity].
    apply orb_true_iff in E. destruct E as [E | E];
      [apply Z.ltb_lt in E | apply Z.leb_le in E]; lia. }
  split; [exact Hpos | ]. split; [exact Hflat | ].
  split; [ | split].
  - apply prefilter_all_rejected. intros p Hp.
    destruct (Hflat p Hp) as (frame & -> & Hsharp).
    destruct (0.15 <? calculate_sharpness_fast frame)%float eqn:E;
      [ | reflexivity].
    apply float_ltb_not_leb in E. congruence.
  - apply (@analyze_video_all_rejected_returns_empty Fixture.cv2 400
             Fixture.blurred 3 (fun _ => Some 0) Fixture.info 400 5 30
             (map (fun k => 5 + Z.of_nat k * 5) (seq 0 78)));
      [reflexivity | reflexivity | vm_compute; reflexivity | exact Hpos
      | | vm_compute; reflexivity | discriminate].
    intros p Hp. destruct (Hflat p Hp) as (frame & -> & Hsharp). exact Hsharp.
  - apply (@analyze_video_zero_request Fixture.cv2 400 Fixture.blurred
             (fun _ => Some 0) Fixture.info 400 5 30
             (map (fun k => 5 + Z.of_nat k * 5) (seq 0 78)));
      [reflexivity | reflexivity | vm_compute; reflexivity | exact Hpos
      | vm_compute; reflexivity].
Qed.

(** ** The parallel coordinator *)

Lemma binary_round_aux_sign (s : bool) (m e : Z) (l : location) :
  match binary_round_aux prec emax s m e l with
  | S754_zero s' | S754_finite s' _ _ | S754_infinity s' => s' = s
  | S754_nan => True
  end.
Proof.
  unfold binary_round_aux.
  destruct (shr_fexp prec emax m e l) as [mrs' e'].
  destruct (shr_fexp prec emax _ e' loc_Exact) as [mrs'' e''].
  destruct (shr_m mrs''); [reflexivity | | exact I].
  destruct (e'' <=? emax - prec); reflexivity.
Qed.

(** The integer part of the product of two floats that are not negative
    is not negative. *)
Lemma int_mul_nonneg (f c : float) (s : Z) :
  (0 <=? f)%float = true -> (0 <=? c)%float = true ->
  int (f * c)%float = Return s -> 0 <= s.
Proof.
  rewrite !leb_spec. unfold int. rewrite mul_spec.
  change (Prim2SF 0) with (S754_zero false).
  unfold SF64mul, SFmul.
  destruct (Prim2SF f) as [sf | sf | | sf mf ef],
           (Prim2SF c) as [sc | sc | | sc mc ec];
    simpl; try discriminate;
    try (intros _ _ E; injection E as <-; lia);
    try (destruct sf; discriminate); try (destruct sc; discriminate).
  destruct sf, sc; try discriminate. intros _ _. simpl.
  pose proof (binary_round_aux_sign false (Z.pos (mf * mc)) (ef + ec) loc_Exact)
    as Hs.
  destruct (binary_round_aux prec emax false (Z.pos (mf * mc)) (ef + ec) loc_Exact)
    as [s' | s' | | s' m' e']; try discriminate.
  - intros E; injection E as <-; lia.
  - subst s'. intros E; injection E as <-. apply Z.shiftl_nonneg. lia.
Qed.

(** The sampled positions of a video whose frame rate is not negative are
    frame indices of the video, in strictly ascending order. *)
Lemma sample_positions_in_range (fuel : nat) (info : VideoAnalyzer.VideoInfo)
  (num_samples : Z) (min_interval_sec : float) (positions : list Z) :
  (0 <=? VideoAnalyzer.fps info)%float = true ->
  VideoAnalyzer._calculate_sample_positions fuel (Some info) num_samples
    min_interval_sec = Return positions ->
  Forall (fun p => 0 <= p < VideoAnalyzer.frame_count info) positions /\
  StronglySorted Z.lt positions.
Proof.
  intros Hfps Hpos.
  destruct (sample_positions_returns _ _ _ _ _ Hpos)
    as (start & mif & n & Hstart & _ & _ & Hl & Hbelow & Hbeyond).
  cbv zeta in Hl, Hbelow, Hbeyond.
  set (step := Z.max mif (VideoAnalyzer.frame_count info / num_samples)) in *.
  assert (H0 : 0 <= start)
    by (apply (int_mul_nonneg _ 5 _ Hfps); [vm_compute; reflexivity | exact Hstart]).
  destruct n as [ | n].
  - subst positions. split; constructor.
  - assert (Hstep : 0 < step).
    { pose proof (Hbelow 0%nat ltac:(lia)) as Hb. nia. }
    subst positions. split; [ | apply progression_sorted; exact Hstep].
    apply Forall_forall. intros p Hp.
    apply in_map_iff in Hp. destruct Hp as (k & <- & Hk). apply in_seq in Hk.
    pose proof (Hbelow k ltac:(lia)) as Hb. nia.
Qed.

Section Stride.

Context {A : Type}.

Lemma concat_chunks_cons (w : nat) (x : A) (t : list A) :
  List.concat (map (fun i => stride (S w) i (x :: t)) (seq 0 (S w)))
  = x :: stride (S w) w t ++ List.concat (map (fun i => stride (S w) i t) (seq 0 w)).
Proof.
  cbn [seq map List.concat stride Nat.pred]. cbn [app]. f_equal. f_equal.
  rewrite <- seq_shift, map_map. reflexivity.
Qed.

(** The round-robin slices, put end to end, hold every element once. *)
Lemma concat_chunks_perm (w : nat) (l : list A) :
  Permutation (List.concat (map (fun i => stride (S w) i l) (seq 0 (S w)))) l.
Proof.
  induction l as [ | x t IH].
  - assert (E : forall n a, List.concat (map (fun i => stride (S w) i (@nil A)) (seq a n)) = [])
      by (induction n as [ | n IHn]; intros a; simpl; [ | rewrite IHn]; reflexivity).
    rewrite E. constructor.
  - rewrite concat_chunks_cons. apply perm_skip.
    rewrite <- IH at 2. rewrite seq_S, map_app, concat_app. simpl.
    rewrite app_nil_r. apply Permutation_app_comm.
Qed.

Lemma concat_filter_nonempty (ls : list (list A)) :
  List.concat (filter (fun chunk => negb (Nat.eqb (List.length chunk) 0)) ls)
  = List.concat ls.
Proof.
  induction ls as [ | l rest IH]; simpl; [reflexivity | ].
  destruct l as [ | x t]; simpl; [exact IH | rewrite IH; reflexivity].
Qed.

Lemma flat_map_nth_seq (fs : list (list A)) :
  flat_map (fun i => nth i fs []) (seq 0 (List.length fs)) = List.concat fs.
Proof.
  induction fs as [ | f rest IH]; simpl; [reflexivity | ].
  f_equal. rewrite <- seq_shift, flat_map_concat_map, map_map,
    <- flat_map_concat_map. exact IH.
Qed.

End Stride.

Section Parallel.

Context `{Cv2}.

Lemma analyze_chunk_app (cap : Capture Frame) (scorer : FrameScorer.t)
  (l1 l2 : list Z) :
  VideoAnalyzer.analyze_chunk cap scorer (l1 ++ l2)
  = VideoAnalyzer.analyze_chunk cap scorer l1
    ++ VideoAnalyzer.analyze_chunk cap scorer l2.
Proof.
  induction l1 as [ | p rest IH]; simpl; [reflexivity | ].
  destruct (cap p) as [frame | ]; [ | exact IH].
  destruct (0.15 <? calculate_sharpness_fast frame)%float; [ | exact IH].
  simpl. rewrite IH. reflexivity.
Qed.

Lemma analyze_chunk_concat (cap : Capture Frame) (scorer : FrameScorer.t)
  (ls : list (list Z)) :
  List.concat (map (VideoAnalyzer.analyze_chunk cap scorer) ls)
  = VideoAnalyzer.analyze_chunk cap scorer (List.concat ls).
Proof.
  induction ls as [ | l rest IH]; simpl; [reflexivity | ].
  rewrite analyze_chunk_app, IH. reflexivity.
Qed.

Lemma analyze_chunk_perm (cap : Capture Frame) (scorer : FrameScorer.t)
  (l l' : list Z) :
  Permutation l l' ->
  Permutation (VideoAnalyzer.analyze_chunk cap scorer l)
              (VideoAnalyzer.analyze_chunk cap scorer l').
Proof.
  intros Hp. induction Hp as [ | x l l' _ IH | x y l | l l' l'' _ IH1 _ IH2].
  - reflexivity.
  - change (x :: l) with ([x] ++ l). change (x :: l') with ([x] ++ l').
    rewrite !analyze_chunk_app. apply Permutation_app_head, IH.
  - change (y :: x :: l) with ([y] ++ [x] ++ l).
    change (x :: y :: l) with ([x] ++ [y] ++ l).
    rewrite !analyze_chunk_app, !app_assoc.
    apply Permutation_app_tail, Permutation_app_comm.
  - exact (Permutation_trans IH1 IH2).
Qed.

(** A worker that reads the analyzer's own file with the analyzer's own
    weights finds, on frame indices of the video, what phases 1 and 2 of
    the serial path find. *)
Lemma analyze_chunk_serial (self : VideoAnalyzer.t) (cap : Capture Frame)
  (info : VideoAnalyzer.VideoInfo) (l : list Z) :
  VideoAnalyzer.video_capture self = Some cap ->
  VideoAnalyzer.video_info self = Some info ->
  Forall (fun p => 0 <= p < VideoAnalyzer.frame_count info) l ->
  VideoAnalyzer.analyze_chunk cap (VideoAnalyzer.frame_scorer self) l
  = VideoAnalyzer.score_candidates self (VideoAnalyzer.prefilter self l).
Proof.
  intros Hcap Hinfo Hl. induction Hl as [ | p rest Hp _ IH]; simpl; [reflexivity | ].
  unfold VideoAnalyzer.get_frame_at_position. rewrite Hcap, Hinfo.
  replace ((p <? 0) || (VideoAnalyzer.frame_count info <=? p)) with false
    by (symmetry; apply orb_false_iff; split; [apply Z.ltb_ge | apply Z.leb_gt]; lia).
  destruct (cap p) as [frame | ]; [ | exact IH].
  destruct (0.15 <? calculate_sharpness_fast frame)%float; [ | exact IH].
  simpl. rewrite IH. reflexivity.
Qed.

Lemma scored_frame_nums_sorted (self : VideoAnalyzer.t) (positions : list Z) :
  StronglySorted Z.lt positions ->
  StronglySorted Z.lt
    (map VideoAnalyzer.scored_frame_num
       (VideoAnalyzer.score_candidates self
          (VideoAnalyzer.prefilter self positions))).
Proof.
  intros Hs. induction Hs as [ | p rest _ IH Hp]; [constructor | ].
  assert (Htail : Forall (Z.lt p)
            (map VideoAnalyzer.scored_frame_num
               (VideoAnalyzer.score_candidates self
                  (VideoAnalyzer.prefilter self rest)))).
  { apply Forall_forall. intros n Hn.
    apply in_map_iff in Hn. destruct Hn as (s & <- & Hs').
    destruct (score_candidates_In _ _ _ Hs') as (n & fr & sh & Hc & -> & _).
    destruct (prefilter_In _ _ _ Hc) as (n' & fr' & E & Hin & _).
    injection E as -> _ _. rewrite Forall_forall in Hp. apply Hp, Hin. }
  simpl.
  destruct (VideoAnalyzer.get_frame_at_position self p) as [frame | ]; [ | exact IH].
  destruct (0.15 <? calculate_sharpness_fast frame)%float; [ | exact IH].
  simpl. constructor; assumption.
Qed.

(** No two of the frames tie: of any two, one has the strictly lower
    total score. *)
Local Abbreviation untied :=
  (fun a b : VideoAnalyzer.scored =>
     (VideoAnalyzer.scored_total a <? VideoAnalyzer.scored_total b)%float
     || (VideoAnalyzer.scored_total b <? VideoAnalyzer.scored_total a)%float = true).

Lemma untied_pairs (l : list VideoAnalyzer.scored) :
  StronglySorted Z.lt (map VideoAnalyzer.scored_frame_num l) ->
  (forall a b, In a l -> In b l ->
     VideoAnalyzer.scored_frame_num a <> VideoAnalyzer.scored_frame_num b ->
     untied a b) ->
  ForallOrdPairs untied l.
Proof.
  induction l as [ | x t IH]; simpl; intros Hs Hu; [constructor | ].
  apply StronglySorted_inv in Hs. destruct Hs as (Hst & Hx).
  constructor.
  - apply Forall_forall. intros y Hy.
    apply Hu; [left; reflexivity | right; exact Hy | ].
    rewrite Forall_forall in Hx.
    specialize (Hx (VideoAnalyzer.scored_frame_num y) (in_map _ _ _ Hy)). lia.
  - apply IH; [exact Hst | ]. intros a b Ha Hb. apply Hu; right; assumption.
Qed.

(** Sorting by score does not depend on the order the scored frames
    arrive in, as long as no two of them tie. *)
Lemma sort_by_score_desc_perm (l1 l2 : list VideoAnalyzer.scored) :
  Permutation l1 l2 ->
  ForallOrdPairs untied l1 ->
  VideoAnalyzer.sort_by_score_desc l1 = VideoAnalyzer.sort_by_score_desc l2.
Proof.
  intros Hp Hu1.
  assert (Hu2 : ForallOrdPairs untied l2).
  { apply (ForallOrdPairs_perm untied) with (l := l1); [ | exact Hp | exact Hu1].
    intros a b. rewrite orb_comm. exact (fun E => E). }
  set (R := fun a b : VideoAnalyzer.scored =>
              (VideoAnalyzer.scored_total b <? VideoAnalyzer.scored_total a)%float
              = true).
  assert (Hsorted : forall l, ForallOrdPairs untied l ->
                              StronglySorted R (VideoAnalyzer.sort_by_score_desc l)).
  { intros l Hu. apply stable_sort_sorted.
    - intros x y z Hxy Hyz. exact (float_ltb_trans _ _ _ Hyz Hxy).
    - revert Hu. apply ForallOrdPairs_impl_pairs.
      intros a b Hab. split; [exact (fun E => E) | ].
      intros E. unfold R. rewrite E in Hab. exact Hab. }
  apply (sorted_perm_unique R).
  - intros a b Hab Hba. unfold R in *.
    rewrite (float_ltb_asym _ _ Hab) in Hba. discriminate.
  - apply Hsorted, Hu1.
  - apply Hsorted, Hu2.
  - unfold VideoAnalyzer.sort_by_score_desc.
    rewrite !stable_sort_perm. exact Hp.
Qed.

End Parallel.

Section ParallelAgreement.

Context `{Cv2}.

(** Where the two paths do agree.  Let the analyzer hold a loaded video of
    non-negative frame rate, its capture reading the file the workers open,
    and its scorer carrying the default weights, which are the weights of
    every worker's scorer.  If no two scored candidates tie on total score,
    then for every number of workers and every order in which the workers
    complete, the parallel path returns what the serial path returns; in
    particular the same set of frame numbers. *)
Lemma parallel_selection_matches_serial
  (fuel : nat) (self : VideoAnalyzer.t) (info : VideoAnalyzer.VideoInfo)
  (video_path : string) (num_frames num_workers : Z) (completion : list nat)
  (target_samples min_interval_sec : Z) (positions : list Z) :
  VideoAnalyzer.video_info self = Some info ->
  VideoAnalyzer.video_path self = Some video_path ->
  VideoAnalyzer.video_capture self = Some (VideoCapture video_path) ->
  FrameScorer.default = Return (VideoAnalyzer.frame_scorer self) ->
  (0 <=? VideoAnalyzer.fps info)%float = true ->
  0 < num_workers ->
  VideoAnalyzer._get_sampling_config (Some info)
    = (target_samples, min_interval_sec) ->
  VideoAnalyzer._calculate_sample_positions fuel (Some info) target_samples
    (Z2F min_interval_sec) = Return positions ->
  Permutation completion
    (seq 0 (List.length
              (filter (fun chunk => negb (Nat.eqb (List.length chunk) 0))
                      (VideoAnalyzer.chunks (Z.to_nat num_workers) positions)))) ->
  (forall a b : VideoAnalyzer.scored,
      In a (VideoAnalyzer.score_candidates self
              (VideoAnalyzer.prefilter self positions)) ->
      In b (VideoAnalyzer.score_candidates self
              (VideoAnalyzer.prefilter self positions)) ->
      VideoAnalyzer.scored_frame_num a <> VideoAnalyzer.scored_frame_num b ->
      (VideoAnalyzer.scored_total a <? VideoAnalyzer.scored_total b)%float
      || (VideoAnalyzer.scored_total b <? VideoAnalyzer.scored_total a)%float
      = true) ->
  VideoAnalyzer.analyze_video_parallel fuel self num_frames num_workers completion
  = VideoAnalyzer.analyze_video fuel self num_frames /\
  forall serial parallel : list VideoAnalyzer.SelectedFrame,
    VideoAnalyzer.analyze_video fuel self num_frames = Return serial ->
    VideoAnalyzer.analyze_video_parallel fuel self num_frames num_workers
      completion = Return parallel ->
    forall n : Z,
      In n (map VideoAnalyzer.frame_number parallel)
      <-> In n (map VideoAnalyzer.frame_number serial).
Proof.
  intros Hinfo Hpath Hcap Hscorer Hfps Hworkers Hcfg Hpos Hcompletion Hties.
  assert (Heq : VideoAnalyzer.analyze_video_parallel fuel self num_frames
                  num_workers completion
                = VideoAnalyzer.analyze_video fuel self num_frames);
    [ | split; [exact Heq | ];
        intros serial parallel Hs Hp n; rewrite Heq, Hs in Hp;
        injection Hp as <-; reflexivity].
  destruct (sample_positions_in_range _ _ _ _ _ Hfps Hpos) as (Hrange & Hsorted).
  unfold VideoAnalyzer.analyze_video_parallel, VideoAnalyzer.analyze_video.
  rewrite Hinfo, Hcap, Hcfg, Hpos, Hpath. cbn [bind].
  destruct (num_workers <=? 0) eqn:E; [apply Z.leb_le in E; lia | ].
  rewrite Hscorer. cbn [bind].
  set (serial_scored := VideoAnalyzer.score_candidates self
                          (VideoAnalyzer.prefilter self positions)) in *.
  set (futures := map _ (filter _ _)).
  set (results := flat_map _ completion).
  assert (Hperm : Permutation serial_scored results).
  { symmetry. unfold results.
    rewrite (Permutation_flat_map _ Hcompletion).
    replace (List.length (filter (fun chunk => negb (Nat.eqb (List.length chunk) 0))
               (VideoAnalyzer.chunks (Z.to_nat num_workers) positions)))
      with (List.length futures) by (unfold futures; apply length_map).
    rewrite flat_map_nth_seq. unfold futures.
    rewrite analyze_chunk_concat, concat_filter_nonempty.
    unfold serial_scored.
    rewrite <- (analyze_chunk_serial self _ info positions Hcap Hinfo Hrange).
    apply analyze_chunk_perm.
    destruct (Z.to_nat num_workers) as [ | w] eqn:Ew; [lia | ].
    apply concat_chunks_perm. }
  unfold VideoAnalyzer.select_best.
  rewrite (sort_by_score_desc_perm serial_scored results Hperm).
  - destruct (VideoAnalyzer.min_frame_interval info num_frames) as [gap | e | ];
      [cbn [bind] | reflexivity | reflexivity].
    rewrite (select_ext _ _ _ _ _ _ too_close_any_loop). reflexivity.
  - apply untied_pairs; [ | exact Hties].
    apply scored_frame_nums_sorted, Hsorted.
Qed.

End ParallelAgreement.

Lemma untied_by_check `{Cv2} (l : list VideoAnalyzer.scored) :
  forallb (fun a =>
     forallb (fun b =>
        (VideoAnalyzer.scored_frame_num a =? VideoAnalyzer.scored_frame_num b)
        || (VideoAnalyzer.scored_total a <? VideoAnalyzer.scored_total b)%float
        || (VideoAnalyzer.scored_total b <? VideoAnalyzer.scored_total a)%float) l) l
  = true ->
  forall a b : VideoAnalyzer.scored,
    In a l -> In b l ->
    VideoAnalyzer.scored_frame_num a <> VideoAnalyzer.scored_frame_num b ->
    (VideoAnalyzer.scored_total a <? VideoAnalyzer.scored_total b)%float
    || (VideoAnalyzer.scored_total b <? VideoAnalyzer.scored_total a)%float = true.
Proof.
  intros Hcheck a b Ha Hb Hne.
  rewrite forallb_forall in Hcheck. specialize (Hcheck a Ha).
  rewrite forallb_forall in Hcheck. specialize (Hcheck b Hb).
  apply orb_true_iff in Hcheck. destruct Hcheck as [Hcheck | Hcheck].
  - apply orb_true_iff in Hcheck. destruct Hcheck as [Hcheck | Hcheck].
    + apply Z.eqb_eq in Hcheck. contradiction.
    + rewrite Hcheck. reflexivity.
  - rewrite Hcheck. apply orb_true_r.
Qed.

(** C2.  The parallel path does not select what the serial path selects
    once the scorer's weights have been set: [analyze_chunk] builds its own
    [FrameScorer(fast_mode=True)], so the workers score with the default
    weights whatever the analyzer's scorer holds, while the serial path
    scores with the analyzer's scorer.  On the synthetic video with the
    B-Roll weights, no two candidates tying under either scorer, the serial
    path selects the frames 65, 195, 325 and the parallel path, with four
    workers, the frames 65, 215, 335. *)
Theorem parallel_ignores_configured_weights :
  FrameScorer.set_weights Fixture.default_scorer 0.1 0.5 0.4
    = Return (VideoAnalyzer.frame_scorer Fixture.b_roll) /\
  (let candidates :=
     VideoAnalyzer.score_candidates Fixture.b_roll
       (VideoAnalyzer.prefilter Fixture.b_roll
          (map (fun k => 5 + Z.of_nat k * 5) (seq 0 78))) in
   forallb (fun a =>
      forallb (fun b =>
         (VideoAnalyzer.scored_frame_num a =? VideoAnalyzer.scored_frame_num b)
         || (VideoAnalyzer.scored_total a <? VideoAnalyzer.scored_total b)%float
         || (VideoAnalyzer.scored_total b <? VideoAnalyzer.scored_total a)%float)
        candidates) candidates = true) /\
  (let candidates :=
     VideoAnalyzer.analyze_chunk (@VideoCapture Fixture.cv2 "talk.mp4")
       Fixture.default_scorer (map (fun k => 5 + Z.of_nat k * 5) (seq 0 78)) in
   forallb (fun a =>
      forallb (fun b =>
         (VideoAnalyzer.scored_frame_num a =? VideoAnalyzer.scored_frame_num b)
         || (VideoAnalyzer.scored_total a <? VideoAnalyzer.scored_total b)%float
         || (VideoAnalyzer.scored_total b <? VideoAnalyzer.scored_total a)%float)
        candidates) candidates = true) /\
  returns (VideoAnalyzer.analyze_video 400 Fixture.b_roll 3) = true /\
  map VideoAnalyzer.frame_number
      (value_or [] (VideoAnalyzer.analyze_video 400 Fixture.b_roll 3))
    = [65; 195; 325] /\
  returns (VideoAnalyzer.analyze_video_parallel 400 Fixture.b_roll 3 4
             [0; 1; 2; 3]%nat) = true /\
  map VideoAnalyzer.frame_number
      (value_or [] (VideoAnalyzer.analyze_video_parallel 400 Fixture.b_roll 3 4
                      [0; 1; 2; 3]%nat))
    = [65; 215; 335].
Proof.
  do 6 (split; [vm_compute; reflexivity | ]). vm_compute. reflexivity.
Qed.

(** [parallel_selection_matches_serial] on the synthetic video: four
    workers that complete in the order 2, 0, 3, 1. *)
Lemma parallel_selection_matches_serial_witness :
  @VideoAnalyzer.analyze_video_parallel Fixture.cv2 400 Fixture.loaded 3 4
    [2; 0; 3; 1]%nat
  = @VideoAnalyzer.analyze_video Fixture.cv2 400 Fixture.loaded 3.
Proof.
  apply (@parallel_selection_matches_serial Fixture.cv2 400 Fixture.loaded
           Fixture.info "talk.mp4" 3 4 [2; 0; 3; 1]%nat 400 5
           (map (fun k => 5 + Z.of_nat k * 5) (seq 0 78))).
  - reflexivity.
  - reflexivity.
  - reflexivity.
  - vm_compute; reflexivity.
  - vm_compute; reflexivity.
  - reflexivity.
  - vm_compute; reflexivity.
  - vm_compute; reflexivity.
  - change (Permutation [2; 0; 3; 1]%nat [0; 1; 2; 3]%nat).
    apply (Permutation_cons_app [0; 1]%nat [3]%nat).
    apply perm_skip, perm_swap.
  - apply untied_by_check. vm_compute. reflexivity.
Defined.

(** * Further properties *)

(** ** More on the order of binary64 values *)

Lemma SFleb_trans (x y z : spec_float) :
  SFleb x y = true -> SFleb y z = true -> SFleb x z = true.
Proof.
  unfold SFleb, SFcompare.
  destruct x as [sx|sx| |sx mx ex], y as [sy|sy| |sy my ey],
           z as [sz|sz| |sz mz ez]; sf_cases.
Qed.

Lemma SFltb_leb (x y : spec_float) : SFltb x y = true -> SFleb x y = true.
Proof.
  unfold SFltb, SFleb. destruct (SFcompare x y) as [[ | | ] | ];
    try discriminate; reflexivity.
Qed.

Lemma float_leb_trans (x y z : float) :
  (x <=? y)%float = true -> (y <=? z)%float = true -> (x <=? z)%float = true.
Proof. rewrite !leb_spec. apply SFleb_trans. Qed.

Lemma float_ltb_leb (x y : float) :
  (x <? y)%float = true -> (x <=? y)%float = true.
Proof. rewrite ltb_spec, leb_spec. apply SFltb_leb. Qed.

(** A value is not negative: [+0], [-0], a positive number, [+inf] or a
    NaN. *)
Lemma not_negative_sign (x : float) :
  (x <? 0)%float = false <->
  match Prim2SF x with
  | S754_infinity s | S754_finite s _ _ => s = false
  | _ => True
  end.
Proof.
  rewrite ltb_spec. change (Prim2SF 0) with (S754_zero false).
  unfold SFltb, SFcompare.
  destruct (Prim2SF x) as [s | s | | s m e]; try destruct s; simpl;
    split; try reflexivity; try discriminate; exact (fun _ => I).
Qed.

(** Among comparable values, not negative means at least zero. *)
Lemma not_negative_leb (x c : float) :
  (x <? 0)%float = false -> (x <=? c)%float = true -> (0 <=? x)%float = true.
Proof.
  rewrite ltb_spec, !leb_spec. change (Prim2SF 0) with (S754_zero false).
  unfold SFltb, SFleb, SFcompare.
  destruct (Prim2SF x) as [s | s | | s m e], (Prim2SF c) as [sc | sc | | sc mc ec];
    try destruct s; simpl; try discriminate; reflexivity.
Qed.

Lemma leb_zero_not_negative (x : float) :
  (0 <=? x)%float = true -> (x <? 0)%float = false.
Proof.
  rewrite ltb_spec, leb_spec. change (Prim2SF 0) with (S754_zero false).
  unfold SFltb, SFleb, SFcompare.
  destruct (Prim2SF x) as [s | s | | s m e]; try destruct s; simpl;
    try discriminate; reflexivity.
Qed.

Lemma float_add_not_negative (a b : float) :
  (a <? 0)%float = false -> (b <? 0)%float = false -> (a + b <? 0)%float = false.
Proof.
  rewrite !not_negative_sign, add_spec. unfold SF64add, SFadd.
  destruct (Prim2SF a) as [sa | sa | | sa ma ea],
           (Prim2SF b) as [sb | sb | | sb mb eb];
    try (intros; subst; simpl; try destruct sa; try destruct sb; simpl; tauto).
  intros -> ->. cbn [cond_Zopp]. cbv zeta.
  change (Z.pos ?p + Z.pos ?q) with (Z.pos (p + q)).
  unfold binary_normalize, binary_round.
  destruct (shl_align _ _ _) as [mz ez].
  pose proof (binary_round_aux_sign false (Z.pos mz) ez loc_Exact) as Hs.
  destruct (binary_round_aux prec emax false (Z.pos mz) ez loc_Exact);
    solve [exact I | exact Hs].
Qed.

Lemma float_mul_not_negative (a b : float) :
  (a <? 0)%float = false -> (b <? 0)%float = false -> (a * b <? 0)%float = false.
Proof.
  rewrite !not_negative_sign, mul_spec. unfold SF64mul, SFmul.
  destruct (Prim2SF a) as [sa | sa | | sa ma ea],
           (Prim2SF b) as [sb | sb | | sb mb eb];
    try (intros; subst; simpl; try destruct sa; try destruct sb; simpl; tauto).
  intros -> ->. cbn [xorb].
  pose proof (binary_round_aux_sign false (Z.pos (ma * mb)) (ea + eb) loc_Exact)
    as Hs.
  destruct (binary_round_aux prec emax false (Z.pos (ma * mb)) (ea + eb) loc_Exact);
    solve [exact I | exact Hs].
Qed.

Lemma float_div_not_negative (a b : float) :
  (a <? 0)%float = false -> (0 <? b)%float = true -> (a / b <? 0)%float = false.
Proof.
  rewrite !not_negative_sign, div_spec, ltb_spec.
  change (Prim2SF 0) with (S754_zero false).
  unfold SF64div, SFdiv, SFltb, SFcompare.
  destruct (Prim2SF a) as [sa | sa | | sa ma ea],
           (Prim2SF b) as [sb | sb | | sb mb eb];
    try (intros; subst; simpl in *; try destruct sa; try destruct sb;
         simpl in *; try discriminate; tauto).
  intros ->. destruct sb; [discriminate | intros _]. cbn [xorb].
  destruct (SFdiv_core_binary prec emax (Z.pos ma) ea (Z.pos mb) eb)
    as [[mz ez] lz].
  pose proof (binary_round_aux_sign false mz ez lz) as Hs.
  destruct (binary_round_aux prec emax false mz ez lz);
    solve [exact I | exact Hs].
Qed.

(** What the built-in [min] and [max] return on floats. *)
Lemma min_leb_left (a b : float) :
  (a <=? a)%float = true -> (Builtins.min a b <=? a)%float = true.
Proof.
  unfold Builtins.min. intros Ha.
  destruct (b <? a)%float eqn:E; [apply float_ltb_leb, E | exact Ha].
Qed.

Lemma min_not_negative (a b : float) :
  (a <? 0)%float = false -> (b <? 0)%float = false ->
  (Builtins.min a b <? 0)%float = false.
Proof. unfold Builtins.min. intros Ha Hb. destruct (b <? a)%float; assumption. Qed.

(** ** The face score *)

(** The float of a machine-size count is not negative. *)
Lemma Z2F_not_negative (z : Z) :
  0 <= z < 2 ^ 63 -> (Z2F z <? 0)%float = false.
Proof.
  intros Hz. apply not_negative_sign.
  assert (E : Prim2SF (Z2F z) = binary_normalize prec emax z 0 false).
  { unfold Z2F.
    rewrite <- (Z.mod_small z Uint63.wB) at 1
      by (change Uint63.wB with (2 ^ 63); exact Hz).
    rewrite <- Uint63.of_Z_spec, <- of_uint63_spec, SF2Prim_Prim2SF.
    rewrite of_uint63_spec, Uint63.of_Z_spec, Z.mod_small
      by (change Uint63.wB with (2 ^ 63); exact Hz).
    reflexivity. }
  rewrite E. destruct z as [ | m | m]; [exact I | | lia].
  unfold binary_normalize, binary_round.
  destruct (shl_align _ _ _) as [mz ez].
  pose proof (binary_round_aux_sign false (Z.pos mz) ez loc_Exact) as Hs.
  destruct (binary_round_aux prec emax false (Z.pos mz) ez loc_Exact);
    solve [exact I | exact Hs].
Qed.

Lemma add_profiles_length (scale : float) (profiles acc out : list FaceDetector.rect) :
  FaceDetector.add_profiles scale profiles acc = Return out ->
  (List.length out <= List.length acc + List.length profiles)%nat.
Proof.
  revert acc; induction profiles as [ | p rest IH]; simpl; intros acc Hout.
  - injection Hout as <-. lia.
  - apply bind_Return_inv in Hout. destruct Hout as (sp & _ & Hout).
    apply bind_Return_inv in Hout. destruct Hout as ([ | ] & _ & Hout);
      apply IH in Hout; [lia | ].
    rewrite length_app in Hout. simpl in Hout. lia.
Qed.

Lemma detect_faces_length (self : FaceDetector.t) (frame_width : Z)
  (faces profiles out : list FaceDetector.rect) :
  FaceDetector.detect_faces self frame_width faces profiles = Return out ->
  (List.length out <= List.length faces + List.length profiles)%nat.
Proof.
  unfold FaceDetector.detect_faces. intros Hout.
  apply bind_Return_inv in Hout. destruct Hout as (scale & _ & Hout).
  apply bind_Return_inv in Hout. destruct Hout as (all_faces & Hfaces & Hout).
  apply mapM_Return_inv, Forall2_length in Hfaces.
  destruct (FaceDetector.fast_mode self).
  - injection Hout as <-. lia.
  - apply add_profiles_length in Hout. lia.
Qed.

(** The running maximum starts at zero and never drops. *)
Lemma max_face_score_not_negative (width height : Z) (skip_eyes : bool)
  (eyes : FaceDetector.rect -> Z) (faces : list FaceDetector.rect) :
  forall (max_score r : float),
    (0 <=? max_score)%float = true ->
    FaceDetectorMethods.max_face_score width height skip_eyes eyes faces max_score
      = Return r ->
    (0 <=? r)%float = true.
Proof.
  induction faces as [ | face rest IH]; simpl; intros max_score r Hm Hr.
  - injection Hr as <-. exact Hm.
  - apply bind_Return_inv in Hr. destruct Hr as (s & _ & Hr).
    apply (IH (Builtins.max max_score s)); [ | exact Hr].
    unfold Builtins.max.
    destruct (max_score <? s)%float eqn:E; [ | exact Hm].
    apply (float_leb_trans _ _ _ Hm). apply float_ltb_leb, E.
Qed.

(** X1.  [calculate_face_score] is 0.0 for a frame without a detected
    face and, whenever it returns, a value of at most 1.0; it is also at
    least 0.0, the number of boxes being one a Python list can hold.  The
    score of a face may leave that range; the running maximum from 0.0
    and the final [min] bring the result back. *)
Theorem calculate_face_score_range
  (self : FaceDetector.t) (width height : Z)
  (frontal profiles : list FaceDetector.rect) (skip_eyes : bool)
  (eyes : FaceDetector.rect -> Z) (r : float) :
  Z.of_nat (List.length frontal + List.length profiles) < 2 ^ 63 ->
  FaceDetectorMethods.calculate_face_score self width height frontal profiles
    skip_eyes eyes = Return r ->
  (FaceDetector.detect_faces self width frontal profiles = Return [] ->
   r = 0%float) /\
  (0 <=? r)%float = true /\ (r <=? 1)%float = true.
Proof.
  intros Hlen Hr. unfold FaceDetectorMethods.calculate_face_score in Hr.
  apply bind_Return_inv in Hr. destruct Hr as (faces & Hfaces & Hr).
  split.
  - intros Hnone. rewrite Hnone in Hfaces. injection Hfaces as <-.
    injection Hr as <-. reflexivity.
  - pose proof (detect_faces_length _ _ _ _ _ Hfaces) as Hcount.
    destruct (List.length faces =? 0)%nat eqn:E.
    + injection Hr as <-. split; vm_compute; reflexivity.
    + apply Nat.eqb_neq in E.
      apply bind_Return_inv in Hr. destruct Hr as (max_score & Hmax & Hr).
      apply bind_Return_inv in Hr. destruct Hr as (extra & Hextra & Hr).
      injection Hr as <-.
      assert (Hm : (max_score <? 0)%float = false).
      { apply leb_zero_not_negative.
        apply (max_face_score_not_negative width height skip_eyes eyes faces
                 0%float max_score); [reflexivity | exact Hmax]. }
      assert (He : (extra <? 0)%float = false).
      { unfold float_of_int in Hextra.
        destruct (is_infinity _); [discriminate | ]. injection Hextra as <-.
        apply Z2F_not_negative. lia. }
      assert (Hsum : (Builtins.min 1 (max_score +
                        Builtins.min 0.15 (extra * 0.075)) <? 0)%float = false).
      { apply min_not_negative; [reflexivity | ].
        apply float_add_not_negative; [exact Hm | ].
        apply min_not_negative; [reflexivity | ].
        apply float_mul_not_negative; [exact He | reflexivity]. }
      assert (Hone : (Builtins.min 1 (max_score +
                        Builtins.min 0.15 (extra * 0.075)) <=? 1)%float = true)
        by (apply min_leb_left; reflexivity).
      split; [exact (not_negative_leb _ _ Hsum Hone) | exact Hone].
Qed.

(** [calculate_face_score_range] on one face of 80 x 80 pixels in a frame
    of 320 x 240: the score is 0.740625. *)
Lemma calculate_face_score_range_witness :
  Samples.face_score = 0.740625%float /\
  (FaceDetector.detect_faces (FaceDetector.__init__ true) 320
     [(100, 60, 80, 80)] [] = Return [] -> Samples.face_score = 0%float) /\
  (0 <=? Samples.face_score)%float = true /\
  (Samples.face_score <=? 1)%float = true.
Proof.
  split; [vm_compute; reflexivity | ].
  apply (calculate_face_score_range (FaceDetector.__init__ true) 320 240
           [(100, 60, 80, 80)] [] true (fun _ => 2)).
  - vm_compute. reflexivity.
  - apply returns_value. vm_compute. reflexivity.
Defined.

(** ** The sharpness scale *)

(** X2.  The sharpness both [calculate_sharpness] and
    [calculate_sharpness_fast] return never exceeds 1.0, whatever the
    variance (a NaN included, which comes out as 1.0), and is at least 0.0
    for a variance that is. *)
Theorem sharpness_normalized_range (variance : float) :
  (MotionAnalyzer.normalized variance <=? 1)%float = true /\
  ((0 <=? variance)%float = true ->
   (0 <=? MotionAnalyzer.normalized variance)%float = true) /\
  ((variance =? variance)%float = false ->
   MotionAnalyzer.normalized variance = 1%float).
Proof.
  unfold MotionAnalyzer.normalized.
  assert (Hone : (Builtins.min 1 (variance / 500) <=? 1)%float = true)
    by (apply min_leb_left; reflexivity).
  split; [exact Hone | split].
  - intros Hv. apply (not_negative_leb _ 1); [ | exact Hone].
    apply min_not_negative; [reflexivity | ].
    apply float_div_not_negative;
      [apply leb_zero_not_negative, Hv | reflexivity].
  - intros Hnan. unfold Builtins.min.
    replace (variance / 500 <? 1)%float with false; [reflexivity | ].
    symmetry. revert Hnan. rewrite FloatAxioms.eqb_spec, ltb_spec, div_spec.
    unfold SF64div, SFdiv, SFeqb, SFltb, SFcompare.
    destruct (Prim2SF variance) as [s | s | | s m e]; try destruct s;
      try discriminate; try reflexivity;
      rewrite Z.compare_refl;
      change (PosDef.Pos.compare_cont Eq m m) with (Pos.compare m m);
      rewrite Pos.compare_refl; discriminate.
Qed.

(** ** Opening and closing a video *)

Lemma low_byte (a r : Z) :
  0 <= a < 256 -> (a + 256 * r) mod 256 = a /\ (a + 256 * r) / 256 = r.
Proof. intros Ha. Z.div_mod_to_equations. lia. Qed.

Lemma chr_of_ascii (a : ascii) : Builtins.chr (Z.of_N (N_of_ascii a)) = a.
Proof. unfold Builtins.chr. rewrite N2Z.id. apply ascii_N_embedding. Qed.

(** X3.  The codec tag [load_video] derives from the FOURCC number is the
    four characters packed into its low 32 bits, lowest byte first; the
    bits above, and with them the sign, are ignored. *)
Theorem codec_of_fourcc_round_trip (a b c d : ascii) (k : Z) :
  VideoAnalyzerMethods.codec_of_fourcc
    (Z.of_N (N_of_ascii a) + 256 * Z.of_N (N_of_ascii b)
     + 65536 * Z.of_N (N_of_ascii c) + 16777216 * Z.of_N (N_of_ascii d)
     + 4294967296 * k)
  = String a (String b (String c (String d EmptyString))).
Proof.
  pose proof (N_ascii_bounded a) as Ha. pose proof (N_ascii_bounded b) as Hb.
  pose proof (N_ascii_bounded c) as Hc. pose proof (N_ascii_bounded d) as Hd.
  rewrite <- (chr_of_ascii a), <- (chr_of_ascii b), <- (chr_of_ascii c),
          <- (chr_of_ascii d) at 2.
  set (A := Z.of_N (N_of_ascii a)) in *. set (B := Z.of_N (N_of_ascii b)) in *.
  set (C := Z.of_N (N_of_ascii c)) in *. set (D := Z.of_N (N_of_ascii d)) in *.
  assert (HA : 0 <= A < 256) by (subst A; lia).
  assert (HB : 0 <= B < 256) by (subst B; lia).
  assert (HC : 0 <= C < 256) by (subst C; lia).
  assert (HD : 0 <= D < 256) by (subst D; lia).
  clearbody A B C D. clear Ha Hb Hc Hd.
  unfold VideoAnalyzerMethods.codec_of_fourcc. cbn [map string_of_list_ascii].
  change 255 with (Z.ones 8).
  rewrite !Z.land_ones, !Z.shiftr_div_pow2 by lia.
  change (2 ^ (8 * 0)) with 1. change (2 ^ (8 * 1)) with 256.
  change (2 ^ (8 * 2)) with (256 * 256).
  change (2 ^ (8 * 3)) with (256 * 256 * 256). change (2 ^ 8) with 256.
  rewrite Z.div_1_r, <- !Z.div_div by lia.
  replace (A + 256 * B + 65536 * C + 16777216 * D + 4294967296 * k)
    with (A + 256 * (B + 256 * (C + 256 * (D + 256 * k)))) by lia.
  destruct (low_byte A (B + 256 * (C + 256 * (D + 256 * k))) HA) as (-> & ->).
  destruct (low_byte B (C + 256 * (D + 256 * k)) HB) as (-> & ->).
  destruct (low_byte C (D + 256 * k) HC) as (-> & ->).
  destruct (low_byte D k HD) as (-> & _).
  reflexivity.
Qed.

Section Lifecycle.

Context `{Cv2} `{VideoFiles}.



End Lifecycle.


(** ** Frame access *)

Section FrameAccess.

Context `{Cv2}.

(** X5.  [create_manual_frame] returns a frame exactly for the positions
    [get_frame_at_position] decodes, which lie in [0, frame_count).  With a
    frame rate of 0 it raises [ZeroDivisionError] there ([OverflowError]
    for a number too large for a float).  The frame it
    returns is marked manual, carries the requested number and the decoded
    image, the scores [score_frame] gives that image under the current
    weights, their total as its score, and [frame_number / fps] as its
    timestamp. *)
Theorem create_manual_frame_spec (self : VideoAnalyzer.t) (frame_number : Z) :
  match VideoAnalyzer.get_frame_at_position self frame_number with
  | None =>
      VideoAnalyzerMethods.create_manual_frame self frame_number = Return None
  | Some frame =>
      exists info,
        VideoAnalyzer.video_info self = Some info /\
        0 <= frame_number < VideoAnalyzer.frame_count info /\
        VideoAnalyzerMethods.create_manual_frame self frame_number
          <> Return None /\
        ((VideoAnalyzer.fps info =? 0)%float = true ->
         VideoAnalyzerMethods.create_manual_frame self frame_number
         = match float_of_int frame_number with
           | Return _ => Raise ZeroDivisionError
           | _ => Raise OverflowError
           end) /\
        forall sf,
          VideoAnalyzerMethods.create_manual_frame self frame_number
            = Return (Some sf) ->
          VideoAnalyzer.frame_number sf = frame_number /\
          VideoAnalyzer.image sf = frame /\
          VideoAnalyzer.is_manual sf = true /\
          VideoAnalyzer.score_details sf
            = FrameScorer.score_frame (VideoAnalyzer.frame_scorer self) frame /\
          VideoAnalyzer.score sf
            = FrameScorer.total_score (VideoAnalyzer.score_details sf) /\
          exists n, float_of_int frame_number = Return n /\
                    VideoAnalyzer.timestamp sf = (n / VideoAnalyzer.fps info)%float
  end.
Proof.
  unfold VideoAnalyzerMethods.create_manual_frame.
  destruct (VideoAnalyzer.get_frame_at_position self frame_number)
    as [frame | ] eqn:Hf; [ | reflexivity].
  unfold VideoAnalyzer.get_frame_at_position in Hf.
  destruct (VideoAnalyzer.video_capture self) as [cap | ]; [ | discriminate].
  destruct (VideoAnalyzer.video_info self) as [info | ]; [ | discriminate].
  destruct ((frame_number <? 0) || (VideoAnalyzer.frame_count info <=? frame_number))
    eqn:Hrange; [discriminate | ].
  apply orb_false_iff in Hrange. destruct Hrange as (Hlo & Hhi).
  apply Z.ltb_ge in Hlo. apply Z.leb_gt in Hhi.
  exists info. split; [reflexivity | ]. split; [lia | ].
  unfold float_of_int, truediv. cbn [bind].
  destruct (is_infinity (Z2F frame_number)); cbn [bind].
  - split; [discriminate | ]. split; [reflexivity | discriminate].
  - destruct (VideoAnalyzer.fps info =? 0)%float; cbn [bind].
    + split; [discriminate | ]. split; [reflexivity | discriminate].
    + split; [discriminate | ]. split; [discriminate | ].
      intros sf E. injection E as <-. cbn.
      repeat split. exists (Z2F frame_number). split; reflexivity.
Qed.

End FrameAccess.

(** ** The frame iterator *)

(** The members of [range(start, stop, step)]: the numbers between
    [start], included, and [stop], excluded, that lie a multiple of [step]
    away from [start]. *)
Lemma range_In (start stop step n : Z) (l : list Z) :
  Builtins.range start stop step = Return l ->
  In n l <->
  (n - start) mod step = 0 /\
  ((0 < step /\ start <= n < stop) \/ (step < 0 /\ stop < n <= start)).
Proof.
  unfold Builtins.range.
  destruct (step =? 0) eqn:Hz; [discriminate | ]. apply Z.eqb_neq in Hz.
  intros Hl.
  destruct (0 <? step) eqn:Hs; cbv beta iota zeta in Hl; injection Hl as <-;
    rewrite in_map_iff; setoid_rewrite in_seq.
  - apply Z.ltb_lt in Hs. destruct (start <? stop) eqn:Hlt.
    + apply Z.ltb_lt in Hlt.
      assert (Hq : 0 <= (stop - start - 1) / step)
        by (apply Z.div_pos; lia).
      split.
      * intros (i & <- & Hi).
        replace (start + Z.of_nat i * step - start) with (Z.of_nat i * step)
          by lia.
        split; [apply Z_mod_mult | left].
        assert (Hi' : Z.of_nat i <= (stop - start - 1) / step) by lia.
        pose proof (Z.mul_div_le (stop - start - 1) step Hs). nia.
      * intros (Hmod & [(_ & Hn) | Hneg]); [ | lia].
        apply Z_div_exact_full_2 in Hmod; [ | lia].
        exists (Z.to_nat ((n - start) / step)).
        assert (Hk : 0 <= (n - start) / step) by (apply Z.div_pos; lia).
        rewrite Z2Nat.id by exact Hk.
        split; [lia | ].
        assert ((n - start) / step <= (stop - start - 1) / step)
          by (apply Z.div_le_mono; lia).
        lia.
    + apply Z.ltb_ge in Hlt. split.
      * intros (i & _ & Hi). simpl in Hi. lia.
      * intros (_ & [Hpos | Hneg]); lia.
  - apply Z.ltb_ge in Hs. assert (Hneg : step < 0) by lia. clear Hs.
    destruct (stop <? start) eqn:Hlt.
    + apply Z.ltb_lt in Hlt.
      assert (Hq : 0 <= (start - stop - 1) / - step)
        by (apply Z.div_pos; lia).
      split.
      * intros (i & <- & Hi).
        replace (start + Z.of_nat i * step - start) with (Z.of_nat i * step)
          by lia.
        split; [apply Z_mod_mult | right].
        assert (Hi' : Z.of_nat i <= (start - stop - 1) / - step) by lia.
        pose proof (Z.mul_div_le (start - stop - 1) (- step) ltac:(lia)). nia.
      * intros (Hmod & [Hpos | (_ & Hn)]); [lia | ].
        apply Z_div_exact_full_2 in Hmod; [ | lia].
        assert (Hopp : (start - n) / - step = (n - start) / step).
        { replace (start - n) with (- (n - start)) by lia.
          apply Z.div_opp_opp. lia. }
        exists (Z.to_nat ((start - n) / - step)).
        assert (Hk : 0 <= (start - n) / - step) by (apply Z.div_pos; lia).
        rewrite Z2Nat.id by exact Hk.
        split; [rewrite Hopp; lia | ].
        assert ((start - n) / - step <= (start - stop - 1) / - step)
          by (apply Z.div_le_mono; lia).
        lia.
    + apply Z.ltb_ge in Hlt. split.
      * intros (i & _ & Hi). simpl in Hi. lia.
      * intros (_ & [Hpos | Hn]); lia.
Qed.

Lemma range_returns (start stop step : Z) :
  (step =? 0) = false -> exists l, Builtins.range start stop step = Return l.
Proof.
  intros Hz. unfold Builtins.range. rewrite Hz.
  destruct (0 <? step); eexists; reflexivity.
Qed.

(** The numbers of a range come in the direction of the step. *)
Lemma range_sorted (start stop step : Z) (l : list Z) :
  Builtins.range start stop step = Return l ->
  StronglySorted (fun a b => 0 < (b - a) * step) l.
Proof.
  unfold Builtins.range.
  destruct (step =? 0) eqn:Hz; [discriminate | ]. apply Z.eqb_neq in Hz.
  intros Hl.
  assert (Hprog : exists n,
            l = map (fun i => start + Z.of_nat i * step) (seq 0 n)).
  { destruct (0 <? step); cbv beta iota zeta in Hl; injection Hl as <-;
      eexists; reflexivity. }
  destruct Hprog as (n & ->). clear Hl. generalize 0%nat.
  induction n as [ | n IH]; intros a; simpl; constructor; [apply IH | ].
  apply Forall_forall. intros x Hx.
  apply in_map_iff in Hx. destruct Hx as (k & <- & Hk). apply in_seq in Hk.
  nia.
Qed.

Section FrameIterator.

Context `{Cv2}.

Lemma yielded_In (self : VideoAnalyzer.t) (frame_nums : list Z) (n : Z)
  (frame : Frame) :
  In (n, frame)
     (flat_map (fun frame_num =>
                  match VideoAnalyzer.get_frame_at_position self frame_num with
                  | Some frame => [(frame_num, frame)]
                  | None => []
                  end) frame_nums) <->
  In n frame_nums /\ VideoAnalyzer.get_frame_at_position self n = Some frame.
Proof.
  rewrite in_flat_map. split.
  - intros (m & Hm & Hin).
    destruct (VideoAnalyzer.get_frame_at_position self m) as [f | ] eqn:Hf;
      [ | contradiction].
    destruct Hin as [E | []]. injection E as <- <-. split; assumption.
  - intros (Hn & Hf). exists n. split; [exact Hn | ]. rewrite Hf. left; reflexivity.
Qed.

Lemma yielded_sorted (R : Z -> Z -> Prop) (self : VideoAnalyzer.t)
  (frame_nums : list Z) :
  StronglySorted R frame_nums ->
  StronglySorted R
    (map fst
       (flat_map (fun frame_num =>
                    match VideoAnalyzer.get_frame_at_position self frame_num with
                    | Some frame => [(frame_num, frame)]
                    | None => []
                    end) frame_nums)).
Proof.
  induction 1 as [ | m rest Hrest IH Hm]; simpl; [constructor | ].
  destruct (VideoAnalyzer.get_frame_at_position self m) as [f | ]; simpl;
    [ | exact IH].
  constructor; [exact IH | ].
  apply Forall_forall. intros x Hx. apply in_map_iff in Hx.
  destruct Hx as ((n & fr) & <- & Hin). apply yielded_In in Hin.
  rewrite Forall_forall in Hm. apply Hm, Hin.
Qed.

(** X6.  On a loaded video [frame_iterator] raises [ValueError] for a
    step of 0 and otherwise yields, in the direction of the step and each
    once, exactly the frames that decode at the numbers of
    [range(start, end, step)], [end] defaulting to the frame count: a
    yielded number lies in [0, frame_count), between [start] (included)
    and [end] (excluded), a multiple of [step] away from [start], and
    comes with the frame [get_frame_at_position] decodes there. *)
Theorem frame_iterator_spec (self : VideoAnalyzer.t)
  (cap : Capture Frame) (info : VideoAnalyzer.VideoInfo)
  (start step : Z) (end_ : option Z) :
  VideoAnalyzer.video_capture self = Some cap ->
  VideoAnalyzer.video_info self = Some info ->
  let stop := match end_ with
              | None => VideoAnalyzer.frame_count info
              | Some e => e
              end in
  if step =? 0
  then VideoAnalyzerMethods.frame_iterator self start end_ step = Raise ValueError
  else
    exists yielded,
      VideoAnalyzerMethods.frame_iterator self start end_ step = Return yielded /\
      (forall n frame,
         In (n, frame) yielded <->
         VideoAnalyzer.get_frame_at_position self n = Some frame /\
         (n - start) mod step = 0 /\
         ((0 < step /\ start <= n < stop) \/ (step < 0 /\ stop < n <= start))) /\
      Forall (fun y => 0 <= fst y < VideoAnalyzer.frame_count info) yielded /\
      StronglySorted (fun a b => 0 < (b - a) * step) (map fst yielded).
Proof.
  intros Hcap Hinfo stop. unfold VideoAnalyzerMethods.frame_iterator.
  rewrite Hcap, Hinfo. fold stop.
  destruct (step =? 0) eqn:Hz;
    [unfold Builtins.range; rewrite Hz; reflexivity | ].
  destruct (range_returns start stop step Hz) as (frame_nums & Hrange).
  rewrite Hrange. cbn [bind].
  eexists. split; [reflexivity | ]. split; [ | split].
  - intros n frame. rewrite yielded_In, (range_In _ _ _ _ _ Hrange). tauto.
  - apply Forall_forall. intros (n & frame) Hin. apply yielded_In in Hin.
    destruct Hin as (_ & Hf). cbn [fst].
    unfold VideoAnalyzer.get_frame_at_position in Hf.
    rewrite Hcap, Hinfo in Hf.
    destruct ((n <? 0) || (VideoAnalyzer.frame_count info <=? n)) eqn:E;
      [discriminate | ].
    apply orb_false_iff in E. destruct E as (Hlo & Hhi).
    apply Z.ltb_ge in Hlo. apply Z.leb_gt in Hhi. lia.
  - apply yielded_sorted. exact (range_sorted _ _ _ _ Hrange).
Qed.

End FrameIterator.

(** [frame_iterator_spec] on the synthetic video, every 25th frame from 90
    down to 0 (excluded): 75 and 25 are yielded, 50 does not decode. *)
Lemma frame_iterator_spec_witness :
  map fst (value_or [] (@VideoAnalyzerMethods.frame_iterator Fixture.cv2
                          Fixture.loaded 100 (Some 0) (-25))) = [75; 25] /\
  exists yielded,
    @VideoAnalyzerMethods.frame_iterator Fixture.cv2 Fixture.loaded 100 (Some 0)
      (-25) = Return yielded /\
    (forall n frame,
       In (n, frame) yielded <->
       @VideoAnalyzer.get_frame_at_position Fixture.cv2 Fixture.loaded n
         = Some frame /\
       (n - 100) mod (-25) = 0 /\
       ((0 < -25 /\ 100 <= n < 0) \/ (-25 < 0 /\ 0 < n <= 100))) /\
    Forall (fun y => 0 <= fst y < VideoAnalyzer.frame_count Fixture.info) yielded /\
    StronglySorted (fun a b => 0 < (b - a) * (-25)) (map fst yielded).
Proof.
  split; [vm_compute; reflexivity | ].
  exact (@frame_iterator_spec Fixture.cv2 Fixture.loaded
           (@VideoCapture Fixture.cv2 "talk.mp4") Fixture.info 100 (-25) (Some 0)
           eq_refl eq_refl).
Defined.

(** ** Selection from a list of frames *)

Lemma Forall_ForallOrdPairs {A : Type} (P : A -> Prop) (R : A -> A -> Prop)
  (l : list A) :
  (forall a b, P a -> P b -> R a b) -> Forall P l -> ForallOrdPairs R l.
Proof.
  intros HR Hl. induction Hl as [ | x t Hx Ht IH]; constructor; [ | exact IH].
  revert Ht. apply Forall_impl. intros b Hb. exact (HR _ _ Hx Hb).
Qed.

(** Between two numbers, one is below the other or at least as large. *)
Lemma float_not_ltb_leb (x y : float) :
  (x =? x)%float = true -> (y =? y)%float = true ->
  (x <? y)%float = false -> (y <=? x)%float = true.
Proof.
  rewrite !FloatAxioms.eqb_spec, ltb_spec, leb_spec.
  unfold SFeqb, SFltb, SFleb, SFcompare.
  destruct (Prim2SF x) as [sx | sx | | sx mx ex],
           (Prim2SF y) as [sy | sy | | sy my ey]; sf_cases.
Qed.

Lemma float_eqb_leb (x y : float) :
  (x =? y)%float = true -> (x <=? y)%float = true.
Proof.
  rewrite FloatAxioms.eqb_spec, leb_spec. unfold SFeqb, SFleb.
  destruct (SFcompare (Prim2SF x) (Prim2SF y)) as [[ | | ] | ];
    try discriminate; reflexivity.
Qed.

(** Sorting by score, best first, puts no frame behind one of a lower
    score, the scores being numbers. *)
Lemma sort_desc_sorted {A : Type} (key : A -> float) (l : list A) :
  Forall (fun a => (key a =? key a)%float = true) l ->
  StronglySorted (fun a b => (key b <=? key a)%float = true)
    (stable_sort (fun y x => (key x <? key y)%float) l).
Proof.
  intros Hnum. apply stable_sort_sorted.
  - intros x y z Hxy Hyz. exact (float_leb_trans _ _ _ Hyz Hxy).
  - apply Forall_ForallOrdPairs
      with (P := fun a => (key a =? key a)%float = true); [ | exact Hnum].
    intros a b Ha Hb. split; intros E.
    + apply float_ltb_leb, E.
    + apply float_not_ltb_leb; assumption.
Qed.

(** *** Positions in a list *)

Lemma precedes_In {A : Type} (l : list A) (a b : A) :
  precedes l a b -> In a l /\ In b l.
Proof.
  induction l as [ | h t IH]; simpl; [intros [] | ].
  intros [(-> & Hb) | Hp].
  - split; [left; reflexivity | right; exact Hb].
  - destruct (IH Hp) as (Ha & Hb). split; right; assumption.
Qed.

Lemma precedes_app {A : Type} (l1 l2 : list A) (a b : A) :
  precedes (l1 ++ l2) a b <->
  precedes l1 a b \/ (In a l1 /\ In b l2) \/ precedes l2 a b.
Proof.
  induction l1 as [ | h t IH]; simpl.
  - split; [intros Hp; right; right; exact Hp | ].
    intros [[] | [([] & _) | Hp]]; exact Hp.
  - rewrite IH, in_app_iff. split.
    + intros [(-> & [Hb | Hb]) | [Hp | [(Ha & Hb) | Hp]]].
      * left; left. split; [reflexivity | exact Hb].
      * right; left. split; [left; reflexivity | exact Hb].
      * left; right; exact Hp.
      * right; left. split; [right; exact Ha | exact Hb].
      * right; right; exact Hp.
    + intros [[(-> & Hb) | Hp] | [([-> | Ha] & Hb) | Hp]].
      * left. split; [reflexivity | left; exact Hb].
      * right; left; exact Hp.
      * left. split; [reflexivity | right; exact Hb].
      * right; right; left. split; assumption.
      * right; right; right; exact Hp.
Qed.

(** In a list without repetition no element stands before itself, and no
    two stand before each other. *)
Lemma precedes_NoDup {A : Type} (l : list A) (a b : A) :
  NoDup l -> precedes l a b -> precedes l b a -> False.
Proof.
  induction l as [ | h t IH]; simpl; [intros _ [] | ].
  intros Hnd. apply NoDup_cons_iff in Hnd. destruct Hnd as (Hh & Hnd).
  intros [(-> & Hb) | Hab] [(E & Ha) | Hba].
  - subst b. contradiction.
  - apply Hh. exact (proj2 (precedes_In _ _ _ Hba)).
  - subst h. apply Hh. exact (proj2 (precedes_In _ _ _ Hab)).
  - exact (IH Hnd Hab Hba).
Qed.

Lemma precedes_sorted {A : Type} (R : A -> A -> Prop) (l : list A) (a b : A) :
  StronglySorted R l -> precedes l a b -> R a b.
Proof.
  induction 1 as [ | h t _ IH Hh]; simpl; [intros [] | ].
  intros [(-> & Hb) | Hp]; [ | exact (IH Hp)].
  rewrite Forall_forall in Hh. exact (Hh b Hb).
Qed.

Lemma precedes_map {A B : Type} (f : A -> B) (l : list A) (a b : A) :
  precedes l a b -> precedes (map f l) (f a) (f b).
Proof.
  induction l as [ | h t IH]; simpl; [intros [] | ].
  intros [(-> & Hb) | Hp]; [left | right; exact (IH Hp)].
  split; [reflexivity | apply in_map, Hb].
Qed.

(** *** Stability of the sort

    An element is inserted behind elements strictly ahead of it only; so
    whatever stands before another after sorting was strictly ahead of
    it or stood before it already. *)
Lemma insert_by_split {A : Type} (before : A -> A -> bool) (x : A)
  (l : list A) :
  exists l1 l2,
    l = l1 ++ l2 /\ insert_by before x l = l1 ++ x :: l2 /\
    Forall (fun y => before y x = true) l1.
Proof.
  induction l as [ | y t IH]; simpl.
  - exists [], []. repeat split. constructor.
  - destruct (before y x) eqn:E.
    + destruct IH as (l1 & l2 & -> & -> & Hl1).
      exists (y :: l1), l2. repeat split. constructor; assumption.
    + exists [], (y :: t). repeat split. constructor.
Qed.

Lemma stable_sort_precedes {A : Type} (before : A -> A -> bool)
  (l : list A) (a b : A) :
  precedes (stable_sort before l) a b ->
  before a b = true \/ precedes l a b.
Proof.
  revert a b; induction l as [ | x t IH]; intros a b; [intros [] | ].
  change (stable_sort before (x :: t))
    with (insert_by before x (stable_sort before t)).
  destruct (insert_by_split before x (stable_sort before t))
    as (l1 & l2 & Hsorted & -> & Hl1).
  assert (Hin : forall y, In y (l1 ++ l2) -> In y t).
  { intros y Hy. rewrite <- Hsorted in Hy.
    exact (Permutation_in _ (stable_sort_perm before t) Hy). }
  assert (Hrest : precedes (l1 ++ l2) a b -> before a b = true \/
                                             precedes (x :: t) a b).
  { rewrite <- Hsorted. intros Hp.
    destruct (IH _ _ Hp) as [Hb | Ht]; [left; exact Hb | right; right; exact Ht]. }
  rewrite precedes_app. simpl.
  intros [Hp | [(Ha & [<- | Hb]) | [(<- & Hb) | Hp]]].
  - apply Hrest, precedes_app. left; exact Hp.
  - left. rewrite Forall_forall in Hl1. exact (Hl1 a Ha).
  - apply Hrest, precedes_app. right; left. split; assumption.
  - right; left. split; [reflexivity | ].
    apply Hin, in_or_app. right; exact Hb.
  - apply Hrest, precedes_app. right; right; exact Hp.
Qed.

(** Of two numbers in order, one is below the other or they are equal. *)
Lemma float_leb_cases (x y : float) :
  (x <=? y)%float = true -> (x <? y)%float = true \/ (x =? y)%float = true.
Proof.
  rewrite leb_spec, ltb_spec, FloatAxioms.eqb_spec.
  unfold SFleb, SFltb, SFeqb.
  destruct (SFcompare (Prim2SF x) (Prim2SF y)) as [[ | | ] | ];
    try discriminate; intros _; [right | left]; reflexivity.
Qed.

(** After sorting by score, best first, whatever stands before another
    scores higher, or scores the same and stood before it already: ties
    keep their order.  This determines the sorted list, whichever stable
    sorting procedure produces it. *)
Lemma sort_desc_precedes {A : Type} (key : A -> float) (l : list A) (a b : A) :
  Forall (fun x => (key x =? key x)%float = true) l ->
  precedes (stable_sort (fun y x => (key x <? key y)%float) l) a b ->
  (key b <? key a)%float = true \/
  ((key b =? key a)%float = true /\ precedes l a b).
Proof.
  intros Hnum Hp.
  destruct (stable_sort_precedes _ _ _ _ Hp) as [Hlt | Hl]; [left; exact Hlt | ].
  pose proof (precedes_sorted _ _ _ _ (sort_desc_sorted key l Hnum) Hp) as Hle.
  cbv beta in Hle.
  destruct (float_leb_cases _ _ Hle) as [Hlt | Heq];
    [left; exact Hlt | right; split; assumption].
Qed.

(** Two elements cannot each rank before the other. *)
Lemma rank_asym (x y : float) (P Q : Prop) :
  (P -> Q -> False) ->
  (y <? x)%float = true \/ ((y =? x)%float = true /\ P) ->
  (x <? y)%float = true \/ ((x =? y)%float = true /\ Q) ->
  False.
Proof.
  intros HPQ [Hyx | (Eyx & HP)] [Hxy | (Exy & HQ)].
  - rewrite (float_ltb_asym _ _ Hyx) in Hxy. discriminate.
  - apply float_eqb_leb in Exy. rewrite (float_ltb_not_leb _ _ Hyx) in Exy.
    discriminate.
  - apply float_eqb_leb in Eyx. rewrite (float_ltb_not_leb _ _ Hxy) in Eyx.
    discriminate.
  - exact (HPQ HP HQ).
Qed.

Lemma precedes_StronglySorted {A : Type} (R : A -> A -> Prop) (l : list A) :
  (forall a b, precedes l a b -> R a b) -> StronglySorted R l.
Proof.
  induction l as [ | h t IH]; intros HR; constructor.
  - apply IH. intros a b Hp. apply HR. right; exact Hp.
  - apply Forall_forall. intros b Hb. apply HR. left.
    split; [reflexivity | exact Hb].
Qed.

(** The outcome of the sort does not depend on the sorting procedure,
    the scores being numbers: an arrangement of the (distinct) elements
    in which whatever stands before another scores higher, or scores the
    same and stood before it, is the list [stable_sort] computes.  A
    stable sort, which [list.sort] is, returns such an arrangement. *)
Lemma sort_desc_unique {A : Type} (key : A -> float) (l sorted : list A) :
  NoDup l ->
  Forall (fun x => (key x =? key x)%float = true) l ->
  Permutation sorted l ->
  (forall a b, precedes sorted a b ->
     (key b <? key a)%float = true \/
     ((key b =? key a)%float = true /\ precedes l a b)) ->
  sorted = stable_sort (fun y x => (key x <? key y)%float) l.
Proof.
  intros Hnd Hnum Hperm Hsorted.
  apply (sorted_perm_unique
           (fun a b => (key b <? key a)%float = true \/
                       ((key b =? key a)%float = true /\ precedes l a b))).
  - intros a b Hab Hba.
    exact (rank_asym (key a) (key b) _ _
             (fun P Q => precedes_NoDup l a b Hnd P Q) Hab Hba).
  - apply precedes_StronglySorted. exact Hsorted.
  - apply precedes_StronglySorted. intros a b.
    apply sort_desc_precedes. exact Hnum.
  - rewrite Hperm. symmetry. apply stable_sort_perm.
Qed.

Section FindBestFrames.

Context `{Cv2}.

Local Abbreviation fn := FrameScorerMethods.scored_frame_num.












End FindBestFrames.


(** ** The greedy pick of the analysis *)

Lemma Forall2_in_l_exists {A B : Type} (Q : A -> B -> Prop) (l : list A)
  (r : list B) :
  Forall2 Q l r -> forall x, In x l -> exists y, In y r /\ Q x y.
Proof.
  induction 1 as [ | a b l r Hab _ IH]; intros x Hx; [destruct Hx | ].
  destruct Hx as [<- | Hx].
  - exists b. split; [left; reflexivity | exact Hab].
  - destruct (IH x Hx) as (y & Hy & Hxy). exists y. split; [right | ]; assumption.
Qed.

Section Greedy.

Context `{Cv2}.

Local Abbreviation num := VideoAnalyzer.scored_frame_num.

Lemma too_close_true (gap n : Z) (selected : list VideoAnalyzer.scored) :
  VideoAnalyzer.too_close gap n selected = true ->
  exists s, In s selected /\ Z.abs (n - num s) < gap.
Proof.
  induction selected as [ | s rest IH]; simpl; intros Hc; [discriminate | ].
  destruct (Z.abs (n - num s) <? gap) eqn:E.
  - apply Z.ltb_lt in E. exists s. split; [left; reflexivity | exact E].
  - destruct (IH Hc) as (s' & Hin & Hs'). exists s'. split; [right | ]; assumption.
Qed.

Lemma select_prefix (check : Z -> Z -> list VideoAnalyzer.scored -> bool)
  (num_frames gap : Z) (l selected : list VideoAnalyzer.scored) :
  exists more,
    VideoAnalyzer.select check num_frames gap l selected = selected ++ more.
Proof.
  revert selected; induction l as [ | c rest IH]; simpl; intros selected.
  - exists []. rewrite app_nil_r. reflexivity.
  - destruct (num_frames <=? Z.of_nat (List.length selected));
      [exists []; rewrite app_nil_r; reflexivity | ].
    destruct (check gap (num c) selected); [apply IH | ].
    destruct (IH (selected ++ [c])) as (more & ->).
    exists (c :: more). rewrite <- app_assoc. reflexivity.
Qed.

(** The frame ranked first is picked whenever a frame is asked for. *)
Lemma select_head (num_frames gap : Z) (h : VideoAnalyzer.scored)
  (rest : list VideoAnalyzer.scored) :
  1 <= num_frames ->
  In h (VideoAnalyzer.select VideoAnalyzer.too_close num_frames gap (h :: rest) []).
Proof.
  intros Hn. simpl.
  destruct (num_frames <=? 0) eqn:Q; [apply Z.leb_le in Q; lia | ].
  destruct (select_prefix VideoAnalyzer.too_close num_frames gap rest [h])
    as (more & ->).
  left; reflexivity.
Qed.

Lemma select_app (check : Z -> Z -> list VideoAnalyzer.scored -> bool)
  (num_frames gap : Z) (l1 l2 selected : list VideoAnalyzer.scored) :
  VideoAnalyzer.select check num_frames gap (l1 ++ l2) selected
  = VideoAnalyzer.select check num_frames gap l2
      (VideoAnalyzer.select check num_frames gap l1 selected).
Proof.
  revert selected; induction l1 as [ | x l1 IH]; intros selected; [reflexivity | ].
  cbn [app VideoAnalyzer.select].
  destruct (num_frames <=? Z.of_nat (List.length selected)) eqn:Q.
  - destruct l2 as [ | y l2]; [reflexivity | ].
    cbn [VideoAnalyzer.select]. rewrite Q. reflexivity.
  - destruct (check gap (num x) selected); apply IH.
Qed.

Lemma select_NoDup (check : Z -> Z -> list VideoAnalyzer.scored -> bool)
  (num_frames gap : Z) (l selected : list VideoAnalyzer.scored) :
  NoDup (map num (selected ++ l)) ->
  NoDup (map num (VideoAnalyzer.select check num_frames gap l selected)).
Proof.
  revert selected; induction l as [ | x rest IH]; intros selected Hnd.
  - rewrite app_nil_r in Hnd. exact Hnd.
  - cbn [VideoAnalyzer.select].
    destruct (num_frames <=? Z.of_nat (List.length selected)).
    + rewrite map_app in Hnd. exact (NoDup_app_remove_r _ _ Hnd).
    + destruct (check gap (num x) selected).
      * apply IH. rewrite map_app in Hnd |- *. cbn [map] in Hnd.
        exact (NoDup_remove_1 _ _ _ Hnd).
      * apply IH. rewrite <- app_assoc. exact Hnd.
Qed.

(** The sampled positions come in strictly ascending order, whatever the
    frame rate. *)
Lemma sample_positions_ascending (fuel : nat) (info : VideoAnalyzer.VideoInfo)
  (num_samples : Z) (min_interval_sec : float) (positions : list Z) :
  VideoAnalyzer._calculate_sample_positions fuel (Some info) num_samples
    min_interval_sec = Return positions ->
  StronglySorted Z.lt positions.
Proof.
  intros Hpos.
  destruct (sample_positions_returns _ _ _ _ _ Hpos)
    as (start & mif & n & _ & _ & _ & Hl & Hbelow & Hbeyond).
  cbv zeta in Hl, Hbelow, Hbeyond.
  set (step := Z.max mif (VideoAnalyzer.frame_count info / num_samples)) in *.
  subst positions. destruct n as [ | n]; [constructor | ].
  apply progression_sorted.
  pose proof (Hbelow 0%nat ltac:(lia)) as Hb. nia.
Qed.

Lemma sorted_lt_NoDup (l : list Z) : StronglySorted Z.lt l -> NoDup l.
Proof.
  induction 1 as [ | x t _ IH Hx]; constructor; [ | exact IH].
  intros Hin. rewrite Forall_forall in Hx. specialize (Hx x Hin). lia.
Qed.

Lemma NoDup_map_eq {A B : Type} (f : A -> B) (l : list A) (a b : A) :
  NoDup (map f l) -> In a l -> In b l -> f a = f b -> a = b.
Proof.
  induction l as [ | h t IH]; simpl; [intros _ [] | ].
  intros Hnd. apply NoDup_cons_iff in Hnd. destruct Hnd as (Hh & Hnd).
  intros [-> | Ha] [-> | Hb] E.
  - reflexivity.
  - elim Hh. rewrite E. apply in_map, Hb.
  - elim Hh. rewrite <- E. apply in_map, Ha.
  - exact (IH Hnd Ha Hb E).
Qed.

(** X9.  The serial analysis is greedy by score over the candidates, the
    sampled frames that passed the pre-filter, their scores being numbers.
    A candidate ranks before another if it scores higher, or scores the
    same and is the earlier frame.  A candidate is returned exactly when
    fewer than [num_frames] of the returned candidates rank before it and
    each of those lies at least the minimum interval away from it.
    Hence, at least one frame being asked for, the candidate ranked first
    is returned: no candidate scores above every returned frame, and the
    result is empty only when there is no candidate. *)
Theorem analyze_video_greedy
  (fuel : nat) (self : VideoAnalyzer.t) (num_frames : Z)
  (cap : Capture Frame) (info : VideoAnalyzer.VideoInfo)
  (target_samples min_interval_sec : Z) (positions : list Z)
  (result : list VideoAnalyzer.SelectedFrame) (c : VideoAnalyzer.scored) :
  VideoAnalyzer.video_capture self = Some cap ->
  VideoAnalyzer.video_info self = Some info ->
  VideoAnalyzer._get_sampling_config (Some info)
    = (target_samples, min_interval_sec) ->
  VideoAnalyzer._calculate_sample_positions fuel (Some info) target_samples
    (Z2F min_interval_sec) = Return positions ->
  VideoAnalyzer.analyze_video fuel self num_frames = Return result ->
  let candidates :=
    VideoAnalyzer.score_candidates self (VideoAnalyzer.prefilter self positions) in
  Forall (fun s => (VideoAnalyzer.scored_total s
                    =? VideoAnalyzer.scored_total s)%float = true)
         candidates ->
  In c candidates ->
  exists apart : Z,
    int (VideoAnalyzer.fps info * 30)%float = Return apart /\
    let gap := Z.max apart (VideoAnalyzer.frame_count info / (num_frames * 2)) in
    let returned (s : VideoAnalyzer.scored) :=
      exists sf, In sf result /\
                 VideoAnalyzer.to_selected_frame info s = Return sf in
    let ranks_before_c (s : VideoAnalyzer.scored) :=
      (VideoAnalyzer.scored_total c <? VideoAnalyzer.scored_total s)%float = true \/
      ((VideoAnalyzer.scored_total c =? VideoAnalyzer.scored_total s)%float = true /\
       num s < num c) in
    (exists chosen : list VideoAnalyzer.scored,
        NoDup (map num chosen) /\
        (forall s, In s chosen <->
                   In s candidates /\ returned s /\ ranks_before_c s) /\
        (returned c <->
         Z.of_nat (List.length chosen) < num_frames /\
         forall s, In s chosen -> gap <= Z.abs (num c - num s))) /\
    (1 <= num_frames ->
     exists best,
       In best result /\
       (VideoAnalyzer.scored_total c <=? VideoAnalyzer.score best)%float = true).
Proof.
  intros Hcap Hinfo Hcfg Hpos Hr candidates Hnum Hc.
  destruct (analyze_video_inv _ _ _ _ _ _ Hcap Hinfo Hr)
    as (target' & mi' & positions' & Hcfg' & Hpos' & Hbest).
  rewrite Hcfg in Hcfg'. injection Hcfg' as <- <-.
  rewrite Hpos in Hpos'. injection Hpos' as <-.
  destruct (select_best_inv _ _ _ _ _ Hbest) as (apart & Hapart & _ & Hconv).
  exists apart. split; [exact Hapart | ].
  intros gap returned ranks_before_c.
  cbv zeta in Hconv. fold candidates in Hconv.
  change (Z.max apart (VideoAnalyzer.frame_count info / (num_frames * 2)))
    with gap in Hconv.
  set (ranking := VideoAnalyzer.sort_by_score_desc candidates) in *.
  set (picked := VideoAnalyzer.select VideoAnalyzer.too_close num_frames gap
                   ranking []) in *.
  unfold VideoAnalyzer.sort_by_frame_num in Hconv.
  assert (Hsortedc : StronglySorted Z.lt (map num candidates)).
  { apply scored_frame_nums_sorted.
    exact (sample_positions_ascending _ _ _ _ _ Hpos). }
  assert (Hndc : NoDup (map num candidates)) by apply sorted_lt_NoDup, Hsortedc.
  assert (Hperm : Permutation ranking candidates) by apply stable_sort_perm.
  assert (Hndr : NoDup (map num ranking)).
  { apply (Permutation_NoDup (Permutation_map num (Permutation_sym Hperm))).
    exact Hndc. }
  assert (Hndrank : NoDup ranking) by exact (NoDup_map_inv _ _ Hndr).
  assert (Hrank : forall s t, precedes ranking s t ->
            (VideoAnalyzer.scored_total t <? VideoAnalyzer.scored_total s)%float
            = true \/
            ((VideoAnalyzer.scored_total t =? VideoAnalyzer.scored_total s)%float
             = true /\ num s < num t)).
  { intros s t Hst.
    destruct (sort_desc_precedes VideoAnalyzer.scored_total candidates s t
                Hnum Hst) as [Hlt | (Heq & Hp)];
      [left; exact Hlt | right; split; [exact Heq | ]].
    exact (precedes_sorted _ _ _ _ Hsortedc (precedes_map num _ _ _ Hp)). }
  assert (Hpicked_in : forall s, In s picked -> In s candidates).
  { intros s Hs. apply select_incl in Hs. destruct Hs as [[] | Hs].
    exact (Permutation_in _ Hperm Hs). }
  assert (Hsel : forall s, In s picked -> returned s).
  { intros s Hs. apply (Forall2_in_l_exists _ _ _ Hconv).
    eapply Permutation_in; [apply Permutation_sym, stable_sort_perm | exact Hs]. }
  assert (Hret : forall s, In s candidates -> returned s -> In s picked).
  { intros s Hs (sf & Hsf & Hconvs).
    destruct (Forall2_in_r_exists _ _ _ Hconv sf Hsf) as (s' & Hs' & Hconvs').
    apply (Permutation_in _ (stable_sort_perm _ picked)) in Hs'.
    assert (E : s' = s).
    { apply (NoDup_map_eq num candidates);
        [exact Hndc | exact (Hpicked_in _ Hs') | exact Hs | ].
      rewrite <- (proj1 (to_selected_frame_inv _ _ _ Hconvs')).
      exact (proj1 (to_selected_frame_inv _ _ _ Hconvs)). }
    subst s'. exact Hs'. }
  assert (Hcr : In c ranking)
    by (apply (Permutation_in _ (Permutation_sym Hperm)); exact Hc).
  split.
  - destruct (in_split _ _ Hcr) as (before & after & Hsplit).
    set (chosen := VideoAnalyzer.select VideoAnalyzer.too_close num_frames gap
                     before []).
    assert (Hpicked : picked
                      = VideoAnalyzer.select VideoAnalyzer.too_close num_frames
                          gap (c :: after) chosen).
    { unfold picked. rewrite Hsplit. apply select_app. }
    assert (Hchosen : forall s, In s chosen -> In s before).
    { intros s Hs. apply select_incl in Hs. destruct Hs as [[] | Hs]. exact Hs. }
    assert (Hbefore : forall s, In s before -> precedes ranking s c).
    { intros s Hs. rewrite Hsplit. apply precedes_app. right; left.
      split; [exact Hs | left; reflexivity]. }
    assert (Hafter : forall s, In s after -> precedes ranking c s).
    { intros s Hs. rewrite Hsplit. apply precedes_app. right; right.
      left. split; [reflexivity | exact Hs]. }
    assert (Hcb : ~ In c before).
    { intros Hin. exact (precedes_NoDup _ _ _ Hndrank (Hbefore _ Hin)
                           (Hbefore _ Hin)). }
    assert (Hca : ~ In c after).
    { intros Hin. exact (precedes_NoDup _ _ _ Hndrank (Hafter _ Hin)
                           (Hafter _ Hin)). }
    assert (Hchosen_picked : forall s, In s chosen -> In s picked).
    { intros s Hs. rewrite Hpicked.
      destruct (select_prefix VideoAnalyzer.too_close num_frames gap (c :: after)
                  chosen) as (more & ->).
      apply in_or_app. left; exact Hs. }
    exists chosen. split; [ | split].
    + apply select_NoDup. cbn [app].
      rewrite Hsplit, map_app in Hndr. exact (NoDup_app_remove_r _ _ Hndr).
    + intros s. split.
      * intros Hs. split; [ | split].
        -- exact (Hpicked_in _ (Hchosen_picked _ Hs)).
        -- exact (Hsel _ (Hchosen_picked _ Hs)).
        -- exact (Hrank _ _ (Hbefore _ (Hchosen _ Hs))).
      * intros (Hs & Hreturned & Hout).
        pose proof (Hret _ Hs Hreturned) as Hin. rewrite Hpicked in Hin.
        apply select_incl in Hin.
        destruct Hin as [Hin | [<- | Hin]]; [exact Hin | exfalso | exfalso].
        -- apply (rank_asym (VideoAnalyzer.scored_total c)
                    (VideoAnalyzer.scored_total c)
                    (num c < num c) (num c < num c)); [lia | | ];
             exact Hout.
        -- apply (rank_asym (VideoAnalyzer.scored_total s)
                    (VideoAnalyzer.scored_total c)
                    (num s < num c) (num c < num s));
             [lia | exact Hout | ].
           exact (Hrank _ _ (Hafter _ Hin)).
    + split.
      * intros Hreturned. pose proof (Hret _ Hc Hreturned) as Hin.
        rewrite Hpicked in Hin. cbn [VideoAnalyzer.select] in Hin.
        destruct (num_frames <=? Z.of_nat (List.length chosen)) eqn:Q;
          [elim Hcb; exact (Hchosen _ Hin) | ].
        apply Z.leb_gt in Q.
        destruct (VideoAnalyzer.too_close gap (num c) chosen) eqn:E.
        -- apply select_incl in Hin.
           destruct Hin as [Hin | Hin];
             [elim Hcb; exact (Hchosen _ Hin) | contradiction].
        -- split; [exact Q | ].
           pose proof (too_close_false _ _ _ E) as Hfar.
           rewrite Forall_forall in Hfar. intros s Hs.
           specialize (Hfar s Hs). lia.
      * intros (Hlt & Hfar). apply Hsel. rewrite Hpicked.
        cbn [VideoAnalyzer.select].
        destruct (num_frames <=? Z.of_nat (List.length chosen)) eqn:Q;
          [apply Z.leb_le in Q; lia | ].
        destruct (VideoAnalyzer.too_close gap (num c) chosen) eqn:E.
        -- destruct (too_close_true _ _ _ E) as (s & Hs & Hclose).
           specialize (Hfar s Hs). lia.
        -- destruct (select_prefix VideoAnalyzer.too_close num_frames gap after
                       (chosen ++ [c])) as (more & ->).
           apply in_or_app. left. apply in_or_app. right. left; reflexivity.
  - intros Hn.
    assert (Hnumr : Forall (fun s => (VideoAnalyzer.scored_total s
                              =? VideoAnalyzer.scored_total s)%float = true)
                      ranking)
      by exact (Permutation_Forall (Permutation_sym Hperm) Hnum).
    assert (Hsorted :
              StronglySorted
                (fun a b => (VideoAnalyzer.scored_total b
                             <=? VideoAnalyzer.scored_total a)%float = true)
                ranking)
      by (apply sort_desc_sorted; exact Hnum).
    unfold picked in Hsel.
    destruct ranking as [ | h rest] eqn:Eranking; [destruct Hcr | ].
    destruct (Hsel h (select_head num_frames gap h rest Hn)) as (sf & Hsf & Hh).
    exists sf. split; [exact Hsf | ].
    rewrite (proj1 (proj2 (proj2 (to_selected_frame_inv _ _ _ Hh)))).
    destruct Hcr as [<- | Hcr].
    + apply Forall_inv in Hnumr. apply float_eqb_leb, Hnumr.
    + apply StronglySorted_inv in Hsorted. destruct Hsorted as (_ & Hall).
      rewrite Forall_forall in Hall. exact (Hall c Hcr).
Qed.

End Greedy.

(** [analyze_video_greedy] on the synthetic video, three frames asked
    for, 66 frames apart: the candidates rank 65, 335, 20, 215 and so on;
    frame 20 is passed over for lying 45 frames from frame 65, one of the
    two returned frames that rank before it, and 65, 215 and 335 are
    returned. *)
Lemma analyze_video_greedy_witness :
  map VideoAnalyzer.scored_frame_num (firstn 4 Samples.ranked_candidates)
    = [65; 335; 20; 215] /\
  map VideoAnalyzer.frame_number Fixture.selection = [65; 215; 335] /\
  exists apart : Z,
    int (VideoAnalyzer.fps Fixture.info * 30)%float = Return apart /\
    let gap :=
      Z.max apart (VideoAnalyzer.frame_count Fixture.info / (3 * 2)) in
    let returned (s : @VideoAnalyzer.scored Fixture.cv2) :=
      exists sf, In sf Fixture.selection /\
                 VideoAnalyzer.to_selected_frame Fixture.info s = Return sf in
    let ranks_before_c (s : @VideoAnalyzer.scored Fixture.cv2) :=
      (VideoAnalyzer.scored_total Samples.third
       <? VideoAnalyzer.scored_total s)%float = true \/
      ((VideoAnalyzer.scored_total Samples.third
        =? VideoAnalyzer.scored_total s)%float = true /\
       VideoAnalyzer.scored_frame_num s
       < VideoAnalyzer.scored_frame_num Samples.third) in
    (exists chosen : list (@VideoAnalyzer.scored Fixture.cv2),
        NoDup (map VideoAnalyzer.scored_frame_num chosen) /\
        (forall s, In s chosen <->
                   In s (VideoAnalyzer.score_candidates Fixture.loaded
                           (VideoAnalyzer.prefilter Fixture.loaded
                              Samples.positions)) /\
                   returned s /\ ranks_before_c s) /\
        (returned Samples.third <->
         Z.of_nat (List.length chosen) < 3 /\
         forall s, In s chosen ->
           gap <= Z.abs (VideoAnalyzer.scored_frame_num Samples.third
                         - VideoAnalyzer.scored_frame_num s))) /\
    (1 <= 3 ->
     exists best,
       In best Fixture.selection /\
       (VideoAnalyzer.scored_total Samples.third
        <=? VideoAnalyzer.score best)%float = true).
Proof.
  split; [vm_compute; reflexivity | ].
  split; [vm_compute; reflexivity | ].
  apply (@analyze_video_greedy Fixture.cv2 400 Fixture.loaded 3
           (@VideoCapture Fixture.cv2 "talk.mp4") Fixture.info 400 5
           Samples.positions Fixture.selection Samples.third).
  - reflexivity.
  - reflexivity.
  - vm_compute. reflexivity.
  - apply returns_value. vm_compute. reflexivity.
  - apply returns_value. vm_compute. reflexivity.
  - apply Forall_forall. intros s Hs.
    assert (Hnum : forallb
                     (fun s : @VideoAnalyzer.scored Fixture.cv2 =>
                        (VideoAnalyzer.scored_total s
                         =? VideoAnalyzer.scored_total s)%float)
                     (VideoAnalyzer.score_candidates Fixture.loaded
                        (VideoAnalyzer.prefilter Fixture.loaded
                           Samples.positions)) = true)
      by (vm_compute; reflexivity).
    rewrite forallb_forall in Hnum. exact (Hnum s Hs).
  - apply (Permutation_in (l := Samples.ranked_candidates)).
    + unfold Samples.ranked_candidates, VideoAnalyzer.sort_by_score_desc.
      apply stable_sort_perm.
    + apply nth_In. apply Nat.ltb_lt. vm_compute. reflexivity.
Defined.

(** ** The parallel path on its own *)

Lemma stride_In {A : Type} (step skip : nat) (l : list A) (x : A) :
  In x (stride step skip l) -> In x l.
Proof.
  revert skip; induction l as [ | y t IH]; simpl; intros skip Hx; [exact Hx | ].
  destruct skip as [ | k].
  - destruct Hx as [-> | Hx]; [left; reflexivity | right; exact (IH _ Hx)].
  - right. exact (IH _ Hx).
Qed.

Section ParallelPath.

Context `{Cv2}.

(** The timestamp a returned frame is given. *)
Lemma to_selected_frame_timestamp (info : VideoAnalyzer.VideoInfo)
  (c : VideoAnalyzer.scored) (sf : VideoAnalyzer.SelectedFrame) :
  VideoAnalyzer.to_selected_frame info c = Return sf ->
  (VideoAnalyzer.fps info =? 0)%float = false /\
  exists n, float_of_int (VideoAnalyzer.frame_number sf) = Return n /\
            VideoAnalyzer.timestamp sf = (n / VideoAnalyzer.fps info)%float.
Proof.
  destruct c as [[[num sc] det] fr]. unfold VideoAnalyzer.to_selected_frame.
  intros Hsf. apply bind_Return_inv in Hsf. destruct Hsf as (ts & Hts & Hsf).
  injection Hsf as <-. cbn.
  apply bind_Return_inv in Hts. destruct Hts as (n & Hn & Hts).
  unfold truediv in Hts.
  destruct (VideoAnalyzer.fps info =? 0)%float; [discriminate | ].
  injection Hts as <-. split; [reflexivity | ].
  exists n. split; [exact Hn | reflexivity].
Qed.

Lemma analyze_chunk_In (cap : Capture Frame) (scorer : FrameScorer.t)
  (positions : list Z) (s : VideoAnalyzer.scored) :
  In s (VideoAnalyzer.analyze_chunk cap scorer positions) ->
  exists (n : Z) (frame : Frame),
    s = (n, FrameScorer.total_score (FrameScorer.score_frame scorer frame),
         FrameScorer.score_frame scorer frame, frame) /\
    In n positions /\ cap n = Some frame /\
    (0.15 <? calculate_sharpness_fast frame)%float = true.
Proof.
  induction positions as [ | p rest IH]; simpl; [intros [] | ].
  destruct (cap p) as [frame | ] eqn:Hf.
  - destruct (0.15 <? calculate_sharpness_fast frame)%float eqn:Hs.
    + intros [<- | Hc].
      * exists p, frame. repeat split; [left; reflexivity | assumption | assumption].
      * destruct (IH Hc) as (n & fr & -> & Hn & Hrest).
        exists n, fr. split; [reflexivity | ]. split; [right; exact Hn | exact Hrest].
    + intros Hc. destruct (IH Hc) as (n & fr & -> & Hn & Hrest).
      exists n, fr. split; [reflexivity | ]. split; [right; exact Hn | exact Hrest].
  - intros Hc. destruct (IH Hc) as (n & fr & -> & Hn & Hrest).
    exists n, fr. split; [reflexivity | ]. split; [right; exact Hn | exact Hrest].
Qed.

(** What a worker hands back, whichever its chunk and its turn. *)
Lemma futures_In (cap : Capture Frame) (scorer : FrameScorer.t)
  (num_workers : nat) (positions : list Z) (completion : list nat)
  (s : VideoAnalyzer.scored) :
  In s (flat_map
          (fun i =>
             nth i (map (VideoAnalyzer.analyze_chunk cap scorer)
                        (filter (fun chunk => negb (Nat.eqb (List.length chunk) 0))
                                (VideoAnalyzer.chunks num_workers positions)))
                 [])
          completion) ->
  exists (n : Z) (frame : Frame),
    s = (n, FrameScorer.total_score (FrameScorer.score_frame scorer frame),
         FrameScorer.score_frame scorer frame, frame) /\
    In n positions /\ cap n = Some frame /\
    (0.15 <? calculate_sharpness_fast frame)%float = true.
Proof.
  intros Hs. apply in_flat_map in Hs. destruct Hs as (i & _ & Hs).
  match type of Hs with
  | In _ (nth _ ?futures _) =>
      destruct (nth_in_or_default i futures []) as [Hin | Hd];
        [ | rewrite Hd in Hs; destruct Hs]
  end.
  apply in_map_iff in Hin.
  destruct Hin as (chunk & Hchunk & Hin). rewrite <- Hchunk in Hs.
  apply filter_In in Hin. destruct Hin as (Hin & _).
  unfold VideoAnalyzer.chunks in Hin. apply in_map_iff in Hin.
  destruct Hin as (k & <- & _).
  destruct (analyze_chunk_In _ _ _ _ Hs) as (n & frame & E & Hn & Hrest).
  exists n, frame. split; [exact E | ]. split; [ | exact Hrest].
  exact (stride_In _ _ _ _ Hn).
Qed.

(** X10.  The parallel analysis keeps the guarantees of the serial one
    for every number of workers and every order in which the workers
    finish: at most [num_frames] frames, ascending by frame number, any
    two at least [max(int(fps * 30), frame_count // (num_frames * 2))]
    frames apart.  Each returned frame sits at a sampled position, is the
    frame a capture of the stored path decodes there, has fast sharpness
    above 0.15, is not manual, carries the scores of a scorer with the
    default weights, their total as its score, and [frame_number / fps] as
    its timestamp. *)
Theorem parallel_selection_invariants
  (fuel : nat) (self : VideoAnalyzer.t) (num_frames num_workers : Z)
  (completion : list nat) (result : list VideoAnalyzer.SelectedFrame) :
  VideoAnalyzer.analyze_video_parallel fuel self num_frames num_workers completion
    = Return result ->
  Z.of_nat (List.length result) <= Z.max 0 num_frames /\
  StronglySorted Z.le (map VideoAnalyzer.frame_number result) /\
  (forall (info : VideoAnalyzer.VideoInfo) (apart : Z),
     VideoAnalyzer.video_info self = Some info ->
     int (VideoAnalyzer.fps info * 30)%float = Return apart ->
     ForallOrdPairs
       (fun a b =>
          Z.max apart (VideoAnalyzer.frame_count info / (num_frames * 2))
          <= Z.abs (VideoAnalyzer.frame_number a - VideoAnalyzer.frame_number b))
       result) /\
  forall sf : VideoAnalyzer.SelectedFrame,
    In sf result ->
    exists (video_path : string) (scorer : FrameScorer.t)
           (target_samples min_interval_sec : Z) (positions : list Z),
      VideoAnalyzer.video_path self = Some video_path /\
      FrameScorer.default = Return scorer /\
      0 < num_workers /\
      VideoAnalyzer._get_sampling_config (VideoAnalyzer.video_info self)
        = (target_samples, min_interval_sec) /\
      VideoAnalyzer._calculate_sample_positions fuel
        (VideoAnalyzer.video_info self) target_samples (Z2F min_interval_sec)
        = Return positions /\
      In (VideoAnalyzer.frame_number sf) positions /\
      VideoCapture video_path (VideoAnalyzer.frame_number sf)
        = Some (VideoAnalyzer.image sf) /\
      (0.15 <? calculate_sharpness_fast (VideoAnalyzer.image sf))%float = true /\
      VideoAnalyzer.score_details sf
        = FrameScorer.score_frame scorer (VideoAnalyzer.image sf) /\
      VideoAnalyzer.score sf
        = FrameScorer.total_score (VideoAnalyzer.score_details sf) /\
      VideoAnalyzer.is_manual sf = false /\
      exists (info : VideoAnalyzer.VideoInfo) (n : float),
        VideoAnalyzer.video_info self = Some info /\
        float_of_int (VideoAnalyzer.frame_number sf) = Return n /\
        VideoAnalyzer.timestamp sf = (n / VideoAnalyzer.fps info)%float.
Proof.
  unfold VideoAnalyzer.analyze_video_parallel. intros Hr.
  destruct (VideoAnalyzer.video_info self) as [info | ] eqn:Hinfo;
    [ | injection Hr as <-;
        split; [simpl; lia | ];
        split; [constructor | ];
        split; [intros; constructor | intros sf []]].
  destruct (VideoAnalyzer._get_sampling_config (Some info)) as [target mi] eqn:Hcfg.
  apply bind_Return_inv in Hr. destruct Hr as (positions & Hpos & Hr).
  destruct (num_workers <=? 0) eqn:Hw; [discriminate | ]. apply Z.leb_gt in Hw.
  destruct (VideoAnalyzer.video_path self) as [path | ] eqn:Hpath; [ | discriminate].
  apply bind_Return_inv in Hr. destruct Hr as (scorer & Hscorer & Hbest).
  destruct (select_best_inv _ _ _ _ _ Hbest) as (apart & Hapart & Hn & Hconv).
  cbv zeta in Hconv.
  set (gap := Z.max apart (VideoAnalyzer.frame_count info / (num_frames * 2))) in *.
  set (results := flat_map _ completion) in *.
  rewrite (select_ext _ VideoAnalyzer.too_close) in Hconv
    by (intros; apply too_close_any_loop).
  set (picked := VideoAnalyzer.select _ num_frames gap _ []) in Hconv.
  assert (Hnum : map VideoAnalyzer.frame_number result
                 = map VideoAnalyzer.scored_frame_num
                       (VideoAnalyzer.sort_by_frame_num picked)).
  { clear -Hconv. induction Hconv as [ | c sf l r Hc _ IH]; [reflexivity | ].
    simpl. rewrite IH. f_equal. apply (to_selected_frame_inv _ _ _ Hc). }
  split; [ | split; [ | split]].
  - rewrite <- (length_map VideoAnalyzer.frame_number), Hnum, length_map.
    unfold VideoAnalyzer.sort_by_frame_num.
    rewrite (Permutation_length (stable_sort_perm _ picked)).
    apply select_length. simpl. lia.
  - rewrite Hnum. apply sort_by_frame_num_sorted.
  - intros info' apart' Hinfo' Hapart'.
    injection Hinfo' as <-. rewrite Hapart in Hapart'. injection Hapart' as <-.
    fold gap.
    apply (ForallOrdPairs_Forall2
             (fun c sf => VideoAnalyzer.to_selected_frame info c = Return sf)
             (fun a b => gap <= Z.abs (VideoAnalyzer.scored_frame_num a
                                       - VideoAnalyzer.scored_frame_num b)))
      with (l := VideoAnalyzer.sort_by_frame_num picked); [ | exact Hconv | ].
    + intros a b a' b' Ha Hb Hab.
      rewrite (proj1 (to_selected_frame_inv _ _ _ Ha)),
              (proj1 (to_selected_frame_inv _ _ _ Hb)).
      exact Hab.
    + apply (ForallOrdPairs_perm
               (fun a b => gap <= Z.abs (VideoAnalyzer.scored_frame_num a
                                         - VideoAnalyzer.scored_frame_num b)))
        with (l := picked).
      * intros a b Hab. lia.
      * symmetry. apply stable_sort_perm.
      * apply select_spaced. constructor.
  - intros sf Hsf.
    destruct (Forall2_in_r_exists _ _ _ Hconv _ Hsf) as (c & Hc & Hcsf).
    apply (Permutation_in _ (stable_sort_perm _ _)) in Hc.
    apply select_incl in Hc. destruct Hc as [[] | Hc].
    apply (Permutation_in _ (stable_sort_perm _ _)) in Hc.
    destruct (futures_In _ _ _ _ _ _ Hc) as (n & frame & -> & Hin & Hget & Hsharp).
    destruct (to_selected_frame_timestamp _ _ _ Hcsf) as (_ & ts & Hts & Htime).
    unfold VideoAnalyzer.to_selected_frame in Hcsf.
    apply bind_Return_inv in Hcsf. destruct Hcsf as (ts' & _ & Hcsf).
    injection Hcsf as <-. cbn in *.
    exists path, scorer, target, mi, positions.
    repeat (split; [first [reflexivity | assumption] | ]).
    exists info, ts. repeat split; assumption.
Qed.

End ParallelPath.

(** [parallel_selection_invariants] on the synthetic video, four workers
    finishing out of order: the frames 65, 215 and 335 come back. *)
Lemma parallel_selection_invariants_witness :
  map VideoAnalyzer.frame_number Samples.parallel_selection = [65; 215; 335] /\
  Z.of_nat (List.length Samples.parallel_selection) <= Z.max 0 3 /\
  StronglySorted Z.le (map VideoAnalyzer.frame_number Samples.parallel_selection) /\
  (forall (info : VideoAnalyzer.VideoInfo) (apart : Z),
     VideoAnalyzer.video_info Fixture.loaded = Some info ->
     int (VideoAnalyzer.fps info * 30)%float = Return apart ->
     ForallOrdPairs
       (fun a b =>
          Z.max apart (VideoAnalyzer.frame_count info / (3 * 2))
          <= Z.abs (VideoAnalyzer.frame_number a - VideoAnalyzer.frame_number b))
       Samples.parallel_selection) /\
  forall sf : VideoAnalyzer.SelectedFrame,
    In sf Samples.parallel_selection ->
    exists (video_path : string) (scorer : FrameScorer.t)
           (target_samples min_interval_sec : Z) (positions : list Z),
      VideoAnalyzer.video_path Fixture.loaded = Some video_path /\
      FrameScorer.default = Return scorer /\
      0 < 4 /\
      VideoAnalyzer._get_sampling_config (VideoAnalyzer.video_info Fixture.loaded)
        = (target_samples, min_interval_sec) /\
      VideoAnalyzer._calculate_sample_positions 400
        (VideoAnalyzer.video_info Fixture.loaded) target_samples
        (Z2F min_interval_sec) = Return positions /\
      In (VideoAnalyzer.frame_number sf) positions /\
      @VideoCapture Fixture.cv2 video_path (VideoAnalyzer.frame_number sf)
        = Some (VideoAnalyzer.image sf) /\
      (0.15 <? @calculate_sharpness_fast Fixture.cv2 (VideoAnalyzer.image sf))%float
        = true /\
      VideoAnalyzer.score_details sf
        = FrameScorer.score_frame scorer (VideoAnalyzer.image sf) /\
      VideoAnalyzer.score sf
        = FrameScorer.total_score (VideoAnalyzer.score_details sf) /\
      VideoAnalyzer.is_manual sf = false /\
      exists (info : VideoAnalyzer.VideoInfo) (n : float),
        VideoAnalyzer.video_info Fixture.loaded = Some info /\
        float_of_int (VideoAnalyzer.frame_number sf) = Return n /\
        VideoAnalyzer.timestamp sf = (n / VideoAnalyzer.fps info)%float.
Proof.
  split; [vm_compute; reflexivity | ].
  apply (@parallel_selection_invariants Fixture.cv2 400 Fixture.loaded 3 4
           [2; 0; 3; 1]%nat).
  apply returns_value. vm_compute. reflexivity.
Defined.

(** ** What a returned frame carries *)

Section FrameData.

Context `{Cv2}.

(** X11.  Every frame the serial analysis returns carries the scores
    [score_frame] gives its image under the analyzer's current weights,
    their total as its score, and the timestamp [frame_number / fps],
    which exists only for a frame rate other than 0: with a frame rate of
    0 the analysis returns no frame. *)
Theorem selected_frames_are_consistent
  (fuel : nat) (self : VideoAnalyzer.t) (num_frames : Z)
  (result : list VideoAnalyzer.SelectedFrame) :
  VideoAnalyzer.analyze_video fuel self num_frames = Return result ->
  forall sf : VideoAnalyzer.SelectedFrame,
    In sf result ->
    VideoAnalyzer.score_details sf
      = FrameScorer.score_frame (VideoAnalyzer.frame_scorer self)
          (VideoAnalyzer.image sf) /\
    VideoAnalyzer.score sf
      = FrameScorer.total_score (VideoAnalyzer.score_details sf) /\
    exists (info : VideoAnalyzer.VideoInfo) (n : float),
      VideoAnalyzer.video_info self = Some info /\
      (VideoAnalyzer.fps info =? 0)%float = false /\
      float_of_int (VideoAnalyzer.frame_number sf) = Return n /\
      VideoAnalyzer.timestamp sf = (n / VideoAnalyzer.fps info)%float.
Proof.
  intros Hr sf Hsf.
  destruct (VideoAnalyzer.video_capture self) as [cap | ] eqn:Hcap;
    [ | rewrite analyze_video_not_loaded in Hr by (left; exact Hcap);
        injection Hr as <-; destruct Hsf].
  destruct (VideoAnalyzer.video_info self) as [info | ] eqn:Hinfo;
    [ | rewrite analyze_video_not_loaded in Hr by (right; exact Hinfo);
        injection Hr as <-; destruct Hsf].
  destruct (analyze_video_inv _ _ _ _ _ _ Hcap Hinfo Hr)
    as (target & mi & positions & _ & _ & Hbest).
  destruct (select_best_inv _ _ _ _ _ Hbest) as (apart & _ & _ & Hconv).
  cbv zeta in Hconv.
  destruct (Forall2_in_r_exists _ _ _ Hconv _ Hsf) as (c & Hc & Hcsf).
  apply (Permutation_in _ (stable_sort_perm _ _)) in Hc.
  apply select_incl in Hc. destruct Hc as [[] | Hc].
  apply (Permutation_in _ (stable_sort_perm _ _)) in Hc.
  unfold VideoAnalyzer.score_candidates in Hc. apply in_map_iff in Hc.
  destruct Hc as ([[n frame] sh] & <- & _).
  destruct (to_selected_frame_timestamp _ _ _ Hcsf) as (Hfps & ts & Hts & Htime).
  unfold VideoAnalyzer.to_selected_frame in Hcsf.
  apply bind_Return_inv in Hcsf. destruct Hcsf as (ts' & _ & Hcsf).
  injection Hcsf as <-. cbn in *.
  split; [reflexivity | ]. split; [reflexivity | ].
  exists info, ts. repeat split; assumption.
Qed.

End FrameData.

(** [selected_frames_are_consistent] at each of the three frames selected
    from the synthetic video, whose frame rate is 1. *)
Lemma selected_frames_are_consistent_witness :
  map VideoAnalyzer.timestamp Fixture.selection = [65; 215; 335]%float /\
  Forall
    (fun sf : @VideoAnalyzer.SelectedFrame Fixture.cv2 =>
       VideoAnalyzer.score_details sf
         = FrameScorer.score_frame (VideoAnalyzer.frame_scorer Fixture.loaded)
             (VideoAnalyzer.image sf) /\
       VideoAnalyzer.score sf
         = FrameScorer.total_score (VideoAnalyzer.score_details sf) /\
       exists (info : VideoAnalyzer.VideoInfo) (n : float),
         VideoAnalyzer.video_info Fixture.loaded = Some info /\
         (VideoAnalyzer.fps info =? 0)%float = false /\
         float_of_int (VideoAnalyzer.frame_number sf) = Return n /\
         VideoAnalyzer.timestamp sf = (n / VideoAnalyzer.fps info)%float)
    Fixture.selection.
Proof.
  split; [vm_compute; reflexivity | ].
  apply Forall_forall.
  apply (@selected_frames_are_consistent Fixture.cv2 400 Fixture.loaded 3).
  apply returns_value. vm_compute. reflexivity.
Defined.

(** ** The progress callback *)

Section Progress.

Context `{Cv2}.

(** Does the frame at the [k]-th of the positions decode? *)
Local Abbreviation decodes self positions :=
  (fun k : nat =>
     match VideoAnalyzer.get_frame_at_position self (nth k positions 0) with
     | Some _ => true
     | None => false
     end).

(** The calls of phase 1 if none raises: one for every position that
    decodes, with its index plus one. *)
Local Abbreviation reports self total a positions :=
  (map (fun k : nat => (Z.of_nat k + 1, total))
       (filter (fun k : nat =>
                  match VideoAnalyzer.get_frame_at_position self
                          (nth (k - a) positions 0) with
                  | Some _ => true
                  | None => false
                  end)
               (seq a (List.length positions)))).

Lemma reports_cons (self : VideoAnalyzer.t) (total : Z) (a : nat) (p : Z)
  (rest : list Z) :
  reports self total a (p :: rest)
  = match VideoAnalyzer.get_frame_at_position self p with
    | Some _ => [(Z.of_nat a + 1, total)]
    | None => []
    end ++ reports self total (S a) rest.
Proof.
  cbn [List.length seq filter].
  assert (E : filter (fun k : nat =>
                        match VideoAnalyzer.get_frame_at_position self
                                (nth (k - a) (p :: rest) 0) with
                        | Some _ => true
                        | None => false
                        end) (seq (S a) (List.length rest))
              = filter (fun k : nat =>
                          match VideoAnalyzer.get_frame_at_position self
                                  (nth (k - S a) rest 0) with
                          | Some _ => true
                          | None => false
                          end) (seq (S a) (List.length rest))).
  { apply filter_ext_in. intros k Hk. apply in_seq in Hk.
    replace (k - a)%nat with (S (k - S a)) by lia. reflexivity. }
  rewrite E, Nat.sub_diag. change (nth 0 (p :: rest) 0) with p.
  destruct (VideoAnalyzer.get_frame_at_position self p); reflexivity.
Qed.

(** Phase 1 under a callback: the calls made are the first of the calls
    due; the loop ends early exactly when a call raises, that call being
    the last made, and otherwise finds the candidates of the plain
    pre-filter. *)
Lemma prefilter_progress_spec (cancel : nat -> Z -> Z -> bool)
  (self : VideoAnalyzer.t) (total : Z) (positions : list Z) :
  forall (a : nat) (made : VideoAnalyzerMethods.calls),
    let run := VideoAnalyzerMethods.prefilter_progress cancel self total
                 (Z.of_nat a) positions made in
    exists news rest,
      fst run = made ++ news /\
      reports self total a positions = news ++ rest /\
      match snd run with
      | Some candidates =>
          rest = [] /\ candidates = VideoAnalyzer.prefilter self positions /\
          forall j c t, nth_error news j = Some (c, t) ->
                        cancel (List.length made + j)%nat c t = false
      | None =>
          exists pre c t,
            news = pre ++ [(c, t)] /\
            cancel (List.length made + List.length pre)%nat c t = true /\
            forall j c' t', nth_error pre j = Some (c', t') ->
                            cancel (List.length made + j)%nat c' t' = false
      end.
Proof.
  induction positions as [ | p ps IH]; intros a made; cbv zeta.
  - exists [], []. cbn. rewrite app_nil_r.
    repeat split. intros [ | j] c t E; discriminate.
  - rewrite reports_cons. cbn [VideoAnalyzerMethods.prefilter_progress].
    cbn [VideoAnalyzer.prefilter].
    destruct (VideoAnalyzer.get_frame_at_position self p) as [frame | ].
    + destruct (cancel (List.length made) (Z.of_nat a + 1) total) eqn:Hc.
      * exists [(Z.of_nat a + 1, total)], (reports self total (S a) ps).
        cbn [fst snd]. split; [reflexivity | ]. split; [reflexivity | ].
        exists [], (Z.of_nat a + 1), total. cbn [List.length app].
        rewrite Nat.add_0_r. split; [reflexivity | ]. split; [exact Hc | ].
        intros [ | j] c' t' E; discriminate.
      * specialize (IH (S a) (made ++ [(Z.of_nat a + 1, total)])).
        cbv zeta in IH. rewrite Nat2Z.inj_succ, <- Z.add_1_r in IH.
        destruct IH as (news & rest & Hmade & Hrep & Hout).
        destruct (VideoAnalyzerMethods.prefilter_progress cancel self total
                    (Z.of_nat a + 1) ps (made ++ [(Z.of_nat a + 1, total)]))
          as [made'' found].
        cbn [fst snd] in *.
        exists ((Z.of_nat a + 1, total) :: news), rest.
        split; [rewrite Hmade, <- app_assoc; reflexivity | ].
        split; [cbn [app]; rewrite Hrep; reflexivity | ].
        rewrite length_app in Hout. cbn [List.length] in Hout.
        destruct found as [cands | ].
        -- destruct Hout as (-> & -> & Hquiet).
           assert (Hquiet' : forall j c t,
                     nth_error ((Z.of_nat a + 1, total) :: news) j = Some (c, t) ->
                     cancel (List.length made + j)%nat c t = false).
           { intros [ | j] c t E.
             - injection E as <- <-. rewrite Nat.add_0_r. exact Hc.
             - cbn in E. replace (List.length made + S j)%nat
                 with (List.length made + 1 + j)%nat by lia.
               exact (Hquiet _ _ _ E). }
           destruct (0.15 <? calculate_sharpness_fast frame)%float;
             cbn [option_map];
             (split; [reflexivity | split; [reflexivity | exact Hquiet']]).
        -- destruct Hout as (pre & c & t & -> & Hraise & Hquiet).
           assert (Hraise' : exists pre' c' t',
                     (Z.of_nat a + 1, total) :: pre ++ [(c, t)]
                     = pre' ++ [(c', t')] /\
                     cancel (List.length made + List.length pre')%nat c' t' = true /\
                     forall j c'' t'', nth_error pre' j = Some (c'', t'') ->
                       cancel (List.length made + j)%nat c'' t'' = false).
           { exists ((Z.of_nat a + 1, total) :: pre), c, t.
             split; [reflexivity | ]. cbn [List.length]. split.
             - replace (List.length made + S (List.length pre))%nat
                 with (List.length made + 1 + List.length pre)%nat by lia.
               exact Hraise.
             - intros [ | j] c'' t'' E.
               + injection E as <- <-. rewrite Nat.add_0_r. exact Hc.
               + cbn in E. replace (List.length made + S j)%nat
                   with (List.length made + 1 + j)%nat by lia.
                 exact (Hquiet _ _ _ E). }
           destruct (0.15 <? calculate_sharpness_fast frame)%float;
             cbn [option_map]; exact Hraise'.
    + specialize (IH (S a) made). cbv zeta in IH.
      rewrite Nat2Z.inj_succ, <- Z.add_1_r in IH. exact IH.
Qed.

(** The calls made under any callback are the first of the calls made
    under a callback that never raises, and all of them if the run is not
    interrupted. *)
Lemma analyze_video_progress_due (fuel : nat) (self : VideoAnalyzer.t)
  (num_frames : Z) (cancel : nat -> Z -> Z -> bool) :
  let due :=
    fst (VideoAnalyzerMethods.analyze_video_progress fuel self num_frames
           (fun _ _ _ => false)) in
  let run :=
    VideoAnalyzerMethods.analyze_video_progress fuel self num_frames cancel in
  exists rest,
    due = fst run ++ rest /\
    match snd run with
    | VideoAnalyzerMethods.Completed _ => rest = []
    | VideoAnalyzerMethods.Interrupted => True
    end.
Proof.
  cbv zeta. unfold VideoAnalyzerMethods.analyze_video_progress.
  destruct (VideoAnalyzer.video_capture self) as [cap | ];
    [ | exists []; split; reflexivity].
  destruct (VideoAnalyzer.video_info self) as [info | ];
    [ | exists []; split; reflexivity].
  destruct (VideoAnalyzer._get_sampling_config (Some info)) as [target mi].
  destruct (VideoAnalyzer._calculate_sample_positions fuel (Some info) target
              (Z2F mi)) as [positions | e | ];
    [ | exists []; split; reflexivity | exists []; split; reflexivity].
  set (total := Z.of_nat (List.length positions)).
  assert (Hdue : fst (let (made, found) :=
                        VideoAnalyzerMethods.prefilter_progress
                          (fun _ _ _ => false) self total 0 positions
                          [(0, total)] in
                      match found with
                      | Some candidates =>
                          (made,
                           VideoAnalyzerMethods.Completed
                             (VideoAnalyzer.select_best VideoAnalyzer.too_close
                                info num_frames
                                (VideoAnalyzer.score_candidates self candidates)))
                      | None => (made, VideoAnalyzerMethods.Interrupted)
                      end)
                 = (0, total) :: reports self total 0%nat positions).
  { pose proof (prefilter_progress_spec (fun _ _ _ => false) self total
                  positions 0%nat [(0, total)]) as Hrun.
    cbv zeta in Hrun. change (Z.of_nat 0) with 0 in Hrun.
    destruct Hrun as (news & rest & Hmade & Hrep & Hout).
    destruct (VideoAnalyzerMethods.prefilter_progress (fun _ _ _ => false)
                self total 0 positions [(0, total)]) as [made found].
    cbn [fst snd] in Hmade, Hout. subst made.
    destruct found as [cands | ]; cbn [fst].
    - destruct Hout as (-> & _). rewrite app_nil_r in Hrep.
      rewrite Hrep. reflexivity.
    - destruct Hout as (pre & c & t & _ & Hraise & _). discriminate. }
  rewrite Hdue. clear Hdue.
  destruct (cancel 0%nat 0 total) eqn:Hc0.
  - exists (reports self total 0%nat positions). split; reflexivity.
  - pose proof (prefilter_progress_spec cancel self total positions 0%nat
                  [(0, total)]) as Hrun.
    cbv zeta in Hrun. change (Z.of_nat 0) with 0 in Hrun.
    destruct Hrun as (news & rest & Hmade & Hrep & Hout).
    destruct (VideoAnalyzerMethods.prefilter_progress cancel self total 0
                positions [(0, total)]) as [made found].
    cbn [fst snd] in Hmade, Hout. subst made.
    exists rest. destruct found as [cands | ]; cbn [fst snd].
    + destruct Hout as (-> & _). rewrite Hrep. split; reflexivity.
    + rewrite Hrep. split; [rewrite <- app_assoc; reflexivity | exact I].
Qed.

(** X12.  Under a progress callback [analyze_video] calls it with
    [(0, total)] and then, in order, with [(k + 1, total)] for every
    sampled position [k] whose frame decodes; a position that does not
    decode is not reported.  If no call raises, all these calls are made
    and the run yields what the analysis yields without a callback.  If a
    call raises, it is the first to do so and the last call made, and the
    run ends with that exception, no frame returned. *)
Theorem analyze_video_progress_spec
  (fuel : nat) (self : VideoAnalyzer.t) (num_frames : Z)
  (cancel : nat -> Z -> Z -> bool)
  (cap : Capture Frame) (info : VideoAnalyzer.VideoInfo)
  (target_samples min_interval_sec : Z) (positions : list Z) :
  VideoAnalyzer.video_capture self = Some cap ->
  VideoAnalyzer.video_info self = Some info ->
  VideoAnalyzer._get_sampling_config (Some info)
    = (target_samples, min_interval_sec) ->
  VideoAnalyzer._calculate_sample_positions fuel (Some info) target_samples
    (Z2F min_interval_sec) = Return positions ->
  let total := Z.of_nat (List.length positions) in
  let due :=
    (0, total)
    :: map (fun k : nat => (Z.of_nat k + 1, total))
           (filter (decodes self positions) (seq 0 (List.length positions))) in
  let run := VideoAnalyzerMethods.analyze_video_progress fuel self num_frames
               cancel in
  (exists rest, due = fst run ++ rest) /\
  match snd run with
  | VideoAnalyzerMethods.Completed r =>
      r = VideoAnalyzer.analyze_video fuel self num_frames /\
      fst run = due /\
      forall k c t, nth_error (fst run) k = Some (c, t) -> cancel k c t = false
  | VideoAnalyzerMethods.Interrupted =>
      exists pre c t,
        fst run = pre ++ [(c, t)] /\ cancel (List.length pre) c t = true /\
        forall k c' t', nth_error pre k = Some (c', t') -> cancel k c' t' = false
  end.
Proof.
  intros Hcap Hinfo Hcfg Hpos total due run.
  assert (Hdue : due = (0, total) :: reports self total 0%nat positions).
  { unfold due. f_equal. f_equal. apply filter_ext. intros k.
    rewrite Nat.sub_0_r. reflexivity. }
  unfold run, VideoAnalyzerMethods.analyze_video_progress,
    VideoAnalyzer.analyze_video.
  rewrite Hcap, Hinfo, Hcfg, Hpos. cbn [bind]. fold total.
  destruct (cancel 0%nat 0 total) eqn:Hc0.
  - cbn [fst snd]. split.
    + exists (reports self total 0%nat positions). rewrite Hdue. reflexivity.
    + exists [], 0, total. split; [reflexivity | ]. split; [exact Hc0 | ].
      intros [ | k] c' t' E; discriminate.
  - pose proof (prefilter_progress_spec cancel self total positions 0%nat
                  [(0, total)]) as Hrun.
    cbv zeta in Hrun. change (Z.of_nat 0) with 0 in Hrun.
    destruct Hrun as (news & rest & Hmade & Hrep & Hout).
    destruct (VideoAnalyzerMethods.prefilter_progress cancel self total 0
                positions [(0, total)]) as [made found].
    cbn [fst snd] in Hmade, Hout. subst made.
    destruct found as [cands | ]; cbn [fst snd].
    + destruct Hout as (-> & -> & Hquiet). rewrite app_nil_r in Hrep.
      split; [exists []; rewrite app_nil_r, Hdue, Hrep; reflexivity | ].
      split; [reflexivity | ].
      split; [rewrite Hdue, Hrep; reflexivity | ].
      intros [ | k] c t E.
      * injection E as <- <-. exact Hc0.
      * cbn in E. exact (Hquiet _ _ _ E).
    + split; [exists rest; rewrite Hdue, Hrep; reflexivity | ].
      destruct Hout as (pre & c & t & -> & Hraise & Hquiet).
      exists ((0, total) :: pre), c, t. split; [reflexivity | ].
      split; [exact Hraise | ].
      intros [ | k] c' t' E.
      * injection E as <- <-. exact Hc0.
      * cbn in E. exact (Hquiet _ _ _ E).
Qed.

End Progress.

(** [analyze_video_progress_spec] on the synthetic video under a callback
    that raises on its fourth call: four calls are made, the last with
    [(3, 78)], and the run is interrupted. *)
Lemma analyze_video_progress_spec_witness :
  fst (@VideoAnalyzerMethods.analyze_video_progress Fixture.cv2 400
         Fixture.loaded 3 Samples.cancel_fourth)
    = [(0, 78); (1, 78); (2, 78); (3, 78)] /\
  (exists rest,
     (0, Z.of_nat (List.length Samples.positions))
     :: map (fun k : nat => (Z.of_nat k + 1, Z.of_nat (List.length Samples.positions)))
            (filter
               (fun k : nat =>
                  match @VideoAnalyzer.get_frame_at_position Fixture.cv2
                          Fixture.loaded (nth k Samples.positions 0) with
                  | Some _ => true
                  | None => false
                  end)
               (seq 0 (List.length Samples.positions)))
     = fst (@VideoAnalyzerMethods.analyze_video_progress Fixture.cv2 400
              Fixture.loaded 3 Samples.cancel_fourth) ++ rest) /\
  match snd (@VideoAnalyzerMethods.analyze_video_progress Fixture.cv2 400
               Fixture.loaded 3 Samples.cancel_fourth) with
  | VideoAnalyzerMethods.Completed r =>
      r = VideoAnalyzer.analyze_video 400 Fixture.loaded 3 /\
      fst (@VideoAnalyzerMethods.analyze_video_progress Fixture.cv2 400
             Fixture.loaded 3 Samples.cancel_fourth)
      = (0, Z.of_nat (List.length Samples.positions))
        :: map (fun k : nat =>
                  (Z.of_nat k + 1, Z.of_nat (List.length Samples.positions)))
               (filter
                  (fun k : nat =>
                     match @VideoAnalyzer.get_frame_at_position Fixture.cv2
                             Fixture.loaded (nth k Samples.positions 0) with
                     | Some _ => true
                     | None => false
                     end)
                  (seq 0 (List.length Samples.positions))) /\
      forall k c t,
        nth_error (fst (@VideoAnalyzerMethods.analyze_video_progress Fixture.cv2
                          400 Fixture.loaded 3 Samples.cancel_fourth)) k
          = Some (c, t) ->
        Samples.cancel_fourth k c t = false
  | VideoAnalyzerMethods.Interrupted =>
      exists pre c t,
        fst (@VideoAnalyzerMethods.analyze_video_progress Fixture.cv2 400
               Fixture.loaded 3 Samples.cancel_fourth) = pre ++ [(c, t)] /\
        Samples.cancel_fourth (List.length pre) c t = true /\
        forall k c' t', nth_error pre k = Some (c', t') ->
                        Samples.cancel_fourth k c' t' = false
  end.
Proof.
  split; [vm_compute; reflexivity | ].
  apply (@analyze_video_progress_spec Fixture.cv2 400 Fixture.loaded 3
           Samples.cancel_fourth (@VideoCapture Fixture.cv2 "talk.mp4")
           Fixture.info 400 5 Samples.positions).
  - reflexivity.
  - reflexivity.
  - vm_compute. reflexivity.
  - apply returns_value. vm_compute. reflexivity.
Defined.

(** ** The names of exported files *)







Section ExportLoop.

Context `{Cv2}.

Variable joinpath : string -> string.
Variable save_image : Frame -> string -> bool.



End ExportLoop.


(** ** The project presets *)

(** X14.  [get_settings] answers for every name: with the preset of that
    name if there is one, with the Podcast preset otherwise.  The weights
    of the preset it answers with add up to exactly 1.0 in binary64, so
    that [set_weights], dividing by that sum, neither raises nor alters
    them: the analysis workers score with the preset's weights as
    written. *)
Theorem get_settings_weights_are_kept (type_name : string) (self : FrameScorer.t) :
  exists settings : ProjectTypes.ProjectTypeSettings,
    ProjectTypesMethods.get_settings type_name = Some settings /\
    In settings ProjectTypes.TYPES /\
    (In type_name ProjectTypesMethods.get_type_names ->
     ProjectTypes.name settings = type_name) /\
    (~ In type_name ProjectTypesMethods.get_type_names ->
     ProjectTypes.name settings = "Podcast"%string) /\
    (ProjectTypes.face_weight settings + ProjectTypes.sharpness_weight settings
     + ProjectTypes.stability_weight settings)%float = 1%float /\
    FrameScorer.set_weights self (ProjectTypes.face_weight settings)
      (ProjectTypes.sharpness_weight settings)
      (ProjectTypes.stability_weight settings)
    = Return {| FrameScorer.face_weight := ProjectTypes.face_weight settings;
                FrameScorer.sharpness_weight := ProjectTypes.sharpness_weight settings;
                FrameScorer.stability_weight := ProjectTypes.stability_weight settings |}.
Proof.
  assert (Hall : Forall
            (fun s =>
               (ProjectTypes.face_weight s + ProjectTypes.sharpness_weight s
                + ProjectTypes.stability_weight s)%float = 1%float /\
               FrameScorer.set_weights self (ProjectTypes.face_weight s)
                 (ProjectTypes.sharpness_weight s) (ProjectTypes.stability_weight s)
               = Return {| FrameScorer.face_weight := ProjectTypes.face_weight s;
                           FrameScorer.sharpness_weight := ProjectTypes.sharpness_weight s;
                           FrameScorer.stability_weight := ProjectTypes.stability_weight s |})
            ProjectTypes.TYPES).
  { repeat constructor. }
  rewrite Forall_forall in Hall.
  unfold ProjectTypesMethods.get_settings, ProjectTypesMethods.get_type_names.
  destruct (ProjectTypesMethods.get "Podcast") as [default | ] eqn:Hdefault;
    [ | vm_compute in Hdefault; discriminate].
  apply find_some in Hdefault. destruct Hdefault as (Hdin & Hdname).
  apply String.eqb_eq in Hdname.
  destruct (ProjectTypesMethods.get type_name) as [s | ] eqn:Hfind;
    unfold ProjectTypesMethods.get in Hfind.
  - apply find_some in Hfind. destruct Hfind as (Hin & Hname).
    apply String.eqb_eq in Hname.
    exists s. split; [reflexivity | ]. split; [exact Hin | ].
    split; [intros _; exact Hname | ].
    split; [ | exact (Hall _ Hin)].
    intros Hnot. exfalso. apply Hnot. apply in_map_iff.
    exists s. split; assumption.
  - exists default. split; [reflexivity | ]. split; [exact Hdin | ].
    split; [ | split; [intros _; exact Hdname | exact (Hall _ Hdin)]].
    intros Hin. exfalso. apply in_map_iff in Hin.
    destruct Hin as (s & Hname & Hs).
    apply (find_none _ _ Hfind) in Hs. rewrite Hname, String.eqb_refl in Hs.
    discriminate.
Qed.

(** ** The sampling plan *)

(** X15.  The sampling configuration never asks more of a longer video:
    of two durations, the longer gets at most as many target samples and
    at least as long a minimum interval.  Every configuration is a row of
    the table, a duration that is no number getting the last one. *)
Theorem sampling_config_monotone (info1 info2 : VideoAnalyzer.VideoInfo) :
  let config1 := VideoAnalyzer._get_sampling_config (Some info1) in
  let config2 := VideoAnalyzer._get_sampling_config (Some info2) in
  In config1 (map snd VideoAnalyzer.SAMPLING_CONFIG) /\
  ((VideoAnalyzer.duration info1 =? VideoAnalyzer.duration info1)%float = false ->
   config1 = (200, 60)) /\
  ((VideoAnalyzer.duration info1 <=? VideoAnalyzer.duration info2)%float = true ->
   fst config2 <= fst config1 /\ snd config1 <= snd config2).
Proof.
  cbv zeta. unfold VideoAnalyzer._get_sampling_config, VideoAnalyzer.SAMPLING_CONFIG.
  cbn [VideoAnalyzer.first_config map snd].
  set (d1 := VideoAnalyzer.duration info1). set (d2 := VideoAnalyzer.duration info2).
  assert (Hle : forall b, (d1 <=? d2)%float = true -> (d2 <=? b)%float = true ->
                          (d1 <=? b)%float = true)
    by (intros b H12 H2; exact (float_leb_trans _ _ _ H12 H2)).
  assert (Hnan : forall b, (d1 =? d1)%float = false -> (d1 <=? b)%float = false).
  { intros b. rewrite FloatAxioms.eqb_spec, leb_spec.
    unfold SFeqb, SFleb, SFcompare.
    destruct (Prim2SF d1) as [s | s | | s m e]; try destruct s;
      try discriminate; try reflexivity;
      rewrite Z.compare_refl;
      change (PosDef.Pos.compare_cont Eq m m) with (Pos.compare m m);
      rewrite Pos.compare_refl; discriminate. }
  split; [ | split].
  - destruct (d1 <=? 300)%float; [simpl; tauto | ].
    destruct (d1 <=? 1800)%float; [simpl; tauto | ].
    destruct (d1 <=? 7200)%float; [simpl; tauto | ].
    destruct (d1 <=? 14400)%float; [simpl; tauto | ].
    destruct (d1 <=? infinity)%float; simpl; tauto.
  - intros Hn. rewrite !(Hnan _ Hn). reflexivity.
  - intros H12.
    pose proof (Hle 300%float H12) as H300.
    pose proof (Hle 1800%float H12) as H1800.
    pose proof (Hle 7200%float H12) as H7200.
    pose proof (Hle 14400%float H12) as H14400.
    destruct (d2 <=? 300)%float;
      [rewrite (H300 eq_refl); simpl; lia | clear H300].
    destruct (d2 <=? 1800)%float.
    { rewrite (H1800 eq_refl). destruct (d1 <=? 300)%float; simpl; lia. }
    clear H1800. destruct (d2 <=? 7200)%float.
    { rewrite (H7200 eq_refl).
      destruct (d1 <=? 300)%float, (d1 <=? 1800)%float; simpl; lia. }
    clear H7200. destruct (d2 <=? 14400)%float.
    { rewrite (H14400 eq_refl).
      destruct (d1 <=? 300)%float, (d1 <=? 1800)%float, (d1 <=? 7200)%float;
        simpl; lia. }
    destruct (d1 <=? 300)%float, (d1 <=? 1800)%float, (d1 <=? 7200)%float,
             (d1 <=? 14400)%float, (d1 <=? infinity)%float,
             (d2 <=? infinity)%float; simpl; lia.
Qed.

(** X16.  The planner is economical: for a frame rate that is not
    negative it returns at most twice the number of samples asked for,
    and so at most [2 * target_samples], hence at most 1000, positions
    for any video the analysis plans. *)
Theorem sample_positions_count_bound (fuel : nat)
  (info : VideoAnalyzer.VideoInfo) (num_samples : Z) (min_interval_sec : float)
  (positions : list Z) :
  (0 <=? VideoAnalyzer.fps info)%float = true ->
  0 < num_samples ->
  VideoAnalyzer._calculate_sample_positions fuel (Some info) num_samples
    min_interval_sec = Return positions ->
  Z.of_nat (List.length positions) <= 2 * num_samples /\
  (num_samples = fst (VideoAnalyzer._get_sampling_config (Some info)) ->
   Z.of_nat (List.length positions) <= 1000).
Proof.
  intros Hfps Hns Hpos.
  destruct (sample_positions_returns _ _ _ _ _ Hpos)
    as (start & mif & n & Hstart & _ & _ & Hl & Hbelow & Hbeyond).
  cbv zeta in Hl, Hbelow, Hbeyond.
  set (fc := VideoAnalyzer.frame_count info) in *.
  set (step := Z.max mif (fc / num_samples)) in *.
  assert (H0 : 0 <= start)
    by (apply (int_mul_nonneg _ 5 _ Hfps); [vm_compute; reflexivity | exact Hstart]).
  assert (Hcount : Z.of_nat n <= 2 * num_samples).
  { destruct n as [ | n]; [lia | ].
    pose proof (Hbelow 0%nat ltac:(lia)) as Hfirst.
    pose proof (Hbelow n ltac:(lia)) as Hlast.
    assert (Hq : fc / num_samples <= step) by (unfold step; lia).
    pose proof (Z.div_mod fc num_samples ltac:(lia)) as Hdm.
    pose proof (Z.mod_pos_bound fc num_samples Hns) as Hmod.
    assert (Hstep : 1 <= step) by nia.
    assert (Hq0 : 0 <= fc / num_samples) by (apply Z.div_pos; lia).
    destruct (Z.eq_dec (fc / num_samples) 0) as [Hz | Hnz].
    - rewrite Hz in Hdm. nia.
    - assert (Z.of_nat n * (fc / num_samples) < (fc / num_samples + 1) * num_samples)
        by nia.
      nia. }
  assert (Hlen : Z.of_nat (List.length positions) = Z.of_nat n)
    by (rewrite Hl, length_map, length_seq; reflexivity).
  rewrite Hlen. split; [exact Hcount | ].
  intros Hcfg.
  assert (Hrow : In (VideoAnalyzer._get_sampling_config (Some info))
                    (map snd VideoAnalyzer.SAMPLING_CONFIG)).
  { unfold VideoAnalyzer._get_sampling_config, VideoAnalyzer.SAMPLING_CONFIG.
    cbn [VideoAnalyzer.first_config map snd].
    destruct (_ <=? 300)%float; [simpl; tauto | ].
    destruct (_ <=? 1800)%float; [simpl; tauto | ].
    destruct (_ <=? 7200)%float; [simpl; tauto | ].
    destruct (_ <=? 14400)%float; [simpl; tauto | ].
    destruct (_ <=? infinity)%float; simpl; tauto. }
  destruct (VideoAnalyzer._get_sampling_config (Some info)) as [target interval].
  cbn [fst] in Hcfg. subst target.
  simpl in Hrow.
  destruct Hrow as [E | [E | [E | [E | [E | []]]]]]; injection E as E _; lia.
Qed.

(** [sample_positions_count_bound] on the synthetic video, 400 samples
    asked for at least 5 seconds apart: 78 positions. *)
Lemma sample_positions_count_bound_witness :
  List.length Samples.positions = 78%nat /\
  Z.of_nat (List.length Samples.positions) <= 2 * 400 /\
  (400 = fst (VideoAnalyzer._get_sampling_config (Some Fixture.info)) ->
   Z.of_nat (List.length Samples.positions) <= 1000).
Proof.
  split; [vm_compute; reflexivity | ].
  apply (sample_positions_count_bound 400 Fixture.info 400 (Z2F 5)).
  - vm_compute. reflexivity.
  - lia.
  - apply returns_value. vm_compute. reflexivity.
Defined.

(** ** Saving in a format *)

Section SaveImage.

Context `{Cv2}.

Variable with_extension : string -> string -> string.
Variable drop_alpha : Frame -> Frame.
Variable save : Frame -> string -> string -> option Z -> bool.
Variable joinpath : string -> string.

Lemma export_loop_nothing_saved (save_image : Frame -> string -> bool)
  (prefix extension : string) (frames : list VideoAnalyzer.SelectedFrame) :
  (forall image filepath, save_image image filepath = false) ->
  forall (i : Z) (files : list string),
    ScreenshotExporter.export_loop joinpath save_image prefix extension i frames
      = Return files ->
    files = [].
Proof.
  intros Hnone. induction frames as [ | frame rest IH]; intros i files Hf;
    simpl in Hf.
  - injection Hf as <-. reflexivity.
  - apply bind_Return_inv in Hf. destruct Hf as (name & _ & Hf).
    apply bind_Return_inv in Hf. destruct Hf as (exported & Hrest & Hf).
    rewrite Hnone in Hf. injection Hf as <-. exact (IH _ _ Hrest).
Qed.

(** X17.  [save_image] hands Pillow a quality between 1 and 100 whatever
    quality is requested, and only for JPG and WebP; the other formats
    ignore the request.  For a name that is no format it saves nothing
    and answers [False]: an export under such a name names its files
    [.png], writes none of them and returns the empty list. *)
Theorem save_image_quality_and_unknown_format (image : Frame)
  (filepath format_name : string) (requested : option Z) :
  match ImageFormats.get format_name with
  | Some info =>
      exists (image' : Frame) (options : option Z),
        ImageFormats.save_image Frame with_extension drop_alpha save image
          filepath format_name requested
        = save image' (with_extension filepath (ImageFormats.extension info))
            (ImageFormats.pillow_format info) options /\
        ImageFormats.get_extension format_name = ImageFormats.extension info /\
        match options with
        | Some q =>
            1 <= q <= 100 /\
            (format_name = "JPG" \/ format_name = "WebP")%string /\
            (forall r, requested = Some r -> 1 <= r <= 100 -> q = r)
        | None => format_name <> "JPG"%string /\ format_name <> "WebP"%string
        end
  | None =>
      ImageFormats.save_image Frame with_extension drop_alpha save image
        filepath format_name requested = false /\
      ImageFormats.get_extension format_name = ".png"%string /\
      forall (frames : list VideoAnalyzer.SelectedFrame) (prefix : string)
             (files : list string),
        ScreenshotExporter.export_frames joinpath
          (fun image filepath =>
             ImageFormats.save_image Frame with_extension drop_alpha save image
               filepath format_name requested)
          frames prefix (ImageFormats.get_extension format_name)
        = Return files ->
        files = []
  end.
Proof.
  unfold ImageFormats.save_image, ImageFormats.get_extension.
  destruct (ImageFormats.get format_name) as [info | ] eqn:Hget.
  - unfold ImageFormats.get in Hget.
    destruct (find _ ImageFormats.FORMATS) as [[key info'] | ] eqn:Hfind;
      [ | discriminate].
    injection Hget as ->. apply find_some in Hfind.
    destruct Hfind as (Hin & Hkey). cbn [fst] in Hkey.
    apply String.eqb_eq in Hkey. subst key.
    eexists. eexists. split; [reflexivity | ]. split; [reflexivity | ].
    simpl in Hin.
    destruct Hin as [E | [E | [E | [E | [E | []]]]]];
      injection E as <- <-; cbn; destruct requested as [r | ]; cbn;
      repeat split; try discriminate; try lia; try tauto;
      try (intros r' Er Hr; injection Er as <-; lia);
      try (intros r' Er; discriminate).
  - split; [reflexivity | ]. split; [reflexivity | ].
    intros frames prefix files Hf.
    unfold ScreenshotExporter.export_frames in Hf.
    apply (export_loop_nothing_saved _ _ _ _ (fun _ _ => eq_refl) _ _ Hf).
Qed.

End SaveImage.

(** ** The analysis worker *)

Section Worker.

Context `{Cv2}.

(** How a run under a callback ends, loaded or not: as the analysis
    without a callback does, unless a call raises. *)
Lemma analyze_video_progress_outcome (fuel : nat) (self : VideoAnalyzer.t)
  (num_frames : Z) (cancel : nat -> Z -> Z -> bool) :
  let run :=
    VideoAnalyzerMethods.analyze_video_progress fuel self num_frames cancel in
  match snd run with
  | VideoAnalyzerMethods.Completed r =>
      r = VideoAnalyzer.analyze_video fuel self num_frames /\
      forall k c t, nth_error (fst run) k = Some (c, t) -> cancel k c t = false
  | VideoAnalyzerMethods.Interrupted =>
      exists pre c t,
        fst run = pre ++ [(c, t)] /\ cancel (List.length pre) c t = true /\
        forall k c' t', nth_error pre k = Some (c', t') -> cancel k c' t' = false
  end.
Proof.
  cbv zeta.
  unfold VideoAnalyzerMethods.analyze_video_progress, VideoAnalyzer.analyze_video.
  destruct (VideoAnalyzer.video_capture self) as [cap | ];
    [ | cbn; split; [reflexivity | intros [ | k] c t E; discriminate]].
  destruct (VideoAnalyzer.video_info self) as [info | ];
    [ | cbn; split; [reflexivity | intros [ | k] c t E; discriminate]].
  destruct (VideoAnalyzer._get_sampling_config (Some info)) as [target mi].
  destruct (VideoAnalyzer._calculate_sample_positions fuel (Some info) target
              (Z2F mi)) as [positions | e | ];
    [ | cbn; split; [reflexivity | intros [ | k] c t E; discriminate]
      | cbn; split; [reflexivity | intros [ | k] c t E; discriminate]].
  cbn [bind].
  set (total := Z.of_nat (List.length positions)).
  destruct (cancel 0%nat 0 total) eqn:Hc0.
  - cbn [fst snd]. exists [], 0, total. split; [reflexivity | ].
    split; [exact Hc0 | intros [ | k] c' t' E; discriminate].
  - pose proof (prefilter_progress_spec cancel self total positions 0%nat
                  [(0, total)]) as Hrun.
    cbv zeta in Hrun. change (Z.of_nat 0) with 0 in Hrun.
    destruct Hrun as (news & rest & Hmade & _ & Hout).
    destruct (VideoAnalyzerMethods.prefilter_progress cancel self total 0
                positions [(0, total)]) as [made found].
    cbn [fst snd] in Hmade, Hout. subst made.
    destruct found as [cands | ]; cbn [fst snd].
    + destruct Hout as (_ & -> & Hquiet). split; [reflexivity | ].
      intros [ | k] c t E.
      * injection E as <- <-. exact Hc0.
      * cbn in E. exact (Hquiet _ _ _ E).
    + destruct Hout as (pre & c & t & -> & Hraise & Hquiet).
      exists ((0, total) :: pre), c, t. split; [reflexivity | ].
      split; [exact Hraise | ].
      intros [ | k] c' t' E.
      * injection E as <- <-. exact Hc0.
      * cbn in E. exact (Hquiet _ _ _ E).
Qed.

(** The weights of every preset are stored as written. *)
Lemma preset_weights_stored (self : VideoAnalyzer.t)
  (settings : ProjectTypes.ProjectTypeSettings) :
  In settings ProjectTypes.TYPES ->
  VideoAnalyzerMethods.set_weights self (ProjectTypes.face_weight settings)
    (ProjectTypes.sharpness_weight settings)
    (ProjectTypes.stability_weight settings)
  = Return
      {| VideoAnalyzer.video_path := VideoAnalyzer.video_path self;
         VideoAnalyzer.video_capture := VideoAnalyzer.video_capture self;
         VideoAnalyzer.video_info := VideoAnalyzer.video_info self;
         VideoAnalyzer.frame_scorer :=
           {| FrameScorer.face_weight := ProjectTypes.face_weight settings;
              FrameScorer.sharpness_weight := ProjectTypes.sharpness_weight settings;
              FrameScorer.stability_weight := ProjectTypes.stability_weight settings |} |}.
Proof.
  simpl. intros [<- | [<- | [<- | [<- | [<- | []]]]]]; reflexivity.
Qed.

Lemma get_settings_In (type_name : string) :
  exists settings,
    ProjectTypesMethods.get_settings type_name = Some settings /\
    In settings ProjectTypes.TYPES.
Proof.
  unfold ProjectTypesMethods.get_settings.
  destruct (ProjectTypesMethods.get "Podcast") as [default | ] eqn:Hdefault;
    [ | vm_compute in Hdefault; discriminate].
  apply find_some in Hdefault.
  destruct (ProjectTypesMethods.get type_name) as [s | ] eqn:Hfind.
  - apply find_some in Hfind. exists s. split; [reflexivity | apply Hfind].
  - exists default. split; [reflexivity | apply Hdefault].
Qed.

(** X18.  [AnalyzeWorker.run] never ends in an error over the project
    type: for every name it stores the weights of the preset
    [get_settings] answers with, unchanged, and leaves them on the shared
    analyzer, the loaded video untouched.  Let [due] be the progress calls
    the analysis under these weights makes when none of them raises.  If
    the cancel flag is set at none of these calls, the worker emits one
    progress signal for each of them and closes as the analysis does:
    [finished] with its frames if it returns, [error] if it raises.  If
    the flag is first seen set at call [k], the worker emits the progress
    signals of the [k] calls before it and no other, and closes with
    [finished] of the empty list, as for an analysis that found nothing,
    and not with an error. *)
Theorem analyze_worker_run_spec (fuel : nat) (video_analyzer : VideoAnalyzer.t)
  (num_frames : Z) (project_type : string) (cancelled : nat -> bool) :
  exists (settings : ProjectTypes.ProjectTypeSettings)
         (weighted : VideoAnalyzer.t),
    ProjectTypesMethods.get_settings project_type = Some settings /\
    weighted
    = {| VideoAnalyzer.video_path := VideoAnalyzer.video_path video_analyzer;
         VideoAnalyzer.video_capture := VideoAnalyzer.video_capture video_analyzer;
         VideoAnalyzer.video_info := VideoAnalyzer.video_info video_analyzer;
         VideoAnalyzer.frame_scorer :=
           {| FrameScorer.face_weight := ProjectTypes.face_weight settings;
              FrameScorer.sharpness_weight := ProjectTypes.sharpness_weight settings;
              FrameScorer.stability_weight := ProjectTypes.stability_weight settings |} |} /\
    let due :=
      fst (VideoAnalyzerMethods.analyze_video_progress fuel weighted num_frames
             (fun _ _ _ => false)) in
    let '(after, progress, closing) :=
      AnalyzeWorker.run fuel video_analyzer num_frames project_type cancelled in
    after = weighted /\
    ((forall k, (k < List.length due)%nat -> cancelled k = false) ->
     progress = due /\
     closing
     = match VideoAnalyzer.analyze_video fuel weighted num_frames with
       | Return frames => Some (AnalyzeWorker.finished frames)
       | Raise e => Some (AnalyzeWorker.error (AnalyzeWorker.Exn e))
       | OutOfFuel => None
       end) /\
    (forall k, (k < List.length due)%nat -> cancelled k = true ->
       (forall j, (j < k)%nat -> cancelled j = false) ->
       progress = firstn k due /\
       closing = Some (AnalyzeWorker.finished [])).
Proof.
  destruct (get_settings_In project_type) as (settings & Hget & Hin).
  eexists settings, _. split; [exact Hget | ]. split; [reflexivity | ].
  unfold AnalyzeWorker.run. rewrite Hget, (preset_weights_stored _ _ Hin).
  set (weighted := {| VideoAnalyzer.video_path := _ |}).
  pose proof (analyze_video_progress_outcome fuel weighted num_frames
                (fun k _ _ => cancelled k)) as Hout.
  pose proof (analyze_video_progress_due fuel weighted num_frames
                (fun k _ _ => cancelled k)) as Hdue.
  cbv zeta in Hout, Hdue |- *.
  set (due := fst (VideoAnalyzerMethods.analyze_video_progress fuel weighted
                     num_frames (fun _ _ _ => false))) in *.
  destruct (VideoAnalyzerMethods.analyze_video_progress fuel weighted num_frames
              (fun k _ _ => cancelled k)) as [made out].
  cbn [fst snd] in Hout, Hdue.
  destruct Hdue as (rest & Hdue & Hrest).
  destruct out as [r | ].
  - destruct Hout as (-> & Hquiet). subst rest. rewrite app_nil_r in Hdue.
    subst made.
    assert (Hq : forall k, (k < List.length due)%nat -> cancelled k = false).
    { intros k Hk. destruct (nth_error due k) as [[c t] | ] eqn:E.
      - exact (Hquiet _ _ _ E).
      - apply nth_error_None in E. lia. }
    destruct (VideoAnalyzer.analyze_video fuel weighted num_frames)
      as [frames | e | ];
      (split; [reflexivity | split; [intros _; split; reflexivity | ]]);
      intros k Hk Hset _; rewrite (Hq k Hk) in Hset; discriminate.
  - destruct Hout as (pre & c & t & -> & Hraise & Hquiet).
    rewrite removelast_last.
    assert (Hq : forall j, (j < List.length pre)%nat -> cancelled j = false).
    { intros j Hj. destruct (nth_error pre j) as [[c' t'] | ] eqn:E.
      - exact (Hquiet _ _ _ E).
      - apply nth_error_None in E. lia. }
    assert (Hlen : (List.length pre < List.length due)%nat).
    { rewrite Hdue, !length_app. simpl. lia. }
    split; [reflexivity | ]. split.
    + intros Hnever. rewrite (Hnever _ Hlen) in Hraise. discriminate.
    + intros k Hk Hset Hfirst.
      assert (k = List.length pre).
      { destruct (Nat.lt_trichotomy k (List.length pre)) as [Hlt | [Heq | Hgt]].
        - rewrite (Hq k Hlt) in Hset. discriminate.
        - exact Heq.
        - rewrite (Hfirst _ Hgt) in Hraise. discriminate. }
      subst k. split; [ | reflexivity].
      rewrite Hdue, <- app_assoc, firstn_app, Nat.sub_diag, firstn_all.
      cbn [firstn]. rewrite app_nil_r. reflexivity.
Qed.

End Worker.

(** [analyze_worker_run_spec] on the synthetic video, three frames asked
    for under the Podcast preset, the cancel flag seen set at the fourth
    progress call: the signals of the three calls before it are emitted,
    and the worker closes with [finished] of the empty list. *)
Lemma analyze_worker_run_spec_witness :
  let out :=
    @AnalyzeWorker.run Fixture.cv2 400 Fixture.loaded 3 "Podcast"
      (fun k => Nat.eqb k 3) in
  snd (fst out) = [(0, 78); (1, 78); (2, 78)] /\
  snd out = Some (AnalyzeWorker.finished []).
Proof.
  cbv zeta.
  destruct (@analyze_worker_run_spec Fixture.cv2 400 Fixture.loaded 3 "Podcast"
              (fun k => Nat.eqb k 3))
    as (settings & weighted & Hget & Hweighted & Hrun).
  vm_compute in Hget. injection Hget as <-. subst weighted.
  cbv zeta in Hrun.
  destruct (@AnalyzeWorker.run Fixture.cv2 400 Fixture.loaded 3 "Podcast"
              (fun k => Nat.eqb k 3)) as [[after progress] closing].
  cbn [fst snd]. destruct Hrun as (_ & _ & Hcancel).
  destruct (Hcancel 3%nat) as (Hprogress & Hclosing).
  - apply Nat.ltb_lt. vm_compute. reflexivity.
  - reflexivity.
  - intros [ | [ | [ | j]]] Hj; [reflexivity | reflexivity | reflexivity | lia].
  - split; [ | exact Hclosing].
    rewrite Hprogress. vm_compute. reflexivity.
Defined.
